(** * metha: the incremental OAI-PMH harvesting engine (harvest.go)

    A shallow embedding of [harvest.go] and a verification of its
    interval planner, pagination driver, batch materializer and
    cleanup logic.

    Conventions.
    - Go's [error] interface is [option error]; a Go function returning
      [(T, error)] returns [result T].
    - Go [int] values are [Z]; strings are byte strings ([string]).
    - The file system and the OAI transport are explicit state: the cache
      directory [h.Dir()] is a finite map from base names to files, the
      server is a script of replies consumed one per request. *)

From Stdlib Require Import ZArith List Bool Ascii String Lia.
From stdpp Require Import gmap strings sorting.

Local Open Scope string_scope.
Local Open Scope Z_scope.

(** ** Errors *)

(** The errno values the code can observe through [*os.PathError]. *)
Inductive Errno := ENOENT | EACCES | EIO | ENOSPC | ENOTDIR | EEXIST.

(** The dynamic error values of the package.  [ErrAlreadySynced] and
    [ErrInvalidEarliestDate] are the two package-level sentinels;
    [MultiError] is the aggregate [&MultiError{[]error{...}}], whose
    slice may hold nil entries. *)
#[warnings="-register-all"]
Inductive error :=
| ErrAlreadySynced
| ErrInvalidEarliestDate
| ParseError (layout value : string)
| PathError (op path : string) (errno : Errno)
| TransportError (msg : string)
| OAIError (code message : string)
| MarshalError (msg : string)
| Errorf (msg : string)
| MultiError (errs : list (option error)).

Inductive result (A : Type) :=
| Ok (a : A)
| Err (e : error).
Arguments Ok {A} a.
Arguments Err {A} e.

(** ** Byte strings *)

Definition isDigit (c : ascii) : bool :=
  (("0" <=? c) && (c <=? "9"))%char.

Definition digitVal (c : ascii) : Z :=
  Z.of_N (N_of_ascii c) - 48.

Definition digitChar (d : Z) : ascii :=
  ascii_of_N (Z.to_N (48 + d mod 10)).

(** Decimal digits of a non-negative number, most significant first;
    [fuel] bounds the number of digits. *)
Fixpoint digitsOf (fuel : nat) (n : Z) (acc : string) : string :=
  match fuel with
  | O => acc
  | S fuel' =>
      let acc' := String (digitChar n) acc in
      if n <? 10 then acc' else digitsOf fuel' (n / 10) acc'
  end.

Fixpoint zeros (n : nat) : string :=
  match n with
  | O => ""
  | S n' => String "0" (zeros n')
  end.

(** [appendInt] of package time: the decimal representation, zero-padded
    to [width] digits, with a leading minus sign for negative numbers.
    For the page counter, which is never negative, it is also [%08d] of
    package fmt. *)
Definition appendInt (x : Z) (width : nat) : string :=
  let ds := digitsOf 20 (Z.abs x) "" in
  let body := zeros (width - String.length ds) ++ ds in
  if x <? 0 then String "-" body else body.

(** [%d] of package fmt. *)
Definition itoa (x : Z) : string := appendInt x 0.

(** [s[:n]] for [n <= len(s)]. *)
Definition slice_to (n : nat) (s : string) : string := substring 0 n s.

(** ** Calendar time

    A [time.Time] is modelled by its wall-clock reading in its own
    location; the code only ever formats times, shifts them by whole
    days and takes the end of their day.  Shifting is done on the
    calendar, as for the times in UTC that [time.Parse] returns; a
    location whose clock skips the shifted reading is not modelled. *)

Module time.

Record Time := mkTime {
  year : Z; month : Z; day : Z;
  hour : Z; minute : Z; second : Z; nsec : Z
}.

Definition isLeap (y : Z) : bool :=
  (y mod 4 =? 0) && (negb (y mod 100 =? 0) || (y mod 400 =? 0)).

Definition daysIn (m y : Z) : Z :=
  if m =? 2 then (if isLeap y then 29 else 28)
  else if (m =? 4) || (m =? 6) || (m =? 9) || (m =? 11) then 30
  else 31.

(** The calendar day after / before [(y, m, d)]. *)
Definition next_day (ymd : Z * Z * Z) : Z * Z * Z :=
  let '(y, m, d) := ymd in
  if d <? daysIn m y then (y, m, d + 1)
  else if m <? 12 then (y, m + 1, 1)
  else (y + 1, 1, 1).

Definition prev_day (ymd : Z * Z * Z) : Z * Z * Z :=
  let '(y, m, d) := ymd in
  if 1 <? d then (y, m, d - 1)
  else if 1 <? m then (y, m - 1, daysIn (m - 1) y)
  else (y - 1, 12, 31).

Definition shift_days (n : Z) (ymd : Z * Z * Z) : Z * Z * Z :=
  match n with
  | Z0 => ymd
  | Zpos p => Pos.iter next_day ymd p
  | Zneg p => Pos.iter prev_day ymd p
  end.

(** [t.AddDate(years, months, days)]: the date is rebuilt with
    [time.Date], which normalises a month outside 1..12 into the year
    and a day outside the month into the following (preceding) days. *)
Definition AddDate (years months days : Z) (t : Time) : Time :=
  let m0 := month t - 1 + months in
  let y1 := year t + years + m0 / 12 in
  let m1 := m0 mod 12 + 1 in
  let '(y, m, d) := shift_days (day t - 1 + days) (y1, m1, 1) in
  mkTime y m d (hour t) (minute t) (second t) (nsec t).

(** The reference chunks of a layout.  The layouts that occur in the
    package are ["2006-01-02"], ["2006-01-02T15:04:05Z"] and the empty
    layout; on these [nextStdChunk] finds the six numeric chunks below and
    every other byte is a literal. *)
Inductive chunk :=
| stdLongYear
| stdZeroMonth
| stdZeroDay
| stdHour
| stdZeroMinute
| stdZeroSecond
| literal (c : ascii).

Fixpoint chunks (layout : string) : list chunk :=
  match layout with
  | String "2" (String "0" (String "0" (String "6" rest))) =>
      stdLongYear :: chunks rest
  | String "0" (String "1" rest) => stdZeroMonth :: chunks rest
  | String "0" (String "2" rest) => stdZeroDay :: chunks rest
  | String "1" (String "5" rest) => stdHour :: chunks rest
  | String "0" (String "4" rest) => stdZeroMinute :: chunks rest
  | String "0" (String "5" rest) => stdZeroSecond :: chunks rest
  | String c rest => literal c :: chunks rest
  | EmptyString => []
  end.

Fixpoint format_chunks (cs : list chunk) (t : Time) : string :=
  match cs with
  | [] => ""
  | stdLongYear :: rest => appendInt (year t) 4 ++ format_chunks rest t
  | stdZeroMonth :: rest => appendInt (month t) 2 ++ format_chunks rest t
  | stdZeroDay :: rest => appendInt (day t) 2 ++ format_chunks rest t
  | stdHour :: rest => appendInt (hour t) 2 ++ format_chunks rest t
  | stdZeroMinute :: rest => appendInt (minute t) 2 ++ format_chunks rest t
  | stdZeroSecond :: rest => appendInt (second t) 2 ++ format_chunks rest t
  | literal c :: rest => String c (format_chunks rest t)
  end.

(** [t.Format(layout)]. *)
Definition Format (layout : string) (t : Time) : string :=
  format_chunks (chunks layout) t.

(** *** Parsing

    [time.Parse(layout, value)] on the same layouts.  The parsed fields
    accumulate in [fields]; a reference chunk consumes its digits from
    [value], a literal byte must be matched as it is. *)

Record fields := mkFields {
  f_year : Z; f_month : Z; f_day : Z;
  f_hour : Z; f_min : Z; f_sec : Z; f_nsec : Z
}.

(** [getnum(s, fixed)]: one or two leading digits; exactly two when [fixed]. *)
Definition getnum (s : string) (fixed : bool) : option (Z * string) :=
  match s with
  | String c0 rest =>
      if isDigit c0 then
        match rest with
        | String c1 rest' =>
            if isDigit c1 then Some (digitVal c0 * 10 + digitVal c1, rest')
            else if fixed then None else Some (digitVal c0, rest)
        | EmptyString => if fixed then None else Some (digitVal c0, rest)
        end
      else None
  | EmptyString => None
  end.

(** The four-digit year of chunk ["2006"]. *)
Definition getyear (s : string) : option (Z * string) :=
  match s with
  | String c0 (String c1 (String c2 (String c3 rest))) =>
      if isDigit c0 && isDigit c1 && isDigit c2 && isDigit c3
      then Some (((digitVal c0 * 10 + digitVal c1) * 10 + digitVal c2) * 10
                 + digitVal c3, rest)
      else None
  | _ => None
  end.

(** The leading run of digits of [s] and what follows it. *)
Fixpoint span_digits (s : string) : string * string :=
  match s with
  | String c rest =>
      if isDigit c then
        let '(ds, tl) := span_digits rest in (String c ds, tl)
      else ("", s)
  | EmptyString => ("", "")
  end.

Fixpoint atoi_digits (s : string) (acc : Z) : Z :=
  match s with
  | String c rest => atoi_digits rest (acc * 10 + digitVal c)
  | EmptyString => acc
  end.

(** A fractional second in the value that the layout does not mention:
    [parseNanoseconds] reads at most nine digits after the separator and
    scales them to nanoseconds. *)
Definition fractional (s : string) : option (Z * string) :=
  match s with
  | String sep (String c1 rest) =>
      if ((sep =? ".")%char || (sep =? ",")%char) && isDigit c1 then
        let '(ds, tl) := span_digits (String c1 rest) in
        let used := substring 0 9 ds in
        Some (atoi_digits used 0 * 10 ^ Z.of_nat (9 - String.length used), tl)
      else None
  | _ => None
  end.

Definition inRange (lo hi x : Z) : bool := (lo <=? x) && (x <=? hi).

Definition set_year (y : Z) (f : fields) : fields :=
  mkFields y (f_month f) (f_day f) (f_hour f) (f_min f) (f_sec f) (f_nsec f).
Definition set_month (m : Z) (f : fields) : fields :=
  mkFields (f_year f) m (f_day f) (f_hour f) (f_min f) (f_sec f) (f_nsec f).
Definition set_day (d : Z) (f : fields) : fields :=
  mkFields (f_year f) (f_month f) d (f_hour f) (f_min f) (f_sec f) (f_nsec f).
Definition set_hour (hh : Z) (f : fields) : fields :=
  mkFields (f_year f) (f_month f) (f_day f) hh (f_min f) (f_sec f) (f_nsec f).
Definition set_min (mi : Z) (f : fields) : fields :=
  mkFields (f_year f) (f_month f) (f_day f) (f_hour f) mi (f_sec f) (f_nsec f).
Definition set_sec (ss ns : Z) (f : fields) : fields :=
  mkFields (f_year f) (f_month f) (f_day f) (f_hour f) (f_min f) ss ns.

Fixpoint parse_chunks (cs : list chunk) (value : string) (f : fields)
  : option fields :=
  match cs with
  | [] =>
      match value with
      | EmptyString => Some f
      | String _ _ => None
      end
  | stdLongYear :: rest =>
      match getyear value with
      | Some (y, value') => parse_chunks rest value' (set_year y f)
      | None => None
      end
  | stdZeroMonth :: rest =>
      match getnum value true with
      | Some (m, value') =>
          if inRange 1 12 m then parse_chunks rest value' (set_month m f)
          else None
      | None => None
      end
  | stdZeroDay :: rest =>
      match getnum value true with
      | Some (d, value') => parse_chunks rest value' (set_day d f)
      | None => None
      end
  | stdHour :: rest =>
      match getnum value false with
      | Some (hh, value') =>
          if inRange 0 23 hh then parse_chunks rest value' (set_hour hh f)
          else None
      | None => None
      end
  | stdZeroMinute :: rest =>
      match getnum value true with
      | Some (mi, value') =>
          if inRange 0 59 mi then parse_chunks rest value' (set_min mi f)
          else None
      | None => None
      end
  | stdZeroSecond :: rest =>
      match getnum value true with
      | Some (ss, value') =>
          if inRange 0 59 ss then
            match fractional value' with
            | Some (ns, value'') => parse_chunks rest value'' (set_sec ss ns f)
            | None => parse_chunks rest value' (set_sec ss (f_nsec f) f)
            end
          else None
      | None => None
      end
  | literal c :: rest =>
      match value with
      | String v value' =>
          if (c =? v)%char then parse_chunks rest value' f else None
      | EmptyString => None
      end
  end.

(** [time.Parse]: omitted fields default to year 0, January 1st,
    midnight; the day is validated against the month once all chunks
    are read; the result is in UTC. *)
Definition Parse (layout value : string) : result Time :=
  match parse_chunks (chunks layout) value (mkFields 0 1 1 0 0 0 0) with
  | Some f =>
      if inRange 1 (daysIn (f_month f) (f_year f)) (f_day f)
      then Ok (mkTime (f_year f) (f_month f) (f_day f)
                      (f_hour f) (f_min f) (f_sec f) (f_nsec f))
      else Err (ParseError layout value)
  | None => Err (ParseError layout value)
  end.

End time.

(** [now.New(t).EndOfDay()] of github.com/jinzhu/now: 23:59:59.999999999
    of the same day. *)
Module now.

Definition EndOfDay (t : time.Time) : time.Time :=
  time.mkTime (time.year t) (time.month t) (time.day t) 23 59 59 999999999.

End now.

(** ** Regular expressions

    [fnPattern] is matched by derivatives.  The classes are predicates on
    bytes. *)

Inductive regex :=
| Void
| Eps
| Cls (p : ascii -> bool)
| Cat (r1 r2 : regex)
| Alt (r1 r2 : regex)
| Star (r : regex).

Fixpoint nullable (r : regex) : bool :=
  match r with
  | Void => false
  | Eps => true
  | Cls _ => false
  | Cat r1 r2 => nullable r1 && nullable r2
  | Alt r1 r2 => nullable r1 || nullable r2
  | Star _ => true
  end.

Fixpoint deriv (c : ascii) (r : regex) : regex :=
  match r with
  | Void => Void
  | Eps => Void
  | Cls p => if p c then Eps else Void
  | Cat r1 r2 =>
      if nullable r1 then Alt (Cat (deriv c r1) r2) (deriv c r2)
      else Cat (deriv c r1) r2
  | Alt r1 r2 => Alt (deriv c r1) (deriv c r2)
  | Star r1 => Cat (deriv c r1) (Star r1)
  end.

(** [re_match r s]: the whole of [s] is in the language of [r]. *)
Fixpoint re_match (r : regex) (s : string) : bool :=
  match s with
  | EmptyString => nullable r
  | String c s' => re_match (deriv c r) s'
  end.

Definition lit (c : ascii) : regex := Cls (fun x => (x =? c)%char).
Definition digit : regex := Cls isDigit.
(** [.] without the [s] flag: any character but a newline, which is one
    byte in a name of ASCII bytes ([ascii_byte]). *)
Definition anychar : regex := Cls (fun x => negb (x =? "010")%char).

Fixpoint rep (n : nat) (r : regex) : regex :=
  match n with
  | O => Eps
  | S n' => Cat r (rep n' r)
  end.

(** The group [(?P<Date>[0-9]{4,4}-[0-9]{2,2}-[0-9]{2,2})]. *)
Definition fnDate : regex :=
  Cat (rep 4 digit) (Cat (lit "-") (Cat (rep 2 digit) (Cat (lit "-") (rep 2 digit)))).

(** What follows the group: [-[0-9]{8,}.xml(.gz)?$]. *)
Definition fnRest : regex :=
  Cat (lit "-") (Cat (rep 8 digit) (Cat (Star digit)
    (Cat anychar (Cat (lit "x") (Cat (lit "m") (Cat (lit "l")
      (Alt Eps (Cat anychar (Cat (lit "g") (lit "z")))))))))).

(** [fnPattern.FindStringSubmatch(name)[1]]: the pattern is not anchored
    on the left and ends in [$], so the leftmost match is the longest
    suffix of [name] that matches as a whole; the group is its first ten
    bytes.  [None] is the empty slice of a failed search. *)
Fixpoint fnPattern_Date (name : string) : option string :=
  if re_match (Cat fnDate fnRest) name then Some (substring 0 10 name)
  else match name with
       | String _ name' => fnPattern_Date name'
       | EmptyString => None
       end.

(** ** The cache directory

    The entries of [h.Dir()], by base name.  A file is its payload and
    whether it is gzip-compressed on disk. *)

Record File := mkFile { body : string; gzipped : bool }.

(** Byte-wise order of names, as [sort.Strings] has it. *)
Definition string_le (s1 s2 : string) : Prop := (s1 <=? s2)%string = true.

#[global] Instance string_le_dec (s1 s2 : string) : Decision (string_le s1 s2).
Proof. unfold string_le. apply _. Defined.

(** [filepath.Match(pattern, name)] for patterns made of [*], [?] and
    literal bytes. *)
Fixpoint glob_match (pat name : string) : bool :=
  match pat with
  | EmptyString =>
      match name with EmptyString => true | String _ _ => false end
  | String "*" pat' =>
      (fix star (n : string) : bool :=
         glob_match pat' n ||
         match n with
         | String c n' => negb (c =? "/")%char && star n'
         | EmptyString => false
         end) name
  | String "?" pat' =>
      match name with
      | String c n' => negb (c =? "/")%char && glob_match pat' n'
      | EmptyString => false
      end
  | String p pat' =>
      match name with
      | String c n' => (p =? c)%char && glob_match pat' n'
      | EmptyString => false
      end
  end.

(** The names of a directory in the order [filepath.Glob] and
    [ioutil.ReadDir] report them. *)
Definition ReadDir (dir : gmap string File) : list string :=
  merge_sort string_le (elements (dom dir)).

(** [MustGlob(filepath.Join(h.Dir(), pattern))], as base names: the
    entries of [h.Dir()] whose name matches [pattern], for a path of the
    directory that [filepath.Glob] takes literally ([literal_dir]). *)
Definition MustGlob (pattern : string) (dir : gmap string File) : list string :=
  List.filter (glob_match pattern) (ReadDir dir).

(** What the operating system may refuse: each operation consults its
    oracle for the name it works on. *)
Record Faults := mkFaults {
  move_fault : string -> option error;
  remove_fault : string -> option error;
  write_fault : string -> option error
}.

Definition no_faults : Faults :=
  mkFaults (fun _ => None) (fun _ => None) (fun _ => None).

(** [os.Remove(name)]. *)
Definition os_Remove (ft : Faults) (name : string) (dir : gmap string File)
  : option error * gmap string File :=
  match remove_fault ft name with
  | Some e => (Some e, dir)
  | None =>
      match dir !! name with
      | Some _ => (None, delete name dir)
      | None => (Some (PathError "remove" name ENOENT), dir)
      end
  end.

(** [ioutil.WriteFile(name, data, 0644)]. *)
Definition WriteFile (ft : Faults) (name data : string) (dir : gmap string File)
  : option error * gmap string File :=
  match write_fault ft name with
  | Some e => (Some e, dir)
  | None => (None, <[name := mkFile data false]> dir)
  end.

(** Modelled from the spec: [MoveAndCompress(src, dst)] is not in
    harvest.go.  Promotion renames the temporary file to its permanent
    name and leaves it gzip-compressed on disk. *)
Definition MoveAndCompress (ft : Faults) (src dst : string) (dir : gmap string File)
  : option error * gmap string File :=
  match move_fault ft src with
  | Some e => (Some e, dir)
  | None =>
      match dir !! src with
      | Some f => (None, <[dst := mkFile (body f) true]> (delete src dir))
      | None => (Some (PathError "open" src ENOENT), dir)
      end
  end.

(** ** Strings of the standard library *)

(** [strings.HasPrefix(s, p)]. *)
Fixpoint HasPrefix (s p : string) : bool :=
  match p with
  | EmptyString => true
  | String c p' =>
      match s with
      | String d s' => (c =? d)%char && HasPrefix s' p'
      | EmptyString => false
      end
  end.

(** [strings.Replace(s, old, "", -1)] for a non-empty [old]: every
    non-overlapping occurrence, from the left, is dropped.  [skip] counts
    the bytes of the occurrence being dropped. *)
Fixpoint remove_all (old : string) (skip : nat) (s : string) : string :=
  match s with
  | EmptyString => ""
  | String c s' =>
      match skip with
      | S k => remove_all old k s'
      | O =>
          if HasPrefix s old then remove_all old (String.length old - 1) s'
          else String c (remove_all old 0 s')
      end
  end.

Definition strings_Replace (s old : string) : string := remove_all old 0 s.

(** [base64.RawURLEncoding.EncodeToString]. *)
Definition b64alphabet : string :=
  "ABCDEFGHIJKLMNOPQRSTUVWXYZabcdefghijklmnopqrstuvwxyz0123456789-_".

Definition b64char (v : N) : ascii :=
  match String.get (N.to_nat (N.land v 63)) b64alphabet with
  | Some c => c
  | None => "A"%char
  end.

Fixpoint EncodeToString (s : string) : string :=
  match s with
  | String a (String b (String c rest)) =>
      let v := N.lor (N.shiftl (N_of_ascii a) 16)
                 (N.lor (N.shiftl (N_of_ascii b) 8) (N_of_ascii c)) in
      String (b64char (N.shiftr v 18)) (String (b64char (N.shiftr v 12))
        (String (b64char (N.shiftr v 6)) (String (b64char v) (EncodeToString rest))))
  | String a (String b EmptyString) =>
      let v := N.lor (N.shiftl (N_of_ascii a) 16) (N.shiftl (N_of_ascii b) 8) in
      String (b64char (N.shiftr v 18)) (String (b64char (N.shiftr v 12))
        (String (b64char (N.shiftr v 6)) ""))
  | String a EmptyString =>
      let v := N.shiftl (N_of_ascii a) 16 in
      String (b64char (N.shiftr v 18)) (String (b64char (N.shiftr v 12)) "")
  | EmptyString => ""
  end.

(** ** The harvest *)

(** The two fields of the Identify response that the engine reads. *)
Record Identify := mkIdentify {
  Granularity : string;
  EarliestDatestamp : string
}.

Record Harvest := mkHarvest {
  BaseURL : string;
  Format : string;
  Set_ : string;
  From : string;
  Until : string;
  MaxRequests : Z;
  DisableSelectiveHarvesting : bool;
  CleanBeforeDecode : bool;
  IgnoreHTTPErrors : bool;
  MaxEmptyResponses : Z;
  SuppressFormatParameter : bool;
  DailyInterval : bool;
  HIdentify : Identify;
  Started : time.Time
}.

(** Modelled from the spec: [Interval] is declared outside harvest.go;
    an inclusive pair of times. *)
Record Interval := mkInterval { Begin : time.Time; End : time.Time }.

(** The zero [Interval{}]. *)
Definition zeroTime : time.Time := time.mkTime 1 1 1 0 0 0 0.
Definition zeroInterval : Interval := mkInterval zeroTime zeroTime.

(** What the process is given: the package variable [BaseDir] and the
    behaviour of the operating system. *)
Record Env := mkEnv {
  BaseDir : string;
  faults : Faults;
  (** the successive values of [rand.Intn(999999999)] *)
  rand_Intn : nat -> Z
}.

(** [h.Dir()], for a [BaseDir] that [filepath.Join] has nothing to clean
    in ([clean_BaseDir]). *)
Definition Dir (env : Env) (h : Harvest) : string :=
  BaseDir env ++ "/" ++ EncodeToString (Set_ h ++ "#" ++ Format h ++ "#" ++ BaseURL h).

(** [h.Files()]. *)
Definition Files (dir : gmap string File) : list string :=
  MustGlob "*.xml.gz" dir.

(** [h.DateLayout()]. *)
Definition DateLayout (h : Harvest) : string :=
  if (Granularity (HIdentify h) =? "YYYY-MM-DD")%string then "2006-01-02"
  else if (Granularity (HIdentify h) =? "YYYY-MM-DDThh:mm:ssZ")%string
       then "2006-01-02T15:04:05Z"
  else "".

(** [h.temporaryFiles()] and [h.temporaryFilesSuffix(suffix)]. *)
Definition temporaryFiles (dir : gmap string File) : list string :=
  MustGlob "*.xml-tmp*" dir.

Definition temporaryFilesSuffix (suffix : string) (dir : gmap string File)
  : list string :=
  MustGlob ("*.xml" ++ suffix) dir.

(** The type assertion of [err] to a path error whose [Err] is
    [syscall.ENOENT]. *)
Definition isENOENT (err : error) : bool :=
  match err with
  | PathError _ _ ENOENT => true
  | _ => false
  end.

(** The loop of [h.cleanupTemporaryFiles()] over the globbed names. *)
Fixpoint cleanup_loop (ft : Faults) (files : list string) (dir : gmap string File)
  : option error * gmap string File :=
  match files with
  | [] => (None, dir)
  | filename :: rest =>
      match os_Remove ft filename dir with
      | (Some err, dir') =>
          if isENOENT err then cleanup_loop ft rest dir' else (Some err, dir')
      | (None, dir') => cleanup_loop ft rest dir'
      end
  end.

Definition cleanupTemporaryFiles (env : Env) (dir : gmap string File)
  : option error * gmap string File :=
  cleanup_loop (faults env) (temporaryFiles dir) dir.

(** *** finalize *)

(** The inner loop of [finalize] that runs once a promotion has failed
    with [err].  Its test [if e := os.Remove(fn); err != nil] reads the
    promotion error [err], which is not nil here, so the body runs for the
    first name whatever [os.Remove] returned. *)
Fixpoint rollback (env : Env) (h : Harvest) (err : error) (renamed : list string)
    (dir : gmap string File) : option error * gmap string File :=
  match renamed with
  | [] => (Some err, dir)
  | fn :: rest =>
      let '(e, dir') := os_Remove (faults env) fn dir in
      if isENOENT err then rollback env h err rest dir'
      else (Some (MultiError [Some err; e;
              Some (Errorf ("inconsistent cache state; start over and purge "
                            ++ Dir env h))]), dir')
  end.

(** The outer loop of [finalize] over the names globbed before it
    starts.  The names are base names; the code replaces [suffix] in the
    full path, which is the same when [suffix] does not occur in the path
    of the directory ([suffix_free_dir]). *)
Fixpoint promote (env : Env) (h : Harvest) (suffix : string) (files : list string)
    (renamed : list string) (dir : gmap string File)
  : option error * gmap string File :=
  match files with
  | [] => (None, dir)
  | filename :: rest =>
      let dst := strings_Replace filename suffix ++ ".gz" in
      match MoveAndCompress (faults env) filename dst dir with
      | (Some err, dir') => rollback env h err renamed dir'
      | (None, dir') => promote env h suffix rest (renamed ++ [dst]) dir'
      end
  end.

(** [h.finalize(suffix)]. *)
Definition finalize (env : Env) (h : Harvest) (suffix : string)
    (dir : gmap string File) : option error * gmap string File :=
  promote env h suffix (temporaryFilesSuffix suffix dir) [] dir.

(** *** The interval planner *)

(** [h.earliestDate()]. *)
Definition earliestDate (h : Harvest) : result time.Time :=
  let ed := EarliestDatestamp (HIdentify h) in
  if (Granularity (HIdentify h) =? "YYYY-MM-DD")%string then
    if (String.length ed <=? 10)%nat then time.Parse "2006-01-02" ed
    else time.Parse "2006-01-02" (slice_to 10 ed)
  else if (Granularity (HIdentify h) =? "YYYY-MM-DDThh:mm:ssZ")%string then
    if (10 <=? String.length ed)%nat && (String.length ed <? 20)%nat
    then time.Parse "2006-01-02" (slice_to 10 ed)
    else time.Parse "2006-01-02T15:04:05Z" ed
  else Err ErrInvalidEarliestDate.

Record DirLaster := mkDirLaster {
  DefaultValue : string;
  ExtractorFunc : string -> string
}.

Definition max_string (a b : string) : string :=
  if (a <=? b)%string then b else a.

(** Modelled from the spec: [DirLaster.Last] is not in harvest.go.  It
    scans the cache directory, keeps the non-empty values the extractor
    yields and returns their lexicographic maximum, or the default value
    when there is none. *)
Definition Last (l : DirLaster) (dir : gmap string File) : result string :=
  let values :=
    List.filter (fun v => negb (v =? "")%string)
                (List.map (ExtractorFunc l) (ReadDir dir)) in
  match values with
  | [] => Ok (DefaultValue l)
  | v :: vs => Ok (fold_left max_string vs v)
  end.

(** The [ExtractorFunc] closure of [defaultInterval]. *)
Definition extractDate (name : string) : string :=
  match fnPattern_Date name with
  | Some d => d
  | None => ""
  end.

(** [h.defaultInterval()]. *)
Definition defaultInterval (h : Harvest) (dir : gmap string File)
  : result Interval :=
  match (if (From h =? "")%string then earliestDate h
         else time.Parse "2006-01-02" (From h)) with
  | Err err => Err err
  | Ok earliest =>
      let laster := mkDirLaster (time.Format "2006-01-02" earliest) extractDate in
      match Last laster dir with
      | Err err => Err err
      | Ok last =>
          match time.Parse "2006-01-02" last with
          | Err err => Err err
          | Ok begin =>
              let begin :=
                if negb (last =? DefaultValue laster)%string
                then time.AddDate 0 0 1 begin else begin in
              let end_ := now.EndOfDay (time.AddDate 0 0 (-1) (Started h)) in
              if (last =? time.Format "2006-01-02" end_)%string
              then Err ErrAlreadySynced
              else Ok (mkInterval begin end_)
          end
      end
  end.

(** *** The pagination driver *)

(** Modelled from the spec: [Request] is declared outside harvest.go; the
    fields are those [runInterval] sets. *)
Record Request := mkRequest {
  req_BaseURL : string;
  req_MetadataPrefix : string;
  req_Verb : string;
  req_Set : string;
  req_ResumptionToken : string;
  req_CleanBeforeDecode : bool;
  req_SuppressFormatParameter : bool;
  req_From : string;
  req_Until : string
}.

(** Modelled from the spec: [Response] is declared outside harvest.go.
    The driver looks at the protocol error, the records and the
    resumption token of the ListRecords element, and at what
    [xml.Marshal] makes of the whole. *)
Record Response := mkResponse {
  ErrorCode : string;
  ErrorMessage : string;
  Records : list string;
  ResumptionToken : string;
  Marshal : result string
}.

(** Modelled from the spec: [HasResumptionToken] and [GetResumptionToken]
    are not in harvest.go.  The response carries one resumption token,
    absent when empty. *)
Definition HasResumptionToken (resp : Response) : bool :=
  negb (ResumptionToken resp =? "")%string.

Definition GetResumptionToken (resp : Response) : string :=
  ResumptionToken resp.

(** What is observable of a run besides its result. *)
Record World := mkWorld {
  dir : gmap string File;
  sent : list Request;
  slept : Z;
  draws : nat
}.

Definition set_dir (d : gmap string File) (w : World) : World :=
  mkWorld d (sent w) (slept w) (draws w).

(** How the [for] loop of [runInterval] is left; [Exhausted] stands for a
    loop that waits for a reply the script of the server does not hold. *)
Inductive Exit :=
| Break
| Return (err : error)
| Exhausted.

(** How the [switch] on [resp.Error.Code] is left.  In Go a [break]
    inside a [switch] leaves the switch, not the enclosing loop. *)
Inductive Switch :=
| LeaveSwitch
| Continue
| ReturnError (err : error).

Definition error_switch (resp : Response) : Switch :=
  if negb (ErrorCode resp =? "")%string then
    if (ErrorCode resp =? "noRecordsMatch")%string then
      if negb (HasResumptionToken resp)
      then LeaveSwitch (* break *)
      else LeaveSwitch (* log.Printf, end of the case *)
    else if (ErrorCode resp =? "InternalException")%string
    then Continue (* time.Sleep; i++; continue *)
    else ReturnError (OAIError (ErrorCode resp) (ErrorMessage resp))
  else LeaveSwitch.

(** The request of one iteration and the date its file is stamped with. *)
Definition build_request (h : Harvest) (iv : Interval) (token : string)
  : Request * string :=
  let req := mkRequest (BaseURL h) (Format h) "ListRecords" (Set_ h) token
               (CleanBeforeDecode h) (SuppressFormatParameter h) "" "" in
  if DisableSelectiveHarvesting h then
    (req, time.Format "2006-01-02" (Started h))
  else
    (mkRequest (req_BaseURL req) (req_MetadataPrefix req) (req_Verb req)
       (req_Set req) (req_ResumptionToken req) (req_CleanBeforeDecode req)
       (req_SuppressFormatParameter req)
       (time.Format (DateLayout h) (Begin iv))
       (time.Format (DateLayout h) (End iv)),
     time.Format "2006-01-02" (End iv)).

(** The [for] loop of [runInterval].  [Do] takes the next reply of the
    server from [script]. *)
Fixpoint pages (env : Env) (h : Harvest) (iv : Interval) (suffix : string)
    (script : list (result Response)) (token : string) (i empty : Z) (w : World)
  : Exit * list (result Response) * World :=
  if MaxRequests h =? i then (Break, script, w)
  else
    let '(req, filedate) := build_request h iv token in
    match script with
    | [] => (Exhausted, [], w)
    | reply :: script' =>
        let w := mkWorld (dir w) (sent w ++ [req]) (slept w) (draws w) in
        match reply with
        | Err err =>
            if IgnoreHTTPErrors h then (Break, script', w)
            else (Return err, script', w)
        | Ok resp =>
            match error_switch resp with
            | ReturnError err => (Return err, script', w)
            | Continue =>
                let w := mkWorld (dir w) (sent w) (slept w + 30) (draws w) in
                pages env h iv suffix script' token (i + 1) empty w
            | LeaveSwitch =>
                let filename := filedate ++ "-" ++ appendInt i 8 ++ ".xml" ++ suffix in
                match Marshal resp with
                | Err err => (Return err, script', w)
                | Ok b =>
                    match WriteFile (faults env) filename b (dir w) with
                    | (Some e, d) => (Return e, script', set_dir d w)
                    | (None, d) =>
                        let w := set_dir d w in
                        let token := GetResumptionToken resp in
                        if (token =? "")%string then (Break, script', w)
                        else
                          let i := i + 1 in
                          let empty :=
                            if 0 <? Z.of_nat (List.length (Records resp))
                            then 0 else empty + 1 in
                          if empty =? MaxEmptyResponses h
                          then (Break, script', w)
                          else pages env h iv suffix script' token i empty w
                    end
                end
            end
        end
    end.

(** [h.runInterval(iv)]. *)
Definition runInterval (env : Env) (h : Harvest) (iv : Interval)
    (script : list (result Response)) (w : World)
  : option (option error * list (result Response) * World) :=
  let suffix := "-tmp-" ++ itoa (rand_Intn env (draws w)) in
  let w := mkWorld (dir w) (sent w) (slept w) (S (draws w)) in
  match pages env h iv suffix script "" 0 0 w with
  | (Exhausted, _, _) => None
  | (Return err, script', w') => Some (Some err, script', w')
  | (Break, script', w') =>
      let '(err, d) := finalize env h suffix (dir w') in
      Some (err, script', set_dir d w')
  end.

(** *** run *)

(** The deferred function of [run]: [err] is the named result as the
    body left it, [e] the result of [cleanupTemporaryFiles]. *)
Definition run_deferred (err e : option error) : option error :=
  match e with
  | Some e' =>
      let err :=
        match err with
        | Some err' => Some (MultiError [Some err'; Some e'])
        | None => err
        end in
      let err := Some e' in
      err
  | None => err
  end.

Section Run.

(** Modelled as parameters: the interval splitters are methods of
    [Interval], which is declared outside harvest.go. *)
Variables DailyIntervals MonthlyIntervals : Interval -> list Interval.

Fixpoint run_intervals (env : Env) (h : Harvest) (ivs : list Interval)
    (script : list (result Response)) (w : World)
  : option (option error * list (result Response) * World) :=
  match ivs with
  | [] => Some (None, script, w)
  | iv :: rest =>
      match runInterval env h iv script w with
      | None => None
      | Some (Some err, script', w') => Some (Some err, script', w')
      | Some (None, script', w') => run_intervals env h rest script' w'
      end
  end.

(** The body of [run], up to its [return]. *)
Definition run_body (env : Env) (h : Harvest)
    (script : list (result Response)) (w : World)
  : option (option error * list (result Response) * World) :=
  if DisableSelectiveHarvesting h then runInterval env h zeroInterval script w
  else
    match defaultInterval h (dir w) with
    | Err err => Some (Some err, script, w)
    | Ok interval =>
        if DailyInterval h
        then run_intervals env h (DailyIntervals interval) script w
        else run_intervals env h (MonthlyIntervals interval) script w
    end.

(** [h.run()]: the body, then the deferred cleanup. *)
Definition run (env : Env) (h : Harvest)
    (script : list (result Response)) (w : World)
  : option (option error * list (result Response) * World) :=
  match run_body env h script w with
  | None => None
  | Some (err, script', w') =>
      let '(e, d) := cleanupTemporaryFiles env (dir w') in
      Some (run_deferred err e, script', set_dir d w')
  end.

End Run.

(** ** Creating the cache directory

    The directory tree above [h.Dir()].  A path is the list of its
    components, innermost first, so that the parent of [c :: p] is [p]
    and the root is [[]]. *)

Record Node := mkNode { isDir : bool; perm : Z }.

Record FSys := mkFSys {
  tree : gmap (list string) Node;
  umask : Z;
  mkdir_fault : list string -> option error
}.

Definition set_tree (t : gmap (list string) Node) (fs : FSys) : FSys :=
  mkFSys t (umask fs) (mkdir_fault fs).

Fixpoint path_string (path : list string) : string :=
  match path with
  | [] => ""
  | c :: parent => path_string parent ++ "/" ++ c
  end.

(** The components of a slash-separated path, innermost first; [cur] is
    the component being read. *)
Fixpoint components (s : string) (cur : string) (acc : list string) : list string :=
  match s with
  | EmptyString => if (cur =? "")%string then acc else cur :: acc
  | String c s' =>
      if (c =? "/")%char
      then components s' "" (if (cur =? "")%string then acc else cur :: acc)
      else components s' (cur ++ String c "") acc
  end.

(** [h.Dir()] as a path. *)
Definition DirPath (env : Env) (h : Harvest) : list string :=
  components (Dir env h) "" [].

(** [os.Stat(path)]: a missing entry is [ENOENT] below a directory and
    [ENOTDIR] below anything else. *)
Fixpoint os_Stat (t : gmap (list string) Node) (path : list string) : result Node :=
  match t !! path with
  | Some n => Ok n
  | None =>
      match path with
      | [] => Err (PathError "stat" "/" ENOENT)
      | _ :: parent =>
          match os_Stat t parent with
          | Ok n =>
              if isDir n then Err (PathError "stat" (path_string path) ENOENT)
              else Err (PathError "stat" (path_string path) ENOTDIR)
          | Err (PathError _ _ errno) =>
              Err (PathError "stat" (path_string path) errno)
          | Err e => Err e
          end
      end
  end.

(** [os.IsNotExist(err)]. *)
Definition os_IsNotExist (err : error) : bool := isENOENT err.

(** [os.Mkdir(path, perm)]: the new directory gets [perm] without the
    bits of the process umask. *)
Definition os_Mkdir (fs : FSys) (path : list string) (pm : Z)
  : option error * FSys :=
  match mkdir_fault fs path with
  | Some e => (Some e, fs)
  | None =>
      match tree fs !! path with
      | Some _ => (Some (PathError "mkdir" (path_string path) EEXIST), fs)
      | None =>
          match path with
          | [] => (Some (PathError "mkdir" "/" ENOENT), fs)
          | _ :: parent =>
              match tree fs !! parent with
              | Some n =>
                  if isDir n
                  then (None, set_tree (<[path := mkNode true (Z.ldiff pm (umask fs))]> (tree fs)) fs)
                  else (Some (PathError "mkdir" (path_string path) ENOTDIR), fs)
              | None => (Some (PathError "mkdir" (path_string path) ENOENT), fs)
              end
          end
      end
  end.

(** [os.MkdirAll(path, perm)]: nothing to do for an existing directory;
    otherwise the parent is made first and then [path] itself. *)
Fixpoint os_MkdirAll (fs : FSys) (path : list string) (pm : Z)
  : option error * FSys :=
  match os_Stat (tree fs) path with
  | Ok n =>
      if isDir n then (None, fs)
      else (Some (PathError "mkdir" (path_string path) ENOTDIR), fs)
  | Err _ =>
      match path with
      | [] => os_Mkdir fs path pm
      | _ :: parent =>
          match os_MkdirAll fs parent pm with
          | (Some err, fs') => (Some err, fs')
          | (None, fs') =>
              match os_Mkdir fs' path pm with
              | (Some err, fs'') =>
                  match tree fs'' !! path with
                  | Some n => if isDir n then (None, fs'') else (Some err, fs'')
                  | None => (Some err, fs'')
                  end
              | (None, fs'') => (None, fs'')
              end
          end
      end
  end.

(** The mode [0755] of the source. *)
Definition mode_0755 : Z := 7 * 64 + 5 * 8 + 5.
Definition mode_0700 : Z := 7 * 64.

(** [h.MkdirAll()]. *)
Definition MkdirAll (env : Env) (h : Harvest) (fs : FSys) : option error * FSys :=
  match os_Stat (tree fs) (DirPath env h) with
  | Err err =>
      if os_IsNotExist err then
        match os_MkdirAll fs (DirPath env h) mode_0755 with
        | (Some err, fs') => (Some err, fs')
        | (None, fs') => (None, fs')
        end
      else (None, fs)
  | Ok _ => (None, fs)
  end.

(** ** Sample inputs *)

Definition set_Identify (id : Identify) (h : Harvest) : Harvest :=
  mkHarvest (BaseURL h) (Format h) (Set_ h) (From h) (Until h) (MaxRequests h)
    (DisableSelectiveHarvesting h) (CleanBeforeDecode h) (IgnoreHTTPErrors h)
    (MaxEmptyResponses h) (SuppressFormatParameter h) (DailyInterval h)
    id (Started h).

Definition set_From (from : string) (h : Harvest) : Harvest :=
  mkHarvest (BaseURL h) (Format h) (Set_ h) from (Until h) (MaxRequests h)
    (DisableSelectiveHarvesting h) (CleanBeforeDecode h) (IgnoreHTTPErrors h)
    (MaxEmptyResponses h) (SuppressFormatParameter h) (DailyInterval h)
    (HIdentify h) (Started h).

Definition set_MaxRequests (n : Z) (h : Harvest) : Harvest :=
  mkHarvest (BaseURL h) (Format h) (Set_ h) (From h) (Until h) n
    (DisableSelectiveHarvesting h) (CleanBeforeDecode h) (IgnoreHTTPErrors h)
    (MaxEmptyResponses h) (SuppressFormatParameter h) (DailyInterval h)
    (HIdentify h) (Started h).

(** A harvest of a day-granularity endpoint, started on 2020-03-10, with
    the limits the command line passes by default. *)
Definition sample_harvest : Harvest :=
  mkHarvest "http://example.org/oai" "oai_dc" "" "" "" 1048576
    false false false 3 false false
    (mkIdentify "YYYY-MM-DD" "2020-01-15")
    (time.mkTime 2020 3 10 12 0 0 0).

Definition sample_env : Env := mkEnv "/home/u/.metha" no_faults (fun _ => 42).

Definition sample_interval : Interval :=
  mkInterval (time.mkTime 2020 1 15 0 0 0 0)
             (time.mkTime 2020 1 31 23 59 59 999999999).

Definition empty_world : World := mkWorld ∅ [] 0 0.

(** A page without protocol error. *)
Definition page (token : string) (records : list string) (xml : string)
  : result Response :=
  Ok (mkResponse "" "" records token (Ok xml)).

(** A batch of three pages waiting for promotion next to one file of an
    earlier run. *)
Definition batch_dir : gmap string File :=
  <["2020-01-31-00000000.xml-tmp-42" := mkFile "<page0/>" false]>
    (<["2020-01-31-00000001.xml-tmp-42" := mkFile "<page1/>" false]>
      (<["2020-01-31-00000002.xml-tmp-42" := mkFile "<page2/>" false]>
        (<["2019-12-31-00000000.xml.gz" := mkFile "<old/>" true]> ∅))).

(** The operating system refuses to promote the third page. *)
Definition third_move_denied : Env :=
  mkEnv "/home/u/.metha"
    (mkFaults
       (fun name =>
          if (name =? "2020-01-31-00000002.xml-tmp-42")%string
          then Some (PathError "rename" name EACCES) else None)
       (fun _ => None) (fun _ => None))
    (fun _ => 42).

(** A server that answers the first request with [noRecordsMatch] and no
    resumption token. *)
Definition noRecordsMatch_reply : result Response :=
  Ok (mkResponse "noRecordsMatch" "no records" [] "" (Ok "<error/>")).

(** A temporary file is left over and cannot be removed. *)
Definition leftover_dir : gmap string File :=
  <["2020-01-31-00000000.xml-tmp-7" := mkFile "<page/>" false]> ∅.

Definition remove_denied : Env :=
  mkEnv "/home/u/.metha"
    (mkFaults (fun _ => None)
       (fun name => Some (PathError "remove" name EACCES))
       (fun _ => None))
    (fun _ => 42).

(** A home directory without the cache, under the usual umask [022]. *)
Definition sample_fs : FSys :=
  mkFSys (<[["u"; "home"] := mkNode true mode_0755]>
            (<[["home"] := mkNode true mode_0755]>
               {[ [] := mkNode true mode_0755 ]}))
         18 (fun _ => None).

(** ** Notions of the specification *)

(** The dates a day layout can render and read back: four-digit years,
    a month of the year and a day of that month. *)
Definition valid_date (t : time.Time) : Prop :=
  0 <= time.year t <= 9999 /\
  1 <= time.month t <= 12 /\
  1 <= time.day t <= time.daysIn (time.month t) (time.year t).

(** The digits of a number below 10000, and below 100. *)
Definition digits4 (x : Z) : string :=
  String (digitChar (x / 1000)) (String (digitChar (x / 100))
    (String (digitChar (x / 10)) (String (digitChar x) ""))).

Definition digits2 (x : Z) : string :=
  String (digitChar (x / 10)) (String (digitChar x) "").

(** The dates of the cache: what the extractor finds in its names. *)
Definition cached_dates (d : gmap string File) : list string :=
  List.filter (fun v => negb (v =? "")%string) (List.map extractDate (ReadDir d)).

(** Every byte of [s] satisfies [P]. *)
Fixpoint all_bytes (P : ascii -> bool) (s : string) : bool :=
  match s with
  | EmptyString => true
  | String c s' => P c && all_bytes P s'
  end.

(** The bytes of a rendered number: digits and the minus sign. *)
Definition numeric (c : ascii) : bool := isDigit c || (c =? "-")%char.

(** Bytes that stand for themselves in a glob pattern, and bytes a star
    may cross. *)
Definition plain (c : ascii) : bool :=
  negb (c =? "*")%char && negb (c =? "?")%char.

Definition not_slash (c : ascii) : bool := negb (c =? "/")%char.

(** The name of page [i] of a batch, before and after promotion. *)
Definition page_name (filedate : string) (i : Z) (suffix : string) : string :=
  filedate ++ "-" ++ appendInt i 8 ++ ".xml" ++ suffix.

Definition promoted_name (filedate : string) (i : Z) : string :=
  filedate ++ "-" ++ appendInt i 8 ++ ".xml.gz".

(** The world after page [i] is requested with [token] and written. *)
Definition page_written (h : Harvest) (iv : Interval) (suffix token : string)
    (i : Z) (b : string) (w : World) : World :=
  mkWorld (<[page_name (build_request h iv token).2 i suffix := mkFile b false]> (dir w))
          (sent w ++ [(build_request h iv token).1]) (slept w) (draws w).

(** The empty-response counter after a page. *)
Definition empty_streak (resp : Response) (empty : Z) : Z :=
  if 0 <? Z.of_nat (List.length (Records resp)) then 0 else empty + 1.

(** The suffix [runInterval] draws for its batch, and the date it stamps
    on the pages. *)
Definition batch_suffix (env : Env) (w : World) : string :=
  "-tmp-" ++ itoa (rand_Intn env (draws w)).

Definition filedate (h : Harvest) (iv : Interval) : string :=
  (build_request h iv "").2.

(** A page without records that carries a resumption token and is not
    turned away by the switch on the protocol error. *)
Definition empty_token_page (resp : Response) (b : string) : Prop :=
  error_switch resp = LeaveSwitch /\ Records resp = [] /\
  ResumptionToken resp <> "" /\ Marshal resp = Ok b.

(** The language of a regular expression. *)
Inductive matches : regex -> string -> Prop :=
| MEps : matches Eps ""
| MCls (p : ascii -> bool) (c : ascii) :
    p c = true -> matches (Cls p) (String c "")
| MCat (r1 r2 : regex) (s1 s2 : string) :
    matches r1 s1 -> matches r2 s2 -> matches (Cat r1 r2) (s1 ++ s2)
| MAltL (r1 r2 : regex) (s : string) :
    matches r1 s -> matches (Alt r1 r2) s
| MAltR (r1 r2 : regex) (s : string) :
    matches r2 s -> matches (Alt r1 r2) s
| MStar0 (r : regex) : matches (Star r) ""
| MStarS (r : regex) (s1 s2 : string) :
    matches r s1 -> matches (Star r) s2 -> matches (Star r) (s1 ++ s2).

(** ** Further functions of the package *)

(** [PrependSchema(s)]. *)
Definition PrependSchema (s : string) : string :=
  if negb (HasPrefix s "http") then "http://" ++ s else s.

(** A page that the loop writes and after which it asks for the next one:
    the switch on the protocol error lets it pass, it holds records and a
    resumption token, and it can be marshalled. *)
Definition page_with_records (resp : Response) : Prop :=
  error_switch resp = LeaveSwitch /\ Records resp <> [] /\
  ResumptionToken resp <> "" /\ exists b, Marshal resp = Ok b.

(** The page that ends a conversation: it has no resumption token. *)
Definition last_page (resp : Response) : Prop :=
  error_switch resp = LeaveSwitch /\ ResumptionToken resp = "" /\
  exists b, Marshal resp = Ok b.

(** The bytes of the URL-safe base64 alphabet. *)
Definition urlsafe (c : ascii) : bool :=
  isDigit c || (("A" <=? c) && (c <=? "Z"))%char
  || (("a" <=? c) && (c <=? "z"))%char || (c =? "-")%char || (c =? "_")%char.

Definition no_hash (c : ascii) : bool := negb (c =? "#")%char.

(** *** NewHarvest

    Modelled from the spec: the client of [identify] is declared outside
    harvest.go.  [c_Do] stands for [CreateClient(30*time.Second, 2).Do]
    followed by the projection to the Identify element of the response. *)

(** [h.identify()]. *)
Definition identify (c_Do : Request -> result Identify) (h : Harvest)
  : option error * Harvest :=
  let req := mkRequest (BaseURL h) "" "Identify" "" "" false false "" "" in
  match c_Do req with
  | Err err => (Some err, h)
  | Ok id =>
      (None,
       mkHarvest (BaseURL h) (Format h) (Set_ h) (From h) (Until h) (MaxRequests h)
         (DisableSelectiveHarvesting h) (CleanBeforeDecode h) (IgnoreHTTPErrors h)
         (MaxEmptyResponses h) (SuppressFormatParameter h) (DailyInterval h)
         id (Started h))
  end.

(** [NewHarvest(baseURL)]: every field but [BaseURL] has its zero value
    when [identify] is called. *)
Definition NewHarvest (c_Do : Request -> result Identify) (baseURL : string)
  : result Harvest :=
  let h := mkHarvest baseURL "" "" "" "" 0 false false false 0 false false
             (mkIdentify "" "") zeroTime in
  match identify c_Do h with
  | (Some err, _) => Err err
  | (None, h') => Ok h'
  end.

Definition set_Until (until : string) (h : Harvest) : Harvest :=
  mkHarvest (BaseURL h) (Format h) (Set_ h) (From h) until (MaxRequests h)
    (DisableSelectiveHarvesting h) (CleanBeforeDecode h) (IgnoreHTTPErrors h)
    (MaxEmptyResponses h) (SuppressFormatParameter h) (DailyInterval h)
    (HIdentify h) (Started h).

(** ** The path of the cache directory

    The cache is modelled by the base names of the entries of [h.Dir()].
    The code works on full paths: [filepath.Glob] is given the pattern
    joined to the path of the directory, and [finalize] applies
    [strings.Replace] to the paths that [filepath.Glob] returns.  The two
    views agree when the path of the directory is taken literally by
    [filepath.Glob] and is left as it is by that [strings.Replace]; the
    statements about what is listed, promoted or swept assume so.  Both
    conditions pass from the path below to the cleaned path that
    [filepath.Join] returns, which differs by whole components only. *)

(** The bytes that [filepath.Match] takes literally: all but the star,
    the question mark, the opening bracket and the backslash. *)
Definition glob_literal (c : ascii) : bool :=
  negb (c =? "*")%char && negb (c =? "?")%char && negb (c =? "[")%char
  && negb (c =? "092")%char.

Definition literal_dir (env : Env) (h : Harvest) : Prop :=
  all_bytes glob_literal (Dir env h) = true.

(** [suffix] does not occur in the path of the directory. *)
Definition suffix_free_dir (env : Env) (h : Harvest) (suffix : string) : Prop :=
  strings_Replace (Dir env h) suffix = Dir env h.

(** [BaseDir] has no component that [filepath.Join] would resolve. *)
Definition clean_BaseDir (env : Env) : Prop :=
  Forall (fun c => c <> "." /\ c <> "..") (components (BaseDir env) "" []).

(** The bytes of ASCII: on a name made of them a character of the
    pattern is one byte. *)
Definition ascii_byte (c : ascii) : bool := (N_of_ascii c <? 128)%N.

(** * Verification *)

(** ** Strings *)

Lemma length_slice_to (n : nat) (s : string) :
  (n <= String.length s)%nat -> String.length (slice_to n s) = n.
Proof.
  unfold slice_to. revert n.
  induction s as [|c s IH]; intros [|n] Hn; simpl in *; try lia.
  rewrite IH; lia.
Qed.

Lemma HasPrefix_slice_to (n : nat) (s : string) :
  HasPrefix s (slice_to n s) = true.
Proof.
  unfold slice_to. revert n.
  induction s as [|c s IH]; intros [|n]; simpl; try reflexivity.
  rewrite Ascii.eqb_refl. apply IH.
Qed.

Lemma append_cons (c : ascii) (s t : string) : String c s ++ t = String c (s ++ t).
Proof. reflexivity. Qed.

Lemma append_nil (t : string) : "" ++ t = t.
Proof. reflexivity. Qed.

Lemma append_assoc (a b c : string) : (a ++ b) ++ c = a ++ (b ++ c).
Proof.
  induction a as [|x a IH]; [reflexivity |].
  rewrite !append_cons, IH. reflexivity.
Qed.

Lemma append_inv_head (p a b : string) : p ++ a = p ++ b -> a = b.
Proof.
  induction p as [|x p IH]; [auto |].
  rewrite !append_cons. intros [= H]. auto.
Qed.

Lemma append_eq_nil (a b : string) : a ++ b = "" -> a = "" /\ b = "".
Proof. destruct a; [auto | discriminate]. Qed.

Lemma length_append (a b : string) :
  String.length (a ++ b) = (String.length a + String.length b)%nat.
Proof.
  induction a as [|c a IH]; [reflexivity |].
  rewrite append_cons. cbn [String.length]. rewrite IH. reflexivity.
Qed.

Lemma substring_prefix (a b : string) :
  substring 0 (String.length a) (a ++ b) = a.
Proof.
  induction a as [|c a IH]; [destruct b; reflexivity |].
  rewrite append_cons. cbn [String.length substring]. rewrite IH. reflexivity.
Qed.

Lemma all_bytes_app (P : ascii -> bool) (a b : string) :
  all_bytes P (a ++ b) = all_bytes P a && all_bytes P b.
Proof.
  induction a as [|x a IH]; [reflexivity |].
  rewrite append_cons. cbn [all_bytes]. rewrite IH, andb_assoc. reflexivity.
Qed.

Lemma all_bytes_impl (P Q : ascii -> bool) (s : string) :
  (forall c, P c = true -> Q c = true) ->
  all_bytes P s = true -> all_bytes Q s = true.
Proof.
  intros HPQ. induction s as [|x s IH]; [reflexivity |].
  cbn [all_bytes]. rewrite !andb_true_iff. intros [Hx Hs]. auto.
Qed.

(** ** The order of names *)

Lemma Ascii_leb_le (a b : ascii) :
  (a <=? b)%char = true <-> (N_of_ascii a <= N_of_ascii b)%N.
Proof.
  unfold Ascii.leb, Ascii.compare.
  destruct (N.compare_spec (N_of_ascii a) (N_of_ascii b)); split;
    intros; try reflexivity; try discriminate; lia.
Qed.

Lemma String_leb_cons (a b : ascii) (s t : string) :
  (String a s <=? String b t)%string =
  match (N_of_ascii a ?= N_of_ascii b)%N with
  | Lt => true
  | Eq => (s <=? t)%string
  | Gt => false
  end.
Proof.
  unfold String.leb. cbn [String.compare]. unfold Ascii.compare.
  destruct (N_of_ascii a ?= N_of_ascii b)%N; reflexivity.
Qed.

Lemma String_leb_refl (s : string) : (s <=? s)%string = true.
Proof.
  induction s as [|c s IH]; [reflexivity |].
  rewrite String_leb_cons, N.compare_refl. exact IH.
Qed.

Lemma String_leb_trans (s1 s2 s3 : string) :
  (s1 <=? s2)%string = true -> (s2 <=? s3)%string = true ->
  (s1 <=? s3)%string = true.
Proof.
  revert s2 s3.
  induction s1 as [|a s1 IH]; intros [|b s2] [|c s3]; try reflexivity;
    try discriminate.
  rewrite !String_leb_cons.
  destruct (N.compare_spec (N_of_ascii a) (N_of_ascii b));
    destruct (N.compare_spec (N_of_ascii b) (N_of_ascii c));
    destruct (N.compare_spec (N_of_ascii a) (N_of_ascii c));
    try reflexivity; try discriminate; try lia.
  apply IH.
Qed.

Lemma String_leb_app (p a b : string) :
  (p ++ a <=? p ++ b)%string = (a <=? b)%string.
Proof.
  induction p as [|x p IH]; [reflexivity |].
  rewrite !append_cons, String_leb_cons, N.compare_refl. exact IH.
Qed.

#[global] Instance string_le_refl : Reflexive string_le.
Proof. intros s. apply String_leb_refl. Qed.

#[global] Instance string_le_trans : Transitive string_le.
Proof. intros s1 s2 s3. apply String_leb_trans. Qed.

#[global] Instance string_le_antisym : AntiSymm (=) string_le.
Proof. intros s1 s2. apply String.leb_antisym. Qed.

#[global] Instance string_le_total : Total string_le.
Proof. intros s1 s2. apply String.leb_total. Qed.

(** ** Numbers as text *)

Lemma isDigit_bounds (c : ascii) : isDigit c = true -> 0 <= digitVal c <= 9.
Proof.
  unfold isDigit, digitVal. rewrite andb_true_iff, !Ascii_leb_le.
  change (N_of_ascii "0") with 48%N. change (N_of_ascii "9") with 57%N. lia.
Qed.

Lemma digitChar_cases (d : Z) :
  digitChar d = "0"%char \/ digitChar d = "1"%char \/ digitChar d = "2"%char \/
  digitChar d = "3"%char \/ digitChar d = "4"%char \/ digitChar d = "5"%char \/
  digitChar d = "6"%char \/ digitChar d = "7"%char \/ digitChar d = "8"%char \/
  digitChar d = "9"%char.
Proof.
  unfold digitChar.
  assert (H : 0 <= d mod 10 < 10) by (apply Z.mod_pos_bound; lia).
  assert (Hc : d mod 10 = 0 \/ d mod 10 = 1 \/ d mod 10 = 2 \/ d mod 10 = 3 \/
               d mod 10 = 4 \/ d mod 10 = 5 \/ d mod 10 = 6 \/ d mod 10 = 7 \/
               d mod 10 = 8 \/ d mod 10 = 9) by lia.
  repeat (destruct Hc as [-> | Hc]; [tauto |]). rewrite Hc. tauto.
Qed.

Lemma isDigit_digitChar (d : Z) : isDigit (digitChar d) = true.
Proof.
  pose proof (digitChar_cases d) as H.
  repeat (destruct H as [-> | H]; [reflexivity |]). rewrite H. reflexivity.
Qed.

Lemma digitVal_digitChar (d : Z) : digitVal (digitChar d) = d mod 10.
Proof.
  unfold digitChar, digitVal.
  assert (H : 0 <= d mod 10 < 10) by (apply Z.mod_pos_bound; lia).
  rewrite N_ascii_embedding by lia. lia.
Qed.

Lemma digitsOf_S (fuel : nat) (n : Z) (acc : string) :
  digitsOf (S fuel) n acc =
  if n <? 10 then String (digitChar n) acc
  else digitsOf fuel (n / 10) (String (digitChar n) acc).
Proof. reflexivity. Qed.

Lemma digitChar_0 (d : Z) : d = 0 -> digitChar d = "0"%char.
Proof. intros ->. reflexivity. Qed.

Lemma appendInt_4 (x : Z) : 0 <= x <= 9999 -> appendInt x 4 = digits4 x.
Proof.
  intros Hx. unfold appendInt, digits4.
  destruct (Z.ltb_spec x 0); [lia |].
  rewrite Z.abs_eq by lia.
  change 20%nat with (S (S (S (S 16)))).
  rewrite digitsOf_S.
  destruct (Z.ltb_spec x 10).
  { rewrite !(digitChar_0 (x / _)) by (apply Z.div_small; lia). reflexivity. }
  rewrite digitsOf_S.
  destruct (Z.ltb_spec (x / 10) 10).
  { assert (x < 100) by (Z.to_euclidean_division_equations; lia).
    rewrite (digitChar_0 (x / 1000)), (digitChar_0 (x / 100))
      by (apply Z.div_small; lia).
    reflexivity. }
  rewrite digitsOf_S, Z.div_div by lia.
  destruct (Z.ltb_spec (x / (10 * 10)) 10).
  { assert (x < 1000) by (Z.to_euclidean_division_equations; lia).
    rewrite (digitChar_0 (x / 1000)) by (apply Z.div_small; lia).
    reflexivity. }
  rewrite digitsOf_S, Z.div_div by lia.
  destruct (Z.ltb_spec (x / (10 * 10 * 10)) 10); [reflexivity |].
  exfalso. Z.to_euclidean_division_equations. lia.
Qed.

Lemma appendInt_2 (x : Z) : 0 <= x <= 99 -> appendInt x 2 = digits2 x.
Proof.
  intros Hx. unfold appendInt, digits2.
  destruct (Z.ltb_spec x 0); [lia |].
  rewrite Z.abs_eq by lia.
  change 20%nat with (S (S 18)).
  rewrite digitsOf_S.
  destruct (Z.ltb_spec x 10).
  { rewrite (digitChar_0 (x / 10)) by (apply Z.div_small; lia). reflexivity. }
  rewrite digitsOf_S.
  destruct (Z.ltb_spec (x / 10) 10); [reflexivity |].
  exfalso. Z.to_euclidean_division_equations. lia.
Qed.

Lemma length_zeros (n : nat) : String.length (zeros n) = n.
Proof. induction n as [|n IH]; [reflexivity | cbn; rewrite IH; reflexivity]. Qed.

Lemma digits_zeros (n : nat) : all_bytes isDigit (zeros n) = true.
Proof. induction n as [|n IH]; [reflexivity | exact IH]. Qed.

Lemma digits_digitsOf (fuel : nat) :
  forall n acc,
    all_bytes isDigit acc = true -> all_bytes isDigit (digitsOf fuel n acc) = true.
Proof.
  induction fuel as [|fuel IH]; intros n acc Hacc; [exact Hacc |].
  rewrite digitsOf_S.
  assert (Hc : all_bytes isDigit (String (digitChar n) acc) = true)
    by (cbn [all_bytes]; rewrite isDigit_digitChar, Hacc; reflexivity).
  destruct (n <? 10); [exact Hc | apply IH, Hc].
Qed.

(** The counter of a page is rendered as eight digits or more. *)
Lemma appendInt_8_digits (i : Z) :
  0 <= i ->
  all_bytes isDigit (appendInt i 8) = true /\
  (8 <= String.length (appendInt i 8))%nat.
Proof.
  intros Hi. unfold appendInt.
  destruct (Z.ltb_spec i 0); [lia |]. split.
  - rewrite all_bytes_app, digits_zeros, digits_digitsOf; reflexivity.
  - rewrite length_append, length_zeros. lia.
Qed.

Lemma all_bytes_zeros (n : nat) : all_bytes numeric (zeros n) = true.
Proof. induction n as [|n IH]; [reflexivity | exact IH]. Qed.

Lemma all_bytes_digitsOf (fuel : nat) :
  forall n acc,
    all_bytes numeric acc = true ->
    all_bytes numeric (digitsOf fuel n acc) = true.
Proof.
  induction fuel as [|fuel IH]; intros n acc Hacc; [exact Hacc |].
  rewrite digitsOf_S.
  assert (Hc : all_bytes numeric (String (digitChar n) acc) = true).
  { cbn [all_bytes]. unfold numeric at 1.
    rewrite isDigit_digitChar, Hacc. reflexivity. }
  destruct (n <? 10); [exact Hc | apply IH, Hc].
Qed.

Lemma all_bytes_appendInt (x : Z) (width : nat) :
  all_bytes numeric (appendInt x width) = true.
Proof.
  unfold appendInt.
  assert (H : all_bytes numeric
                (zeros (width - String.length (digitsOf 20 (Z.abs x) ""))
                 ++ digitsOf 20 (Z.abs x) "") = true).
  { rewrite all_bytes_app, all_bytes_zeros, all_bytes_digitsOf; reflexivity. }
  destruct (x <? 0); [cbn [all_bytes]; rewrite H; reflexivity | exact H].
Qed.

(** ** Dates as text *)

Lemma Format_empty (t : time.Time) : time.Format "" t = "".
Proof. reflexivity. Qed.

Lemma daysIn_bounds (m y : Z) : 28 <= time.daysIn m y <= 31.
Proof.
  unfold time.daysIn.
  destruct (m =? 2); [destruct (time.isLeap y); lia |].
  destruct (_ || _); lia.
Qed.

Lemma Format_day (t : time.Time) :
  valid_date t ->
  time.Format "2006-01-02" t =
  digits4 (time.year t) ++ "-" ++ digits2 (time.month t) ++ "-" ++ digits2 (time.day t).
Proof.
  intros (Hy & Hm & Hd).
  pose proof (daysIn_bounds (time.month t) (time.year t)).
  change (time.Format "2006-01-02" t) with
    (appendInt (time.year t) 4 ++ String "-" (appendInt (time.month t) 2
       ++ String "-" (appendInt (time.day t) 2 ++ ""))).
  rewrite appendInt_4, !appendInt_2 by lia. reflexivity.
Qed.

Lemma length_Format_day (t : time.Time) :
  valid_date t -> String.length (time.Format "2006-01-02" t) = 10%nat.
Proof. intros Hv. rewrite (Format_day t Hv). reflexivity. Qed.

Lemma Format_day_same_date (t u : time.Time) :
  valid_date t -> valid_date u ->
  time.year t = time.year u -> time.month t = time.month u ->
  time.day t = time.day u ->
  time.Format "2006-01-02" t = time.Format "2006-01-02" u.
Proof.
  intros Ht Hu Hy Hm Hd. rewrite !Format_day by assumption.
  rewrite Hy, Hm, Hd. reflexivity.
Qed.

Lemma all_bytes_Format_day (t : time.Time) :
  all_bytes numeric (time.Format "2006-01-02" t) = true.
Proof.
  change (time.Format "2006-01-02" t) with
    (appendInt (time.year t) 4 ++ String "-" (appendInt (time.month t) 2
       ++ String "-" (appendInt (time.day t) 2 ++ ""))).
  rewrite all_bytes_app. cbn [all_bytes].
  rewrite all_bytes_app. cbn [all_bytes].
  rewrite all_bytes_app, !all_bytes_appendInt. reflexivity.
Qed.

Lemma getyear_digits4 (y : Z) (rest : string) :
  0 <= y <= 9999 -> time.getyear (digits4 y ++ rest) = Some (y, rest).
Proof.
  intros Hy. unfold digits4. rewrite !append_cons, append_nil.
  cbn [time.getyear].
  rewrite !isDigit_digitChar, !digitVal_digitChar. cbn [andb].
  do 2 f_equal. Z.div_mod_to_equations. lia.
Qed.

Lemma getnum_digits2 (x : Z) (rest : string) :
  0 <= x <= 99 -> time.getnum (digits2 x ++ rest) true = Some (x, rest).
Proof.
  intros Hx. unfold digits2. rewrite !append_cons, append_nil.
  cbn [time.getnum].
  rewrite !isDigit_digitChar, !digitVal_digitChar.
  do 2 f_equal. Z.div_mod_to_equations. lia.
Qed.

Lemma Parse_chunks_day (v v1 v2 : string) (y m d : Z) (f : time.fields) :
  time.getyear v = Some (y, String "-" v1) ->
  time.getnum v1 true = Some (m, String "-" v2) ->
  time.inRange 1 12 m = true ->
  time.getnum v2 true = Some (d, "") ->
  time.parse_chunks (time.chunks "2006-01-02") v f =
  Some (time.mkFields y m d (time.f_hour f) (time.f_min f) (time.f_sec f)
                      (time.f_nsec f)).
Proof.
  intros Hy Hm Hr Hd.
  change (time.chunks "2006-01-02") with
    [time.stdLongYear; time.literal "-"; time.stdZeroMonth; time.literal "-";
     time.stdZeroDay].
  cbn [time.parse_chunks]. rewrite Hy.
  cbn [Ascii.eqb Bool.eqb]. rewrite Hm, Hr.
  cbn [Ascii.eqb Bool.eqb]. rewrite Hd. reflexivity.
Qed.

(** A valid date is read back from its day rendering, at midnight. *)
Lemma Parse_Format_day (t : time.Time) :
  valid_date t ->
  time.Parse "2006-01-02" (time.Format "2006-01-02" t) =
  Ok (time.mkTime (time.year t) (time.month t) (time.day t) 0 0 0 0).
Proof.
  intros Hv. rewrite (Format_day t Hv).
  destruct Hv as (Hy & Hm & Hd).
  pose proof (daysIn_bounds (time.month t) (time.year t)).
  unfold time.Parse.
  rewrite (Parse_chunks_day _
             (digits2 (time.month t) ++ "-" ++ digits2 (time.day t))
             (digits2 (time.day t) ++ "")
             (time.year t) (time.month t) (time.day t));
    [ | apply (getyear_digits4 _ (String "-" _)); lia
      | apply (getnum_digits2 _ (String "-" _)); lia
      | unfold time.inRange; lia
      | apply (getnum_digits2 _ ""); lia ].
  cbn [time.f_year time.f_month time.f_day time.f_hour time.f_min time.f_sec time.f_nsec].
  unfold time.inRange.
  destruct (Z.leb_spec 1 (time.day t)); [| lia].
  destruct (Z.leb_spec (time.day t) (time.daysIn (time.month t) (time.year t))); [| lia].
  reflexivity.
Qed.

Lemma Parse_Err (layout value : string) (e : error) :
  time.Parse layout value = Err e -> e = ParseError layout value.
Proof.
  unfold time.Parse.
  destruct (time.parse_chunks _ _ _) as [f|]; [| congruence].
  destruct (time.inRange _ _ _); congruence.
Qed.

Lemma getyear_bounds (v rest : string) (y : Z) :
  time.getyear v = Some (y, rest) -> 0 <= y <= 9999.
Proof.
  destruct v as [|c0 [|c1 [|c2 [|c3 v]]]]; try discriminate.
  cbn [time.getyear].
  destruct (isDigit c0) eqn:H0; [| discriminate].
  destruct (isDigit c1) eqn:H1; [| discriminate].
  destruct (isDigit c2) eqn:H2; [| discriminate].
  destruct (isDigit c3) eqn:H3; [| discriminate].
  apply isDigit_bounds in H0, H1, H2, H3.
  intros [= <- _]. lia.
Qed.

(** Parsing keeps a year and a month within their ranges, and chunks of
    the date leave the time of day as it was. *)
Lemma parse_chunks_ranges (cs : list time.chunk) :
  forall v f g,
    time.parse_chunks cs v f = Some g ->
    0 <= time.f_year f <= 9999 /\ 1 <= time.f_month f <= 12 ->
    0 <= time.f_year g <= 9999 /\ 1 <= time.f_month g <= 12.
Proof.
  induction cs as [|c cs IH]; intros v f g H Hf.
  - destruct v; [| discriminate]. inversion H; subst. exact Hf.
  - destruct c; cbn [time.parse_chunks] in H.
    + destruct (time.getyear v) as [[y v1]|] eqn:Hy; [| discriminate].
      apply getyear_bounds in Hy. apply (IH _ _ _ H). cbn. lia.
    + destruct (time.getnum v true) as [[m v1]|]; [| discriminate].
      destruct (time.inRange 1 12 m) eqn:Hr; [| discriminate].
      unfold time.inRange in Hr. apply andb_true_iff in Hr.
      apply (IH _ _ _ H). cbn. lia.
    + destruct (time.getnum v true) as [[d v1]|]; [| discriminate].
      apply (IH _ _ _ H). exact Hf.
    + destruct (time.getnum v false) as [[hh v1]|]; [| discriminate].
      destruct (time.inRange 0 23 hh); [| discriminate].
      apply (IH _ _ _ H). exact Hf.
    + destruct (time.getnum v true) as [[mi v1]|]; [| discriminate].
      destruct (time.inRange 0 59 mi); [| discriminate].
      apply (IH _ _ _ H). exact Hf.
    + destruct (time.getnum v true) as [[ss v1]|]; [| discriminate].
      destruct (time.inRange 0 59 ss); [| discriminate].
      destruct (time.fractional v1) as [[ns v2]|];
        apply (IH _ _ _ H); exact Hf.
    + destruct v as [|x v1]; [discriminate |].
      destruct (c =? x)%char; [| discriminate].
      apply (IH _ _ _ H). exact Hf.
Qed.

Lemma Parse_valid (layout value : string) (t : time.Time) :
  time.Parse layout value = Ok t -> valid_date t.
Proof.
  unfold time.Parse.
  destruct (time.parse_chunks _ value _) as [f|] eqn:Hc; [| discriminate].
  destruct (time.inRange 1 _ (time.f_day f)) eqn:Hr; [| discriminate].
  intros [= <-]. unfold valid_date; cbn.
  unfold time.inRange in Hr. apply andb_true_iff in Hr.
  apply parse_chunks_ranges in Hc; cbn; lia.
Qed.

(** ** Shifting by a day *)

Lemma iter_next_day (y m : Z) (k : nat) :
  Z.of_nat k < time.daysIn m y ->
  Nat.iter k time.next_day (y, m, 1) = (y, m, 1 + Z.of_nat k).
Proof.
  induction k as [|k IH]; intros Hk; [reflexivity |].
  rewrite Nat.iter_succ, IH by lia. unfold time.next_day.
  destruct (Z.ltb_spec (1 + Z.of_nat k) (time.daysIn m y)); [| lia].
  f_equal; lia.
Qed.

Lemma shift_days_within (y m d : Z) :
  1 <= d <= time.daysIn m y ->
  time.shift_days (d - 1) (y, m, 1) = (y, m, d).
Proof.
  intros Hd. unfold time.shift_days.
  destruct (d - 1) as [|p|p] eqn:Hp; try lia.
  - f_equal; lia.
  - rewrite Pos2Nat.inj_iter.
    change (nat_rect _ ?x (fun _ => ?f) ?n) with (Nat.iter n f x).
    rewrite iter_next_day by lia.
    f_equal; lia.
Qed.

Lemma shift_days_succ (n : Z) (x : Z * Z * Z) :
  0 <= n -> time.shift_days (n + 1) x = time.next_day (time.shift_days n x).
Proof.
  intros Hn. destruct n as [|p|p]; try lia; [reflexivity |].
  replace (Z.pos p + 1) with (Z.pos (Pos.succ p)) by lia.
  unfold time.shift_days. rewrite Pos.iter_succ. reflexivity.
Qed.

Lemma normal_month (y m : Z) :
  1 <= m <= 12 -> y + 0 + (m - 1 + 0) / 12 = y /\ (m - 1 + 0) mod 12 + 1 = m.
Proof.
  intros Hm. rewrite Z.add_0_r, Z.add_0_r, Z.div_small, Z.mod_small by lia. lia.
Qed.

(** One day later is the next calendar day, one day earlier the previous
    one; the time of day is kept. *)
Lemma AddDate_next_day (t : time.Time) :
  1 <= time.month t <= 12 ->
  1 <= time.day t <= time.daysIn (time.month t) (time.year t) ->
  time.AddDate 0 0 1 t =
  let '(y, m, d) := time.next_day (time.year t, time.month t, time.day t) in
  time.mkTime y m d (time.hour t) (time.minute t) (time.second t) (time.nsec t).
Proof.
  intros Hm Hd. unfold time.AddDate.
  destruct (normal_month (time.year t) _ Hm) as [-> ->].
  rewrite shift_days_succ, shift_days_within by lia. reflexivity.
Qed.

Lemma AddDate_prev_day (t : time.Time) :
  1 <= time.month t <= 12 ->
  1 <= time.day t <= time.daysIn (time.month t) (time.year t) ->
  time.AddDate 0 0 (-1) t =
  let '(y, m, d) := time.prev_day (time.year t, time.month t, time.day t) in
  time.mkTime y m d (time.hour t) (time.minute t) (time.second t) (time.nsec t).
Proof.
  intros Hm Hd. unfold time.AddDate.
  destruct (normal_month (time.year t) _ Hm) as [-> ->].
  unfold time.prev_day.
  destruct (Z.ltb_spec 1 (time.day t)).
  - replace (time.day t - 1 + -1) with (time.day t - 1 - 1) by lia.
    rewrite shift_days_within by lia. reflexivity.
  - replace (time.day t - 1 + -1) with (-1) by lia. reflexivity.
Qed.

Lemma next_day_neq (y m d : Z) : time.next_day (y, m, d) <> (y, m, d).
Proof.
  unfold time.next_day.
  destruct (d <? time.daysIn m y); [intros [=]; lia |].
  destruct (m <? 12); intros [=]; lia.
Qed.

Lemma AddDate_next_day_neq (t : time.Time) :
  1 <= time.month t <= 12 ->
  1 <= time.day t <= time.daysIn (time.month t) (time.year t) ->
  time.AddDate 0 0 1 t <> t.
Proof.
  intros Hm Hd Heq. rewrite AddDate_next_day in Heq by assumption.
  destruct (time.next_day _) as [[y m] d] eqn:Hn.
  apply (next_day_neq (time.year t) (time.month t) (time.day t)).
  rewrite Hn. rewrite <- Heq. reflexivity.
Qed.

(** The day before a valid date of a year from 1 on is a valid date. *)
Lemma valid_date_yesterday (t : time.Time) :
  valid_date t -> 1 <= time.year t ->
  valid_date (now.EndOfDay (time.AddDate 0 0 (-1) t)).
Proof.
  intros (Hy & Hm & Hd) Hy1.
  rewrite AddDate_prev_day by assumption.
  unfold time.prev_day, valid_date.
  pose proof (daysIn_bounds (time.month t - 1) (time.year t)).
  destruct (Z.ltb_spec 1 (time.day t)); cbn; [lia |].
  destruct (Z.ltb_spec 1 (time.month t)); cbn; [lia |].
  change (time.daysIn 12 (time.year t - 1)) with 31. lia.
Qed.

(** ** Regular expressions *)

Lemma nullable_complete (r : regex) (s : string) :
  matches r s -> s = "" -> nullable r = true.
Proof.
  induction 1 as [| | r1 r2 s1 s2 _ IH1 _ IH2 | r1 r2 s _ IH | r1 r2 s _ IH | |];
    intros Hs; cbn [nullable]; try reflexivity; try discriminate.
  - apply append_eq_nil in Hs as [H1 H2]. rewrite IH1, IH2 by assumption. reflexivity.
  - rewrite IH by assumption. reflexivity.
  - rewrite IH by assumption. apply orb_true_r.
Qed.

Lemma deriv_complete (r : regex) (x : string) :
  matches r x -> forall c s, x = String c s -> matches (deriv c r) s.
Proof.
  induction 1 as [| p c0 Hp | r1 r2 s1 s2 H1 IH1 H2 IH2 | r1 r2 s0 _ IH
                  | r1 r2 s0 _ IH | | r1 s1 s2 H1 IH1 H2 IH2];
    intros c s Hx; cbn [deriv]; try discriminate.
  - injection Hx as -> <-. rewrite Hp. constructor.
  - destruct s1 as [|c1 s1].
    + rewrite append_nil in Hx.
      rewrite (nullable_complete _ _ H1 eq_refl).
      apply MAltR, (IH2 _ _ Hx).
    + rewrite append_cons in Hx. injection Hx as -> <-.
      assert (Hc : matches (Cat (deriv c r1) r2) (s1 ++ s2))
        by (constructor; [apply IH1; reflexivity | exact H2]).
      destruct (nullable r1); [apply MAltL |]; exact Hc.
  - apply MAltL, (IH _ _ Hx).
  - apply MAltR, (IH _ _ Hx).
  - destruct s1 as [|c1 s1].
    + rewrite append_nil in Hx. apply (IH2 _ _ Hx).
    + rewrite append_cons in Hx. injection Hx as -> <-.
      constructor; [apply IH1; reflexivity | exact H2].
Qed.

(** The matcher accepts every string of the language. *)
Lemma re_match_complete (s : string) :
  forall r, matches r s -> re_match r s = true.
Proof.
  induction s as [|c s IH]; intros r H; cbn [re_match].
  - apply (nullable_complete r ""); [exact H | reflexivity].
  - apply IH, (deriv_complete r _ H). reflexivity.
Qed.

Lemma matches_digit (c : ascii) : isDigit c = true -> matches digit (String c "").
Proof. intros H. constructor. exact H. Qed.

Lemma matches_lit (c : ascii) : matches (lit c) (String c "").
Proof. constructor. apply Ascii.eqb_refl. Qed.

Lemma matches_digits4 (x : Z) : matches (rep 4 digit) (digits4 x).
Proof.
  unfold digits4.
  repeat (apply (MCat digit _ (String _ "")); [apply matches_digit, isDigit_digitChar |]).
  constructor.
Qed.

Lemma matches_digits2 (x : Z) : matches (rep 2 digit) (digits2 x).
Proof.
  unfold digits2.
  repeat (apply (MCat digit _ (String _ "")); [apply matches_digit, isDigit_digitChar |]).
  constructor.
Qed.

Lemma matches_fnDate (t : time.Time) :
  valid_date t -> matches fnDate (time.Format "2006-01-02" t).
Proof.
  intros Hv. rewrite (Format_day t Hv). unfold fnDate.
  apply MCat; [apply matches_digits4 |].
  apply (MCat _ _ "-"); [apply matches_lit |].
  apply MCat; [apply matches_digits2 |].
  apply (MCat _ _ "-"); [apply matches_lit |].
  apply matches_digits2.
Qed.

Lemma matches_Star_digits (s : string) :
  all_bytes isDigit s = true -> matches (Star digit) s.
Proof.
  induction s as [|c s IH]; [constructor |].
  cbn [all_bytes]. intros [Hc Hs]%andb_true_iff.
  apply (MStarS digit (String c "") s); [apply matches_digit, Hc | apply IH, Hs].
Qed.

(** At least [n] digits are [n] digits and then some. *)
Lemma split_digits (n : nat) :
  forall s, all_bytes isDigit s = true -> (n <= String.length s)%nat ->
            exists a b, s = a ++ b /\ matches (rep n digit) a /\
                        matches (Star digit) b.
Proof.
  induction n as [|n IH]; intros s Hs Hlen.
  - exists "", s. repeat split; [constructor | apply matches_Star_digits, Hs].
  - destruct s as [|c s]; [cbn in Hlen; lia |].
    cbn [all_bytes] in Hs. apply andb_true_iff in Hs as [Hc Hs].
    destruct (IH s Hs) as (a & b & -> & Ha & Hb); [cbn in Hlen; lia |].
    exists (String c a), b. repeat split; [| exact Hb].
    apply (MCat digit _ (String c "")); [apply matches_digit, Hc | exact Ha].
Qed.

Lemma matches_fnRest (i : Z) :
  0 <= i -> matches fnRest ("-" ++ appendInt i 8 ++ ".xml.gz").
Proof.
  intros Hi. destruct (appendInt_8_digits i Hi) as [Hd Hl].
  destruct (split_digits 8 _ Hd Hl) as (a & b & -> & Ha & Hb).
  rewrite append_assoc. unfold fnRest.
  apply (MCat _ _ "-"); [apply matches_lit |].
  apply MCat; [exact Ha |].
  apply MCat; [exact Hb |].
  apply (MCat _ _ "."); [constructor; reflexivity |].
  apply (MCat _ _ "x"); [apply matches_lit |].
  apply (MCat _ _ "m"); [apply matches_lit |].
  apply (MCat _ _ "l"); [apply matches_lit |].
  apply MAltR.
  apply (MCat _ _ "."); [constructor; reflexivity |].
  apply (MCat _ _ "g"); apply matches_lit.
Qed.

(** ** Listing a directory *)

(** [ReadDir] lists exactly the names of the directory, in order. *)
Lemma In_ReadDir (d : gmap string File) (name : string) :
  In name (ReadDir d) <-> is_Some (d !! name).
Proof.
  unfold ReadDir.
  rewrite <- list_elem_of_In, merge_sort_Permutation, elem_of_elements.
  apply elem_of_dom.
Qed.

Lemma Sorted_ReadDir (d : gmap string File) : Sorted string_le (ReadDir d).
Proof. apply Sorted_merge_sort; apply _. Qed.

Lemma In_MustGlob (pat : string) (d : gmap string File) (x : string) :
  In x (MustGlob pat d) <-> is_Some (d !! x) /\ glob_match pat x = true.
Proof. unfold MustGlob. rewrite filter_In, In_ReadDir. reflexivity. Qed.

Lemma StronglySorted_filter {A} (R : relation A) (f : A -> bool) (l : list A) :
  StronglySorted R l -> StronglySorted R (List.filter f l).
Proof.
  induction 1 as [|x l Hs IH Hx]; [constructor |].
  cbn [List.filter]. destruct (f x); [| exact IH].
  constructor; [exact IH |].
  rewrite List.Forall_forall in *. intros y Hy.
  apply filter_In in Hy as [Hy _]. auto.
Qed.

(** A glob is determined by its members: it is the sorted list of the
    names of the directory that match. *)
Lemma MustGlob_unique (pat : string) (d : gmap string File) (l : list string) :
  Sorted string_le l -> NoDup l ->
  (forall x, In x l <-> is_Some (d !! x) /\ glob_match pat x = true) ->
  MustGlob pat d = l.
Proof.
  intros Hs Hnd Hin.
  apply (Sorted_unique string_le).
  - apply StronglySorted_Sorted. unfold MustGlob.
    apply StronglySorted_filter, Sorted_StronglySorted; [apply _ |].
    apply Sorted_ReadDir.
  - exact Hs.
  - apply NoDup_Permutation.
    + unfold MustGlob. apply NoDup_ListNoDup, List.NoDup_filter, NoDup_ListNoDup.
      unfold ReadDir. rewrite merge_sort_Permutation. apply NoDup_elements.
    + exact Hnd.
    + intros x. rewrite !list_elem_of_In, In_MustGlob. symmetry. apply Hin.
Qed.

(** ** Globbing and renaming *)

Lemma glob_match_literal_cons (x : ascii) (p name : string) :
  (x =? "*")%char = false -> (x =? "?")%char = false ->
  glob_match (String x p) name =
  match name with
  | String c n' => (x =? c)%char && glob_match p n'
  | EmptyString => false
  end.
Proof.
  destruct x as [[] [] [] [] [] [] [] []]; intros H1 H2;
    try discriminate H1; try discriminate H2; reflexivity.
Qed.

Lemma glob_match_plain (p : string) :
  all_bytes plain p = true -> glob_match p p = true.
Proof.
  induction p as [|x p IH]; [reflexivity |].
  cbn [all_bytes]. unfold plain at 1.
  rewrite !andb_true_iff, !negb_true_iff. intros [[H1 H2] Hp].
  rewrite glob_match_literal_cons, Ascii.eqb_refl by assumption.
  apply IH, Hp.
Qed.

Lemma glob_match_star_eq (p n : string) :
  glob_match (String "*" p) n =
  glob_match p n ||
  match n with
  | String c n' => negb (c =? "/")%char && glob_match (String "*" p) n'
  | EmptyString => false
  end.
Proof. destruct n; reflexivity. Qed.

Lemma glob_match_star (p a rest : string) :
  all_bytes not_slash a = true ->
  glob_match p rest = true ->
  glob_match (String "*" p) (a ++ rest) = true.
Proof.
  intros Ha Hrest. induction a as [|x a IH].
  - rewrite append_nil, glob_match_star_eq, Hrest. reflexivity.
  - cbn [all_bytes] in Ha. apply andb_true_iff in Ha as [Hx Ha].
    rewrite append_cons, glob_match_star_eq.
    unfold not_slash in Hx. rewrite Hx, (IH Ha). apply orb_true_r.
Qed.

Lemma remove_all_skip (old s : string) :
  remove_all old (String.length s) s = "".
Proof. induction s as [|c s IH]; [reflexivity | exact IH]. Qed.

(** Dropping [old] from a name that ends in it and has its second byte
    nowhere else leaves the rest of the name. *)
Lemma strings_Replace_tail (c0 c1 : ascii) (o a : string) :
  all_bytes (fun c => negb (c =? c1)%char) a = true ->
  (c0 =? c1)%char = false ->
  strings_Replace (a ++ String c0 (String c1 o)) (String c0 (String c1 o)) = a.
Proof.
  intros Ha H01. unfold strings_Replace.
  induction a as [|x a IH].
  - rewrite append_nil. cbn [remove_all HasPrefix].
    rewrite !Ascii.eqb_refl. cbn [andb String.length Nat.sub].
    assert (Hp : forall s, HasPrefix s s = true).
    { induction s as [|y s IHs]; [reflexivity |].
      cbn [HasPrefix]. rewrite Ascii.eqb_refl. exact IHs. }
    rewrite Hp. apply (remove_all_skip _ (String c1 o)).
  - cbn [all_bytes] in Ha. apply andb_true_iff in Ha as [Hx Ha].
    apply negb_true_iff in Hx.
    rewrite append_cons. cbn [remove_all HasPrefix].
    assert (Hno : HasPrefix (a ++ String c0 (String c1 o)) (String c1 o) = false).
    { destruct a as [|y a].
      - rewrite append_nil. cbn [HasPrefix].
        rewrite Ascii.eqb_sym, H01. reflexivity.
      - rewrite append_cons. cbn [HasPrefix].
        cbn [all_bytes] in Ha. apply andb_true_iff in Ha as [Hy _].
        apply negb_true_iff in Hy. rewrite Ascii.eqb_sym, Hy. reflexivity. }
    rewrite Hno, andb_false_r. rewrite (IH Ha). reflexivity.
Qed.

(** ** The names of a batch *)

Lemma numeric_not_slash (s : string) :
  all_bytes numeric s = true -> all_bytes not_slash s = true.
Proof.
  apply all_bytes_impl. intros c.
  destruct c as [[] [] [] [] [] [] [] []]; cbv; congruence.
Qed.

Lemma numeric_plain (s : string) :
  all_bytes numeric s = true -> all_bytes plain s = true.
Proof.
  apply all_bytes_impl. intros c.
  destruct c as [[] [] [] [] [] [] [] []]; cbv; congruence.
Qed.

Lemma numeric_not_t (s : string) :
  all_bytes numeric s = true ->
  all_bytes (fun c => negb (c =? "t")%char) s = true.
Proof.
  apply all_bytes_impl. intros c.
  destruct c as [[] [] [] [] [] [] [] []]; cbv; congruence.
Qed.

(** A page name matches the glob of its batch. *)
Lemma glob_page_name (fd tail : string) (i : Z) :
  all_bytes numeric fd = true -> all_bytes numeric tail = true ->
  glob_match ("*.xml" ++ "-tmp-" ++ tail) (page_name fd i ("-tmp-" ++ tail)) = true.
Proof.
  intros Hfd Htail. unfold page_name.
  replace (fd ++ "-" ++ appendInt i 8 ++ ".xml" ++ "-tmp-" ++ tail)
    with ((fd ++ "-" ++ appendInt i 8) ++ (".xml" ++ "-tmp-" ++ tail))
    by (rewrite !append_assoc; reflexivity).
  change ("*.xml" ++ "-tmp-" ++ tail) with (String "*" (".xml" ++ "-tmp-" ++ tail)).
  apply glob_match_star.
  - apply numeric_not_slash.
    rewrite all_bytes_app, Hfd.
    change ("-" ++ appendInt i 8) with (String "-" (appendInt i 8)).
    cbn [all_bytes]. rewrite all_bytes_appendInt. reflexivity.
  - apply glob_match_plain.
    change (".xml" ++ "-tmp-" ++ tail) with
      (String "." (String "x" (String "m" (String "l" (String "-"
         (String "t" (String "m" (String "p" (String "-" tail))))))))).
    cbn [all_bytes]. rewrite (numeric_plain _ Htail). reflexivity.
Qed.

(** Promotion gives a page its permanent name. *)
Lemma promoted_page_name (fd tail : string) (i : Z) :
  all_bytes numeric fd = true ->
  strings_Replace (page_name fd i ("-tmp-" ++ tail)) ("-tmp-" ++ tail) ++ ".gz"
  = promoted_name fd i.
Proof.
  intros Hfd. unfold page_name, promoted_name.
  replace (fd ++ "-" ++ appendInt i 8 ++ ".xml" ++ "-tmp-" ++ tail)
    with ((fd ++ "-" ++ appendInt i 8 ++ ".xml")
          ++ String "-" (String "t" ("mp-" ++ tail)))
    by (rewrite !append_assoc; reflexivity).
  change ("-tmp-" ++ tail) with (String "-" (String "t" ("mp-" ++ tail))).
  rewrite strings_Replace_tail.
  - rewrite !append_assoc. reflexivity.
  - rewrite all_bytes_app, (numeric_not_t _ Hfd).
    change ("-" ++ appendInt i 8 ++ ".xml") with (String "-" (appendInt i 8 ++ ".xml")).
    cbn [all_bytes]. rewrite all_bytes_app, (numeric_not_t _ (all_bytes_appendInt i 8)).
    reflexivity.
  - reflexivity.
Qed.

(** Names of one batch differ when their parts after the date do. *)
Lemma names_differ (fd a b : string) : a <> b -> fd ++ a <> fd ++ b.
Proof. intros Hab H. apply Hab, (append_inv_head fd), H. Qed.

Ltac differ :=
  unfold page_name, promoted_name; apply names_differ;
  let H := fresh in intros H; vm_compute in H; discriminate H.

Lemma batch_names_sorted (fd sfx : string) :
  Sorted string_le [page_name fd 0 sfx; page_name fd 1 sfx; page_name fd 2 sfx].
Proof.
  repeat constructor; unfold string_le, page_name;
    rewrite String_leb_app; reflexivity.
Qed.

Lemma batch_names_NoDup (fd tail : string) :
  NoDup [page_name fd 0 ("-tmp-" ++ tail); page_name fd 1 ("-tmp-" ++ tail);
         page_name fd 2 ("-tmp-" ++ tail)].
Proof.
  repeat constructor; rewrite ?list_elem_of_In; cbn [In];
    intros H; repeat destruct H as [H | H]; try exact H; revert H; differ.
Qed.

(** The extractor of the planner finds in the name of a promoted page the
    day the page was stamped with. *)
Lemma extractDate_promoted_name (t : time.Time) (i : Z) :
  valid_date t -> 0 <= i ->
  extractDate (promoted_name (time.Format "2006-01-02" t) i)
  = time.Format "2006-01-02" t.
Proof.
  intros Hv Hi. unfold extractDate, promoted_name.
  assert (Hm : re_match (Cat fnDate fnRest)
                 (time.Format "2006-01-02" t ++ "-" ++ appendInt i 8 ++ ".xml.gz")
               = true).
  { apply re_match_complete, MCat;
      [apply matches_fnDate, Hv | apply matches_fnRest, Hi]. }
  destruct (time.Format "2006-01-02" t ++ "-" ++ appendInt i 8 ++ ".xml.gz")
    as [|c s] eqn:Hname.
  - pose proof (length_Format_day t Hv) as Hl.
    apply append_eq_nil in Hname as [Hname _]. rewrite Hname in Hl. discriminate.
  - cbn [fnPattern_Date]. rewrite Hm. rewrite <- Hname.
    rewrite <- (length_Format_day t Hv) at 1. rewrite substring_prefix.
    reflexivity.
Qed.

(** ** MkdirAll *)

Lemma os_Stat_Ok (t : gmap (list string) Node) (path : list string) (n : Node) :
  os_Stat t path = Ok n <-> t !! path = Some n.
Proof.
  destruct path as [|c parent]; simpl.
  - destruct (t !! []); split; congruence.
  - destruct (t !! (c :: parent)); [split; congruence |].
    split; [| discriminate].
    destruct (os_Stat t parent) as [m|e];
      [destruct (isDir m) | destruct e]; discriminate.
Qed.

(** What [os.Mkdir] changes: at most the entry of [path], which it
    creates as a directory of mode [pm] less the umask. *)
Lemma os_Mkdir_spec (fs : FSys) (path : list string) (pm : Z) e fs1 :
  os_Mkdir fs path pm = (e, fs1) ->
  umask fs1 = umask fs /\ mkdir_fault fs1 = mkdir_fault fs /\
  (forall p n, tree fs !! p = Some n -> tree fs1 !! p = Some n) /\
  (forall p n, tree fs !! p = None -> tree fs1 !! p = Some n ->
               n = mkNode true (Z.ldiff pm (umask fs))) /\
  (e = None -> tree fs1 !! path = Some (mkNode true (Z.ldiff pm (umask fs)))).
Proof.
  unfold os_Mkdir. intros H.
  assert (Hsame : forall e0, (e0, fs) = (e, fs1) -> e0 <> None ->
            umask fs1 = umask fs /\ mkdir_fault fs1 = mkdir_fault fs /\
            (forall p n, tree fs !! p = Some n -> tree fs1 !! p = Some n) /\
            (forall p n, tree fs !! p = None -> tree fs1 !! p = Some n ->
                         n = mkNode true (Z.ldiff pm (umask fs))) /\
            (e = None -> tree fs1 !! path = Some (mkNode true (Z.ldiff pm (umask fs))))).
  { intros e0 Heq Hne. inversion Heq; subst.
    repeat split; auto; congruence. }
  destruct (mkdir_fault fs path); [eapply Hsame; eauto; discriminate |].
  destruct (tree fs !! path) eqn:Hpath; [eapply Hsame; eauto; discriminate |].
  destruct path as [|c parent]; [eapply Hsame; eauto; discriminate |].
  destruct (tree fs !! parent) as [m|]; [| eapply Hsame; eauto; discriminate].
  destruct (isDir m); [| eapply Hsame; eauto; discriminate].
  inversion H; subst; simpl.
  repeat split.
  - intros p n Hp. rewrite lookup_insert_ne; [exact Hp | congruence].
  - intros p n Hp Hq.
    destruct (decide (c :: parent = p)) as [<-|Hne].
    + rewrite lookup_insert_eq in Hq. congruence.
    + rewrite lookup_insert_ne in Hq by exact Hne. congruence.
  - intros _. apply lookup_insert_eq.
Qed.

Lemma os_MkdirAll_cons (fs : FSys) (c : string) (parent : list string) (pm : Z) :
  os_MkdirAll fs (c :: parent) pm =
  match os_Stat (tree fs) (c :: parent) with
  | Ok n =>
      if isDir n then (None, fs)
      else (Some (PathError "mkdir" (path_string (c :: parent)) ENOTDIR), fs)
  | Err _ =>
      match os_MkdirAll fs parent pm with
      | (Some err, fs1) => (Some err, fs1)
      | (None, fs1) =>
          match os_Mkdir fs1 (c :: parent) pm with
          | (Some err, fs2) =>
              match tree fs2 !! (c :: parent) with
              | Some n => if isDir n then (None, fs2) else (Some err, fs2)
              | None => (Some err, fs2)
              end
          | (None, fs2) => (None, fs2)
          end
      end
  end.
Proof. reflexivity. Qed.

Lemma os_MkdirAll_spec (path : list string) (pm : Z) :
  forall fs e fs1,
    os_MkdirAll fs path pm = (e, fs1) ->
    umask fs1 = umask fs /\ mkdir_fault fs1 = mkdir_fault fs /\
    (forall p n, tree fs !! p = Some n -> tree fs1 !! p = Some n) /\
    (forall p n, tree fs !! p = None -> tree fs1 !! p = Some n ->
                 n = mkNode true (Z.ldiff pm (umask fs))) /\
    (e = None -> exists n, tree fs1 !! path = Some n /\ isDir n = true).
Proof.
  induction path as [|c parent IH]; intros fs e fs3 H;
    [simpl in H | rewrite os_MkdirAll_cons in H].
  - destruct (tree fs !! []) as [n|] eqn:Hroot.
    + destruct (isDir n) eqn:Hd; inversion H; subst;
        repeat split; auto; try congruence.
      intros _. eauto.
    + destruct (os_Mkdir_spec _ _ _ _ _ H) as (Hu & Hf & Hk & Hn & Hs).
      repeat split; auto. intros He. eexists. split; [apply Hs; exact He |].
      reflexivity.
  - destruct (os_Stat (tree fs) (c :: parent)) as [n|err] eqn:Hst.
    { apply os_Stat_Ok in Hst.
      destruct (isDir n) eqn:Hd; inversion H; subst;
        repeat split; auto; try congruence; eauto. }
    destruct (os_MkdirAll fs parent pm) as [[e1|] fs1] eqn:Hrec.
    { inversion H; subst.
      destruct (IH _ _ _ Hrec) as (Hu & Hf & Hk & Hn & _).
      repeat split; auto. discriminate. }
    destruct (IH _ _ _ Hrec) as (Hu & Hf & Hk & Hn & _).
    destruct (os_Mkdir fs1 (c :: parent) pm) as [e2 fs2] eqn:Hmk.
    destruct (os_Mkdir_spec _ _ _ _ _ Hmk) as (Hu2 & Hf2 & Hk2 & Hn2 & Hs2).
    assert (Hboth :
      umask fs2 = umask fs /\ mkdir_fault fs2 = mkdir_fault fs /\
      (forall p n, tree fs !! p = Some n -> tree fs2 !! p = Some n) /\
      (forall p n, tree fs !! p = None -> tree fs2 !! p = Some n ->
                   n = mkNode true (Z.ldiff pm (umask fs)))).
    { repeat split; try congruence.
      - intros p n Hp. apply Hk2, Hk, Hp.
      - intros p n Hp Hp2.
        destruct (tree fs1 !! p) as [m|] eqn:Hp1.
        + rewrite (Hk2 _ _ Hp1) in Hp2. inversion Hp2; subst.
          eapply Hn; eauto.
        + rewrite <- Hu. eapply Hn2; eauto. }
    destruct Hboth as (Hub & Hfb & Hkb & Hnb).
    destruct e2 as [err2|].
    + destruct (tree fs2 !! (c :: parent)) as [m|] eqn:Hm;
        [destruct (isDir m) eqn:Hd |]; inversion H; subst;
        repeat split; auto; try discriminate.
      intros _. eauto.
    + inversion H; subst. repeat split; auto.
      intros _. eexists. split; [apply Hs2; reflexivity | reflexivity].
Qed.

(** C9, as the code has it: creating the cache directory is idempotent
    (an entry that exists is not an error and nothing changes, and a
    second call after a successful one changes nothing), and every
    component that was missing is created as a directory of mode [0755]
    less the bits of the umask; what existed keeps its entry. *)
Theorem MkdirAll_idempotent_mode_0755 (env : Env) (h : Harvest) (fs : FSys) :
  (forall n, tree fs !! DirPath env h = Some n -> MkdirAll env h fs = (None, fs)) /\
  (forall fs1, MkdirAll env h fs = (None, fs1) ->
               MkdirAll env h fs1 = (None, fs1)) /\
  (forall e fs1 p n,
      MkdirAll env h fs = (e, fs1) ->
      tree fs !! p = None -> tree fs1 !! p = Some n ->
      n = mkNode true (Z.ldiff mode_0755 (umask fs))) /\
  (forall e fs1 p n,
      MkdirAll env h fs = (e, fs1) ->
      tree fs !! p = Some n -> tree fs1 !! p = Some n).
Proof.
  unfold MkdirAll.
  split; [| split; [| split]].
  - intros n Hn. apply os_Stat_Ok in Hn. rewrite Hn. reflexivity.
  - intros fs1 H.
    destruct (os_Stat (tree fs) (DirPath env h)) as [n|err] eqn:Hst.
    { inversion H; subst. rewrite Hst. reflexivity. }
    destruct (os_IsNotExist err) eqn:Hne.
    + destruct (os_MkdirAll fs (DirPath env h) mode_0755) as [[e1|] fs2] eqn:Hmk;
        inversion H; subst.
      destruct (os_MkdirAll_spec _ _ _ _ _ Hmk) as (_ & _ & _ & _ & Hex).
      destruct (Hex eq_refl) as (n & Hn & _).
      apply os_Stat_Ok in Hn. rewrite Hn. reflexivity.
    + inversion H; subst. rewrite Hst, Hne. reflexivity.
  - intros e fs1 p n H Hp Hq.
    destruct (os_Stat (tree fs) (DirPath env h)) as [m|err];
      [inversion H; subst; congruence |].
    destruct (os_IsNotExist err); [| inversion H; subst; congruence].
    destruct (os_MkdirAll fs (DirPath env h) mode_0755) as [[e1|] fs2] eqn:Hmk;
      inversion H; subst;
      destruct (os_MkdirAll_spec _ _ _ _ _ Hmk) as (_ & _ & _ & Hn & _);
      eapply Hn; eauto.
  - intros e fs1 p n H Hp.
    destruct (os_Stat (tree fs) (DirPath env h)) as [m|err];
      [inversion H; subst; exact Hp |].
    destruct (os_IsNotExist err); [| inversion H; subst; exact Hp].
    destruct (os_MkdirAll fs (DirPath env h) mode_0755) as [[e1|] fs2] eqn:Hmk;
      inversion H; subst;
      destruct (os_MkdirAll_spec _ _ _ _ _ Hmk) as (_ & _ & Hk & _ & _);
      apply Hk, Hp.
Qed.

Lemma MkdirAll_idempotent_mode_0755_witness :
  MkdirAll sample_env sample_harvest (MkdirAll sample_env sample_harvest sample_fs).2
  = (None, (MkdirAll sample_env sample_harvest sample_fs).2) /\
  tree (MkdirAll sample_env sample_harvest sample_fs).2 !! [".metha"; "u"; "home"]
  = Some (mkNode true mode_0755).
Proof.
  pose proof (MkdirAll_idempotent_mode_0755 sample_env sample_harvest sample_fs)
    as (_ & Hidem & Hmode & _).
  split.
  - apply Hidem. vm_compute. reflexivity.
  - assert (Hrun : exists n,
              tree (MkdirAll sample_env sample_harvest sample_fs).2
                !! [".metha"; "u"; "home"] = Some n)
      by (vm_compute; eauto).
    destruct Hrun as [n Hn]. rewrite Hn. f_equal.
    apply (Hmode None (MkdirAll sample_env sample_harvest sample_fs).2
                 [".metha"; "u"; "home"] n).
    + vm_compute. reflexivity.
    + vm_compute. reflexivity.
    + exact Hn.
Defined.

(** C9, as the claim has it, fails: the components created in a home
    directory under umask [022] get mode [0755], not [0700]. *)
Lemma MkdirAll_mode_0700_counterexample :
  (MkdirAll sample_env sample_harvest sample_fs).1 = None /\
  tree sample_fs !! [".metha"; "u"; "home"] = None /\
  tree sample_fs !! DirPath sample_env sample_harvest = None /\
  (exists n, tree (MkdirAll sample_env sample_harvest sample_fs).2
               !! [".metha"; "u"; "home"] = Some n /\
             perm n = mode_0755 /\ perm n <> mode_0700) /\
  (exists n, tree (MkdirAll sample_env sample_harvest sample_fs).2
               !! DirPath sample_env sample_harvest = Some n /\
             perm n = mode_0755 /\ perm n <> mode_0700).
Proof.
  vm_compute. repeat split; eexists; repeat split; discriminate.
Qed.

(** ** earliestDate *)

(** C7: [earliestDate] reads the earliest datestamp by granularity.  For
    [YYYY-MM-DD] an input longer than 10 bytes is cut to its first 10
    bytes and parsed as a day; for [YYYY-MM-DDThh:mm:ssZ] an input of
    length in [10, 20) is cut to 10 bytes and parsed as a day and a longer
    one is parsed with the full second-granularity layout; every other
    granularity gives [ErrInvalidEarliestDate]. *)
Theorem earliestDate_by_granularity (h : Harvest) :
  (Granularity (HIdentify h) = "YYYY-MM-DD" ->
   (10 < String.length (EarliestDatestamp (HIdentify h)))%nat ->
   earliestDate h =
     time.Parse "2006-01-02" (slice_to 10 (EarliestDatestamp (HIdentify h))) /\
   String.length (slice_to 10 (EarliestDatestamp (HIdentify h))) = 10%nat /\
   HasPrefix (EarliestDatestamp (HIdentify h))
             (slice_to 10 (EarliestDatestamp (HIdentify h))) = true) /\
  (Granularity (HIdentify h) = "YYYY-MM-DDThh:mm:ssZ" ->
   (10 <= String.length (EarliestDatestamp (HIdentify h)) < 20)%nat ->
   earliestDate h =
     time.Parse "2006-01-02" (slice_to 10 (EarliestDatestamp (HIdentify h))) /\
   String.length (slice_to 10 (EarliestDatestamp (HIdentify h))) = 10%nat /\
   HasPrefix (EarliestDatestamp (HIdentify h))
             (slice_to 10 (EarliestDatestamp (HIdentify h))) = true) /\
  (Granularity (HIdentify h) = "YYYY-MM-DDThh:mm:ssZ" ->
   (20 <= String.length (EarliestDatestamp (HIdentify h)))%nat ->
   earliestDate h =
     time.Parse "2006-01-02T15:04:05Z" (EarliestDatestamp (HIdentify h))) /\
  (Granularity (HIdentify h) <> "YYYY-MM-DD" ->
   Granularity (HIdentify h) <> "YYYY-MM-DDThh:mm:ssZ" ->
   earliestDate h = Err ErrInvalidEarliestDate).
Proof.
  unfold earliestDate.
  split; [|split; [|split]].
  - intros Hg Hlen. rewrite Hg. simpl (_ =? _)%string.
    destruct (Nat.leb_spec (String.length (EarliestDatestamp (HIdentify h))) 10);
      [lia |].
    split; [reflexivity |].
    split; [apply length_slice_to; lia | apply HasPrefix_slice_to].
  - intros Hg Hlen. rewrite Hg. simpl (_ =? _)%string.
    destruct (Nat.leb_spec 10 (String.length (EarliestDatestamp (HIdentify h))));
      [| lia].
    destruct (Nat.ltb_spec (String.length (EarliestDatestamp (HIdentify h))) 20);
      [| lia].
    split; [reflexivity |].
    split; [apply length_slice_to; lia | apply HasPrefix_slice_to].
  - intros Hg Hlen. rewrite Hg. simpl (_ =? _)%string.
    destruct (Nat.ltb_spec (String.length (EarliestDatestamp (HIdentify h))) 20);
      [lia |].
    rewrite andb_false_r. reflexivity.
  - intros Hg1 Hg2.
    apply String.eqb_neq in Hg1. apply String.eqb_neq in Hg2.
    rewrite Hg1, Hg2. reflexivity.
Qed.

Lemma earliestDate_by_granularity_witness :
  earliestDate (set_Identify (mkIdentify "YYYY-MM-DD" "2020-01-15T10:00:00Z")
                             sample_harvest)
  = Ok (time.mkTime 2020 1 15 0 0 0 0) /\
  earliestDate (set_Identify (mkIdentify "YYYY-MM-DDThh:mm:ssZ" "2020-01-15T10:00")
                             sample_harvest)
  = Ok (time.mkTime 2020 1 15 0 0 0 0) /\
  earliestDate (set_Identify (mkIdentify "YYYY-MM-DDThh:mm:ssZ" "2020-01-15T10:00:00Z")
                             sample_harvest)
  = Ok (time.mkTime 2020 1 15 10 0 0 0) /\
  earliestDate (set_Identify (mkIdentify "YYYY" "2020") sample_harvest)
  = Err ErrInvalidEarliestDate.
Proof.
  split; [| split; [| split]].
  - destruct (earliestDate_by_granularity
                (set_Identify (mkIdentify "YYYY-MM-DD" "2020-01-15T10:00:00Z")
                              sample_harvest)) as (H & _).
    destruct H as (-> & _); [reflexivity | cbn; lia | reflexivity].
  - destruct (earliestDate_by_granularity
                (set_Identify (mkIdentify "YYYY-MM-DDThh:mm:ssZ" "2020-01-15T10:00")
                              sample_harvest)) as (_ & H & _).
    destruct H as (-> & _); [reflexivity | cbn; lia | reflexivity].
  - destruct (earliestDate_by_granularity
                (set_Identify (mkIdentify "YYYY-MM-DDThh:mm:ssZ" "2020-01-15T10:00:00Z")
                              sample_harvest)) as (_ & _ & H & _).
    rewrite H; [reflexivity | reflexivity | cbn; lia].
  - destruct (earliestDate_by_granularity
                (set_Identify (mkIdentify "YYYY" "2020") sample_harvest))
      as (_ & _ & _ & H).
    apply H; discriminate.
Defined.

(** ** The last cached date *)

Lemma In_cached_dates (d : gmap string File) (x : string) :
  In x (cached_dates d) <->
  x <> "" /\ exists name, is_Some (d !! name) /\ extractDate name = x.
Proof.
  unfold cached_dates. rewrite filter_In, in_map_iff, negb_true_iff, String.eqb_neq.
  split.
  - intros [(name & Hx & Hin) Hne]. split; [exact Hne |].
    exists name. split; [apply In_ReadDir, Hin | exact Hx].
  - intros [Hne (name & Hin & Hx)]. split; [| exact Hne].
    exists name. split; [exact Hx | apply In_ReadDir, Hin].
Qed.

Lemma fold_max_string (vs : list string) :
  forall v,
    In (fold_left max_string vs v) (v :: vs) /\
    forall x, In x (v :: vs) -> string_le x (fold_left max_string vs v).
Proof.
  induction vs as [|u vs IH]; intros v; cbn [fold_left].
  - split; [left; reflexivity |].
    intros x [<- | []]. apply String_leb_refl.
  - destruct (IH (max_string v u)) as [Hin Hmax]. split.
    + destruct Hin as [Heq | Hin]; [| right; right; exact Hin].
      rewrite <- Heq. unfold max_string.
      destruct (v <=? u)%string; [right; left | left]; reflexivity.
    + intros x Hx.
      assert (Hvu : string_le v (max_string v u) /\ string_le u (max_string v u)).
      { unfold max_string, string_le.
        destruct (v <=? u)%string eqn:Hle.
        - split; [exact Hle | apply String_leb_refl].
        - split; [apply String_leb_refl |].
          destruct (String.leb_total v u) as [H | H]; [congruence | exact H]. }
      destruct Hx as [<- | [<- | Hx]].
      * etransitivity; [apply Hvu | apply Hmax; left; reflexivity].
      * etransitivity; [apply Hvu | apply Hmax; left; reflexivity].
      * apply Hmax. right. exact Hx.
Qed.

Lemma Last_Ok (l : DirLaster) (d : gmap string File) :
  exists last, Last l d = Ok last.
Proof.
  unfold Last.
  destruct (List.filter _ _); eauto.
Qed.

(** [Last] with the extractor of [defaultInterval]: the default value for
    a cache without dated file, else the largest date of the cache. *)
Lemma Last_extractDate (dflt : string) (d : gmap string File) :
  (cached_dates d = [] /\ Last (mkDirLaster dflt extractDate) d = Ok dflt) \/
  (exists last,
      Last (mkDirLaster dflt extractDate) d = Ok last /\
      In last (cached_dates d) /\
      forall x, In x (cached_dates d) -> string_le x last).
Proof.
  unfold Last. cbn [ExtractorFunc DefaultValue].
  fold (cached_dates d).
  destruct (cached_dates d) as [|v vs]; [left; split; reflexivity |].
  right. exists (fold_left max_string vs v).
  split; [reflexivity | apply fold_max_string].
Qed.

(** ** The interval planner *)

(** The default start of the planner is a valid date whichever way it is
    obtained. *)
Lemma default_start_valid (h : Harvest) (earliest : time.Time) :
  (if (From h =? "")%string then earliestDate h
   else time.Parse "2006-01-02" (From h)) = Ok earliest ->
  valid_date earliest.
Proof.
  destruct (From h =? "")%string.
  - unfold earliestDate.
    destruct (Granularity (HIdentify h) =? "YYYY-MM-DD")%string.
    + destruct (_ <=? _)%nat; apply Parse_valid.
    + destruct (Granularity (HIdentify h) =? "YYYY-MM-DDThh:mm:ssZ")%string;
        [| discriminate].
      destruct (_ && _); apply Parse_valid.
  - apply Parse_valid.
Qed.

(** Planning once the default start and the last known date are known. *)
Lemma defaultInterval_steps (h : Harvest) (d : gmap string File)
    (earliest : time.Time) (last : string) :
  (if (From h =? "")%string then earliestDate h
   else time.Parse "2006-01-02" (From h)) = Ok earliest ->
  Last (mkDirLaster (time.Format "2006-01-02" earliest) extractDate) d = Ok last ->
  defaultInterval h d =
  match time.Parse "2006-01-02" last with
  | Ok begin =>
      if (last =? time.Format "2006-01-02"
                    (now.EndOfDay (time.AddDate 0 0 (-1) (Started h))))%string
      then Err ErrAlreadySynced
      else Ok (mkInterval
                 (if negb (last =? time.Format "2006-01-02" earliest)%string
                  then time.AddDate 0 0 1 begin else begin)
                 (now.EndOfDay (time.AddDate 0 0 (-1) (Started h))))
  | Err err => Err err
  end.
Proof.
  intros He HL. unfold defaultInterval. rewrite He. cbv zeta.
  cbn [DefaultValue]. rewrite HL. reflexivity.
Qed.

Lemma default_start_not_synced (h : Harvest) (e : error) :
  (if (From h =? "")%string then earliestDate h
   else time.Parse "2006-01-02" (From h)) = Err e ->
  defaultInterval h = (fun _ => Err e) /\ e <> ErrAlreadySynced.
Proof.
  intros He. split.
  - unfold defaultInterval. rewrite He. reflexivity.
  - destruct (From h =? "")%string.
    + unfold earliestDate in He.
      destruct (Granularity (HIdentify h) =? "YYYY-MM-DD")%string;
        [destruct (_ <=? _)%nat; apply Parse_Err in He; subst; discriminate |].
      destruct (Granularity (HIdentify h) =? "YYYY-MM-DDThh:mm:ssZ")%string;
        [| inversion He; discriminate].
      destruct (_ && _); apply Parse_Err in He; subst; discriminate.
    + apply Parse_Err in He. subst. discriminate.
Qed.

(** The steps of a planning that returns an interval. *)
Lemma defaultInterval_Ok_inv (h : Harvest) (d : gmap string File) (iv : Interval) :
  defaultInterval h d = Ok iv ->
  exists earliest last t,
    (if (From h =? "")%string then earliestDate h
     else time.Parse "2006-01-02" (From h)) = Ok earliest /\
    Last (mkDirLaster (time.Format "2006-01-02" earliest) extractDate) d = Ok last /\
    time.Parse "2006-01-02" last = Ok t /\
    Begin iv = (if negb (last =? time.Format "2006-01-02" earliest)%string
                then time.AddDate 0 0 1 t else t) /\
    End iv = now.EndOfDay (time.AddDate 0 0 (-1) (Started h)) /\
    last <> time.Format "2006-01-02" (End iv).
Proof.
  unfold defaultInterval. intros H.
  destruct (if (From h =? "")%string then earliestDate h
            else time.Parse "2006-01-02" (From h)) as [earliest|e] eqn:He;
    [| discriminate].
  cbn [DefaultValue] in H.
  destruct (Last _ d) as [last|e] eqn:HL; [| discriminate].
  destruct (time.Parse "2006-01-02" last) as [t|e] eqn:Ht; [| discriminate].
  destruct (String.eqb_spec last
              (time.Format "2006-01-02"
                 (now.EndOfDay (time.AddDate 0 0 (-1) (Started h)))));
    [discriminate |].
  inversion H; subst; clear H. cbn [Begin End].
  exists earliest, last, t. repeat split; auto.
Qed.





(** ** The pagination driver *)

(** Every run of the loop appends the requests it issued to the log, one
    per reply consumed, each built by [build_request]; it issues at least
    one unless the request limit stops it at once or there is no reply. *)
Lemma pages_requests (env : Env) (h : Harvest) (iv : Interval) (suffix : string)
    (script : list (result Response)) :
  forall token i empty w ex script' w',
    pages env h iv suffix script token i empty w = (ex, script', w') ->
    exists new,
      sent w' = (sent w ++ new)%list /\
      Forall (fun r => exists tok, r = fst (build_request h iv tok)) new /\
      List.length script = (List.length script' + List.length new)%nat /\
      (MaxRequests h <> i -> script <> [] -> new <> []) /\
      (MaxRequests h <> i -> script = [] -> ex = Exhausted) /\
      draws w' = draws w.
Proof.
  induction script as [|reply script IH]; intros token i empty w ex script' w' Hp;
    simpl in Hp.
  - destruct (Z.eqb_spec (MaxRequests h) i) as [Hi|Hi];
      [| destruct (build_request h iv token)];
      inversion Hp; subst; exists []; rewrite app_nil_r;
      repeat split; auto; congruence.
  - destruct (Z.eqb_spec (MaxRequests h) i) as [Hi|Hi].
    { inversion Hp; subst. exists []. rewrite app_nil_r.
      repeat split; auto; congruence. }
    destruct (build_request h iv token) as [req filedate] eqn:Hreq.
    assert (Hone : forall ex0 (w1 : World),
               sent w1 = (sent w ++ [req])%list -> draws w1 = draws w ->
               (ex0, script, w1) = (ex, script', w') ->
               exists new,
                 sent w' = (sent w ++ new)%list /\
                 Forall (fun r => exists tok, r = fst (build_request h iv tok)) new /\
                 List.length (reply :: script) = (List.length script' + List.length new)%nat /\
                 (MaxRequests h <> i -> reply :: script <> [] -> new <> []) /\
                 (MaxRequests h <> i -> reply :: script = [] -> ex = Exhausted) /\
                 draws w' = draws w).
    { intros ex0 w1 Hs Hd Heq. inversion Heq; subst. exists [req].
      repeat split; auto; try discriminate.
      - constructor; [| constructor]. exists token. rewrite Hreq. reflexivity.
      - simpl. lia. }
    assert (Hmore : forall token1 i1 empty1 (w1 : World),
               sent w1 = (sent w ++ [req])%list -> draws w1 = draws w ->
               pages env h iv suffix script token1 i1 empty1 w1 = (ex, script', w') ->
               exists new,
                 sent w' = (sent w ++ new)%list /\
                 Forall (fun r => exists tok, r = fst (build_request h iv tok)) new /\
                 List.length (reply :: script) = (List.length script' + List.length new)%nat /\
                 (MaxRequests h <> i -> reply :: script <> [] -> new <> []) /\
                 (MaxRequests h <> i -> reply :: script = [] -> ex = Exhausted) /\
                 draws w' = draws w).
    { intros token1 i1 empty1 w1 Hs Hd Hrec.
      destruct (IH _ _ _ _ _ _ _ Hrec) as (new & Hs' & Hall & Hlen & _ & _ & Hd').
      exists (req :: new). repeat split; try discriminate.
      - rewrite Hs', Hs, <- app_assoc. reflexivity.
      - constructor; [| exact Hall]. exists token. rewrite Hreq. reflexivity.
      - simpl. lia.
      - congruence. }
    destruct reply as [resp|err].
    + destruct (error_switch resp).
      * destruct (Marshal resp) as [b|err]; [| eapply Hone; [| | exact Hp]; reflexivity].
        unfold WriteFile in Hp.
        destruct (write_fault (faults env) _);
          [eapply Hone; [| | exact Hp]; reflexivity |].
        destruct (GetResumptionToken resp =? "")%string;
          [eapply Hone; [| | exact Hp]; reflexivity |].
        destruct (_ =? MaxEmptyResponses h);
          [eapply Hone; [| | exact Hp]; reflexivity |].
        eapply Hmore; [| | exact Hp]; reflexivity.
      * eapply Hmore; [| | exact Hp]; reflexivity.
      * eapply Hone; [| | exact Hp]; reflexivity.
    + destruct (IgnoreHTTPErrors h); (eapply Hone; [| | exact Hp]; reflexivity).
Qed.

(** C3, as the code has it: the request limit of the per-page loop stops
    the loop exactly when the page counter equals [MaxRequests]; there is
    no test that [MaxRequests] is positive.  With [MaxRequests = 0] the
    limit holds before the first request, so the sub-interval issues no
    request, writes no file and goes straight to [finalize]. *)
Theorem request_limit_iff (env : Env) (h : Harvest) (iv : Interval)
    (suffix : string) (script : list (result Response)) (token : string)
    (i empty : Z) (w : World) :
  (pages env h iv suffix script token i empty w = (Break, script, w)
   <-> MaxRequests h = i) /\
  (MaxRequests h = 0 ->
   pages env h iv suffix script "" 0 0 w = (Break, script, w) /\
   runInterval env h iv script w =
     Some ((finalize env h ("-tmp-" ++ itoa (rand_Intn env (draws w))) (dir w)).1,
           script,
           mkWorld (finalize env h ("-tmp-" ++ itoa (rand_Intn env (draws w))) (dir w)).2
                   (sent w) (slept w) (S (draws w)))).
Proof.
  split.
  - split.
    + intros Hp.
      destruct (Z.eq_dec (MaxRequests h) i) as [|Hne]; [assumption | exfalso].
      destruct (pages_requests _ _ _ _ _ _ _ _ _ _ _ _ Hp)
        as (new & Hs & _ & _ & Hnew & Hnone & _).
      destruct script as [|reply script];
        [specialize (Hnone Hne eq_refl); discriminate |].
      apply (Hnew Hne); [discriminate |].
      rewrite <- (app_nil_r (sent w)) in Hs at 1.
      apply app_inv_head in Hs. congruence.
    + intros <-. destruct script; simpl; rewrite Z.eqb_refl; reflexivity.
  - intros H0.
    assert (Hp : forall w0, pages env h iv suffix script "" 0 0 w0
                            = (Break, script, w0)).
    { intros w0. destruct script; simpl; rewrite H0; reflexivity. }
    split; [apply Hp |].
    unfold runInterval.
    assert (Hq : forall sfx w0, pages env h iv sfx script "" 0 0 w0
                                = (Break, script, w0)).
    { intros sfx w0. destruct script; simpl; rewrite H0; reflexivity. }
    rewrite Hq. simpl.
    destruct (finalize env h _ (dir w)); reflexivity.
Qed.

Lemma request_limit_iff_witness :
  pages sample_env (set_MaxRequests 0 sample_harvest) sample_interval "-tmp-42"
        [page "" ["r"] "<page/>"] "" 0 0 empty_world
  = (Break, [page "" ["r"] "<page/>"], empty_world).
Proof.
  apply (proj2 (request_limit_iff sample_env (set_MaxRequests 0 sample_harvest)
                  sample_interval "-tmp-42" [page "" ["r"] "<page/>"] "" 0 0
                  empty_world)).
  reflexivity.
Defined.

(** C3, as the claim has it, fails: with [MaxRequests = 0] the limit stops
    the loop at page 0 although [MaxRequests > 0] does not hold. *)
Lemma request_limit_positive_guard_counterexample :
  ~ (forall env h iv suffix script token i empty w,
        pages env h iv suffix script token i empty w = (Break, script, w)
        <-> (0 < MaxRequests h /\ i = MaxRequests h)).
Proof.
  intros Hclaim.
  destruct (Hclaim sample_env (set_MaxRequests 0 sample_harvest) sample_interval
              "-tmp-42" [page "" ["r"] "<page/>"] "" 0 0 empty_world)
    as [Hpos _].
  destruct (Hpos eq_refl) as [Hlt _].
  simpl in Hlt. lia.
Qed.

(** C10: with a [From] supplied by the caller a granularity outside the
    two supported values is not rejected.  The planner does not consult
    the Identify record (so [earliestDate] plays no part) and never
    returns [ErrInvalidEarliestDate]; [DateLayout] is the empty string;
    and every request a selective sub-interval issues, however far the
    conversation with the server gets, carries an empty [from] and an
    empty [until]. *)
Theorem supplied_From_skips_granularity_check (h : Harvest) :
  From h <> "" ->
  Granularity (HIdentify h) <> "YYYY-MM-DD" ->
  Granularity (HIdentify h) <> "YYYY-MM-DDThh:mm:ssZ" ->
  (forall d id, defaultInterval (set_Identify id h) d = defaultInterval h d) /\
  (forall d, defaultInterval h d <> Err ErrInvalidEarliestDate) /\
  DateLayout h = "" /\
  (DisableSelectiveHarvesting h = false ->
   forall env iv suffix script token i empty w,
     exists new,
       sent (pages env h iv suffix script token i empty w).2
         = (sent w ++ new)%list /\
       Forall (fun r => req_Verb r = "ListRecords" /\
                        req_From r = "" /\ req_Until r = "") new /\
       (MaxRequests h <> i -> script <> [] -> new <> [])).
Proof.
  intros HF Hg1 Hg2.
  apply String.eqb_neq in HF, Hg1, Hg2.
  assert (HL : DateLayout h = "").
  { unfold DateLayout. rewrite Hg1, Hg2. reflexivity. }
  split; [| split; [| split]].
  - intros d id. unfold defaultInterval. simpl. rewrite HF. reflexivity.
  - intros d. unfold defaultInterval. rewrite HF.
    destruct (time.Parse "2006-01-02" (From h)) as [earliest|e] eqn:HP.
    + destruct (Last_Ok (mkDirLaster (time.Format "2006-01-02" earliest) extractDate) d)
        as [last ->].
      destruct (time.Parse "2006-01-02" last) as [b|e] eqn:HP2.
      * destruct (last =? _)%string; discriminate.
      * apply Parse_Err in HP2. subst. discriminate.
    + apply Parse_Err in HP. subst. discriminate.
  - exact HL.
  - intros Hsel env iv suffix script token i empty w.
    destruct (pages env h iv suffix script token i empty w)
      as [[ex script'] w'] eqn:Hp.
    destruct (pages_requests _ _ _ _ _ _ _ _ _ _ _ _ Hp)
      as (new & Hs & Hall & _ & Hnew & _).
    exists new. split; [exact Hs |]. split; [| exact Hnew].
    eapply Forall_impl; [exact Hall |].
    intros r [tok ->]. unfold build_request. rewrite Hsel, HL. simpl. auto.
Qed.

Lemma supplied_From_skips_granularity_check_witness :
  defaultInterval
    (set_From "2020-01-15" (set_Identify (mkIdentify "YYYY" "2020") sample_harvest)) ∅
  <> Err ErrInvalidEarliestDate /\
  DateLayout (set_From "2020-01-15" (set_Identify (mkIdentify "YYYY" "2020") sample_harvest))
  = "" /\
  Forall (fun r => req_Verb r = "ListRecords" /\ req_From r = "" /\ req_Until r = "")
    (sent (pages sample_env
             (set_From "2020-01-15"
                (set_Identify (mkIdentify "YYYY" "2020") sample_harvest))
             sample_interval "-tmp-42" [page "" ["r"] "<page/>"] "" 0 0
             empty_world).2).
Proof.
  pose proof (supplied_From_skips_granularity_check
                (set_From "2020-01-15"
                   (set_Identify (mkIdentify "YYYY" "2020") sample_harvest))) as H.
  destruct H as (_ & Hne & HL & Hreq).
  - discriminate.
  - discriminate.
  - discriminate.
  - split; [apply Hne |]. split; [exact HL |].
    destruct (Hreq eq_refl sample_env sample_interval "-tmp-42"
                [page "" ["r"] "<page/>"] "" 0 0 empty_world)
      as (new & Hs & Hall & _).
    rewrite Hs. exact Hall.
Defined.

Lemma filedate_token (h : Harvest) (iv : Interval) (token : string) :
  (build_request h iv token).2 = (build_request h iv "").2.
Proof. unfold build_request. destruct (DisableSelectiveHarvesting h); reflexivity. Qed.

(** One iteration of the loop on a page that is written. *)
Lemma pages_written_page (env : Env) (h : Harvest) (iv : Interval)
    (suffix : string) (resp : Response) (script : list (result Response))
    (token : string) (i empty : Z) (w : World) (b : string) :
  MaxRequests h <> i ->
  error_switch resp = LeaveSwitch ->
  Marshal resp = Ok b ->
  write_fault (faults env) (page_name (build_request h iv token).2 i suffix) = None ->
  pages env h iv suffix (Ok resp :: script) token i empty w =
  if (ResumptionToken resp =? "")%string
  then (Break, script, page_written h iv suffix token i b w)
  else if empty_streak resp empty =? MaxEmptyResponses h
       then (Break, script, page_written h iv suffix token i b w)
       else pages env h iv suffix script (ResumptionToken resp) (i + 1)
                  (empty_streak resp empty) (page_written h iv suffix token i b w).
Proof.
  intros Hi Hsw Hm Hwf. cbn [pages].
  apply Z.eqb_neq in Hi. rewrite Hi.
  unfold page_written, page_name in *.
  destruct (build_request h iv token) as [req filedate]. cbn [fst snd] in *.
  rewrite Hsw, Hm. unfold WriteFile. cbn [dir]. rewrite Hwf.
  reflexivity.
Qed.

(** C2, at a failing input: the first reply of a sub-interval is
    [noRecordsMatch] without a resumption token.  The [break] leaves the
    switch only, so the reply is written as page 0 before the loop stops
    on the empty token, and [finalize] promotes it. *)
Theorem noRecordsMatch_first_page_is_written :
  pages sample_env sample_harvest sample_interval "-tmp-42"
        [noRecordsMatch_reply] "" 0 0 empty_world
  = (Break, [],
          mkWorld {["2020-01-31-00000000.xml-tmp-42" := mkFile "<error/>" false]}
                  [(build_request sample_harvest sample_interval "").1] 0 0) /\
  option_map (fun r => (r.1.1, Files (dir r.2)))
    (runInterval sample_env sample_harvest sample_interval
                 [noRecordsMatch_reply] empty_world)
  = Some (None, ["2020-01-31-00000000.xml.gz"]).
Proof. vm_compute. split; reflexivity. Qed.

(** ** finalize *)

(** C1, at a failing input: three pages wait for promotion, the first two
    are promoted and the third is refused with [EACCES].  The rollback
    removes the first promoted file only, although that removal
    succeeds: it returns at once with the purge directive attached, its
    second entry being the nil result of [os.Remove].  The second
    promoted file stays in the cache, which before the batch held the
    file of the earlier run only. *)
Theorem finalize_rollback_leaves_promoted_file :
  (finalize third_move_denied sample_harvest "-tmp-42" batch_dir).1 =
    Some (MultiError
            [Some (PathError "rename" "2020-01-31-00000002.xml-tmp-42" EACCES);
             None;
             Some (Errorf ("inconsistent cache state; start over and purge "
                           ++ Dir third_move_denied sample_harvest))]) /\
  Files (finalize third_move_denied sample_harvest "-tmp-42" batch_dir).2 =
    ["2019-12-31-00000000.xml.gz"; "2020-01-31-00000001.xml.gz"] /\
  Files batch_dir = ["2019-12-31-00000000.xml.gz"].
Proof. vm_compute. repeat split. Qed.

(** The glob of a batch of three pages written into a directory that had
    no file of this batch. *)
Lemma glob_three_pages (fd tail : string) (f0 f1 f2 : File) (d : gmap string File) :
  all_bytes numeric fd = true -> all_bytes numeric tail = true ->
  temporaryFilesSuffix ("-tmp-" ++ tail) d = [] ->
  temporaryFilesSuffix ("-tmp-" ++ tail)
    (<[page_name fd 2 ("-tmp-" ++ tail) := f2]>
       (<[page_name fd 1 ("-tmp-" ++ tail) := f1]>
          (<[page_name fd 0 ("-tmp-" ++ tail) := f0]> d)))
  = [page_name fd 0 ("-tmp-" ++ tail); page_name fd 1 ("-tmp-" ++ tail);
     page_name fd 2 ("-tmp-" ++ tail)].
Proof.
  intros Hfd Htail Hnone. unfold temporaryFilesSuffix in *.
  apply MustGlob_unique.
  - apply batch_names_sorted.
  - apply batch_names_NoDup.
  - intros x. cbn [In]. split.
    + intros [<- | [<- | [<- | []]]];
        (split; [| apply glob_page_name; assumption]).
      * rewrite lookup_insert_ne, lookup_insert_ne, lookup_insert_eq by differ. eauto.
      * rewrite lookup_insert_ne, lookup_insert_eq by differ. eauto.
      * rewrite lookup_insert_eq. eauto.
    + intros [Hx Hm].
      destruct (decide (page_name fd 2 ("-tmp-" ++ tail) = x)) as [|H2]; [auto |].
      destruct (decide (page_name fd 1 ("-tmp-" ++ tail) = x)) as [|H1]; [auto |].
      destruct (decide (page_name fd 0 ("-tmp-" ++ tail) = x)) as [|H0]; [auto |].
      exfalso. rewrite !lookup_insert_ne in Hx by assumption.
      assert (Hin : In x (MustGlob ("*.xml" ++ "-tmp-" ++ tail) d))
        by (apply In_MustGlob; auto).
      rewrite Hnone in Hin. destruct Hin.
Qed.

Lemma not_in_batch (sfx name : string) (d : gmap string File) :
  temporaryFilesSuffix sfx d = [] ->
  glob_match ("*.xml" ++ sfx) name = true ->
  d !! name = None.
Proof.
  intros Hnone Hm. destruct (d !! name) as [f|] eqn:Hd; [| reflexivity].
  assert (Hin : In name (temporaryFilesSuffix sfx d))
    by (apply In_MustGlob; split; [rewrite Hd; eauto | exact Hm]).
  rewrite Hnone in Hin. destruct Hin.
Qed.

(** Promoting a batch of three pages when nothing fails. *)
Lemma promote_three_pages (env : Env) (h : Harvest) (fd tail : string)
    (b0 b1 b2 : string) (d : gmap string File) :
  all_bytes numeric fd = true -> all_bytes numeric tail = true ->
  (forall name, move_fault (faults env) name = None) ->
  temporaryFilesSuffix ("-tmp-" ++ tail) d = [] ->
  finalize env h ("-tmp-" ++ tail)
    (<[page_name fd 2 ("-tmp-" ++ tail) := mkFile b2 false]>
       (<[page_name fd 1 ("-tmp-" ++ tail) := mkFile b1 false]>
          (<[page_name fd 0 ("-tmp-" ++ tail) := mkFile b0 false]> d)))
  = (None,
     <[promoted_name fd 2 := mkFile b2 true]>
       (<[promoted_name fd 1 := mkFile b1 true]>
          (<[promoted_name fd 0 := mkFile b0 true]> d))).
Proof.
  intros Hfd Htail Hmv Hnone. unfold finalize.
  rewrite glob_three_pages by assumption.
  pose proof (not_in_batch _ _ _ Hnone (glob_page_name fd tail 0 Hfd Htail)) as Hn0.
  pose proof (not_in_batch _ _ _ Hnone (glob_page_name fd tail 1 Hfd Htail)) as Hn1.
  pose proof (not_in_batch _ _ _ Hnone (glob_page_name fd tail 2 Hfd Htail)) as Hn2.
  cbn [promote]. rewrite !promoted_page_name by assumption.
  unfold MoveAndCompress. rewrite !Hmv.
  rewrite lookup_insert_ne, lookup_insert_ne, lookup_insert_eq by differ.
  cbn [body].
  rewrite lookup_insert_ne, lookup_delete_ne, lookup_insert_ne, lookup_insert_eq
    by differ.
  cbn [body].
  rewrite lookup_insert_ne, lookup_delete_ne, lookup_insert_ne, lookup_delete_ne,
    lookup_insert_eq by differ.
  cbn [body]. f_equal.
  apply map_eq. intros x.
  repeat (rewrite lookup_insert || rewrite lookup_delete).
  repeat case_decide; subst; try reflexivity; try congruence;
    match goal with
    | H : _ = _ |- _ => exfalso; revert H; differ
    end.
Qed.

(** ** Three empty pages *)

Lemma filedate_numeric (h : Harvest) (iv : Interval) :
  all_bytes numeric (filedate h iv) = true.
Proof.
  unfold filedate, build_request.
  destruct (DisableSelectiveHarvesting h); apply all_bytes_Format_day.
Qed.

(** The loop on three empty pages with tokens when three empty pages are
    the limit. *)
Lemma pages_three_empty (env : Env) (h : Harvest) (iv : Interval) (suffix : string)
    (r0 r1 r2 : Response) (b0 b1 b2 : string)
    (script : list (result Response)) (w : World) :
  MaxEmptyResponses h = 3 ->
  MaxRequests h <> 0 -> MaxRequests h <> 1 -> MaxRequests h <> 2 ->
  empty_token_page r0 b0 -> empty_token_page r1 b1 -> empty_token_page r2 b2 ->
  (forall name, write_fault (faults env) name = None) ->
  pages env h iv suffix (Ok r0 :: Ok r1 :: Ok r2 :: script) "" 0 0 w =
  (Break, script,
        mkWorld
          (<[page_name (filedate h iv) 2 suffix := mkFile b2 false]>
             (<[page_name (filedate h iv) 1 suffix := mkFile b1 false]>
                (<[page_name (filedate h iv) 0 suffix := mkFile b0 false]> (dir w))))
          (sent w ++ [(build_request h iv "").1;
                      (build_request h iv (ResumptionToken r0)).1;
                      (build_request h iv (ResumptionToken r1)).1])
          (slept w) (draws w)).
Proof.
  intros Hmax H0 H1 H2 (Hs0 & Hr0 & Ht0 & Hm0) (Hs1 & Hr1 & Ht1 & Hm1)
         (Hs2 & Hr2 & Ht2 & Hm2) Hwf.
  apply String.eqb_neq in Ht0, Ht1, Ht2.
  rewrite (pages_written_page env h iv suffix r0 _ "" 0 0 w b0) by auto.
  rewrite Ht0. unfold empty_streak at 1 2. rewrite Hr0, Hmax. cbn [List.length Z.of_nat Z.ltb Z.compare Z.add Z.eqb Pos.eqb].
  rewrite (pages_written_page env h iv suffix r1 _ _ 1 1 _ b1) by auto.
  rewrite Ht1. unfold empty_streak at 1 2. rewrite Hr1, Hmax. cbn [List.length Z.of_nat Z.ltb Z.compare Z.add Pos.add Pos.succ Z.eqb Pos.eqb].
  rewrite (pages_written_page env h iv suffix r2 _ _ 2 2 _ b2) by auto.
  rewrite Ht2. unfold empty_streak at 1. rewrite Hr2, Hmax. cbn [List.length Z.of_nat Z.ltb Z.compare Z.add Pos.add Pos.succ Z.eqb Pos.eqb].
  unfold page_written. cbn [dir sent slept draws].
  rewrite (filedate_token h iv (ResumptionToken r0)),
    (filedate_token h iv (ResumptionToken r1)).
  fold (filedate h iv). rewrite <- !app_assoc. reflexivity.
Qed.

(** C8: the empty-response counter after a written page is 0 if the page
    had a record and one more than before if it had none.  A page without
    token ends the loop; after a page with a token the driver stops with
    success when the counter equals [MaxEmptyResponses] and goes on to
    the next page, with the counter, otherwise.  With
    [MaxEmptyResponses = 3] and three empty pages that each carry a
    token, the pages 0, 1 and 2 and no other are written, and [finalize]
    promotes all three, in a cache directory whose path holds no
    metacharacter of [filepath.Glob] and not the suffix of the batch. *)
Theorem empty_responses_stop_driver (env : Env) (h : Harvest) (iv : Interval) :
  (forall suffix resp script token i empty w b,
      MaxRequests h <> i ->
      error_switch resp = LeaveSwitch ->
      Marshal resp = Ok b ->
      write_fault (faults env) (page_name (build_request h iv token).2 i suffix) = None ->
      (Records resp <> [] -> empty_streak resp empty = 0) /\
      (Records resp = [] -> empty_streak resp empty = empty + 1) /\
      (ResumptionToken resp = "" ->
       pages env h iv suffix (Ok resp :: script) token i empty w =
       (Break, script, page_written h iv suffix token i b w)) /\
      (ResumptionToken resp <> "" ->
       empty_streak resp empty = MaxEmptyResponses h ->
       pages env h iv suffix (Ok resp :: script) token i empty w =
       (Break, script, page_written h iv suffix token i b w)) /\
      (ResumptionToken resp <> "" ->
       empty_streak resp empty <> MaxEmptyResponses h ->
       pages env h iv suffix (Ok resp :: script) token i empty w =
       pages env h iv suffix script (ResumptionToken resp) (i + 1)
             (empty_streak resp empty) (page_written h iv suffix token i b w))) /\
  (forall r0 r1 r2 b0 b1 b2 script w,
      MaxEmptyResponses h = 3 ->
      MaxRequests h <> 0 -> MaxRequests h <> 1 -> MaxRequests h <> 2 ->
      empty_token_page r0 b0 -> empty_token_page r1 b1 -> empty_token_page r2 b2 ->
      (forall name, write_fault (faults env) name = None) ->
      (forall name, move_fault (faults env) name = None) ->
      temporaryFilesSuffix (batch_suffix env w) (dir w) = [] ->
      literal_dir env h ->
      suffix_free_dir env h (batch_suffix env w) ->
      temporaryFilesSuffix (batch_suffix env w)
        (<[page_name (filedate h iv) 2 (batch_suffix env w) := mkFile b2 false]>
           (<[page_name (filedate h iv) 1 (batch_suffix env w) := mkFile b1 false]>
              (<[page_name (filedate h iv) 0 (batch_suffix env w) := mkFile b0 false]>
                 (dir w))))
      = [page_name (filedate h iv) 0 (batch_suffix env w);
         page_name (filedate h iv) 1 (batch_suffix env w);
         page_name (filedate h iv) 2 (batch_suffix env w)] /\
      pages env h iv (batch_suffix env w) (Ok r0 :: Ok r1 :: Ok r2 :: script) "" 0 0
            (mkWorld (dir w) (sent w) (slept w) (S (draws w)))
      = (Break, script,
              mkWorld
                (<[page_name (filedate h iv) 2 (batch_suffix env w) := mkFile b2 false]>
                   (<[page_name (filedate h iv) 1 (batch_suffix env w) := mkFile b1 false]>
                      (<[page_name (filedate h iv) 0 (batch_suffix env w) := mkFile b0 false]>
                         (dir w))))
                (sent w ++ [(build_request h iv "").1;
                            (build_request h iv (ResumptionToken r0)).1;
                            (build_request h iv (ResumptionToken r1)).1])
                (slept w) (S (draws w))) /\
      runInterval env h iv (Ok r0 :: Ok r1 :: Ok r2 :: script) w
      = Some (None, script,
              mkWorld
                (<[promoted_name (filedate h iv) 2 := mkFile b2 true]>
                   (<[promoted_name (filedate h iv) 1 := mkFile b1 true]>
                      (<[promoted_name (filedate h iv) 0 := mkFile b0 true]> (dir w))))
                (sent w ++ [(build_request h iv "").1;
                            (build_request h iv (ResumptionToken r0)).1;
                            (build_request h iv (ResumptionToken r1)).1])
                (slept w) (S (draws w)))).
Proof.
  split.
  - intros suffix resp script token i empty w b Hi Hsw Hm Hwf.
    rewrite (pages_written_page env h iv suffix resp script token i empty w b)
      by assumption.
    split; [| split; [| split; [| split]]].
    + unfold empty_streak. destruct (Records resp); [congruence | reflexivity].
    + unfold empty_streak. intros ->. reflexivity.
    + intros ->. reflexivity.
    + intros Htok%String.eqb_neq ->. rewrite Htok, Z.eqb_refl. reflexivity.
    + intros Htok%String.eqb_neq Hne%Z.eqb_neq. rewrite Htok, Hne. reflexivity.
  - intros r0 r1 r2 b0 b1 b2 script w Hmax H0 H1 H2 Hp0 Hp1 Hp2 Hwf Hmv Hnone _ _.
    pose proof (filedate_numeric h iv) as Hfd.
    pose proof (all_bytes_appendInt (rand_Intn env (draws w)) 0) as Htail.
    fold (itoa (rand_Intn env (draws w))) in Htail.
    unfold batch_suffix in *.
    pose proof (pages_three_empty env h iv
                  ("-tmp-" ++ itoa (rand_Intn env (draws w)))
                  r0 r1 r2 b0 b1 b2 script
                  (mkWorld (dir w) (sent w) (slept w) (S (draws w)))
                  Hmax H0 H1 H2 Hp0 Hp1 Hp2 Hwf) as Hpages.
    cbn [dir sent slept draws] in Hpages.
    split; [apply glob_three_pages; assumption |].
    split; [exact Hpages |].
    unfold runInterval. rewrite Hpages. cbn [dir].
    rewrite promote_three_pages by assumption.
    reflexivity.
Qed.

Lemma empty_responses_stop_driver_witness :
  option_map (fun r => (r.1.1, Files (dir r.2)))
    (runInterval sample_env sample_harvest sample_interval
       [page "t1" [] "<p0/>"; page "t2" [] "<p1/>"; page "t3" [] "<p2/>";
        page "" ["r"] "<p3/>"]
       empty_world)
  = Some (None, ["2020-01-31-00000000.xml.gz"; "2020-01-31-00000001.xml.gz";
                 "2020-01-31-00000002.xml.gz"]).
Proof.
  destruct (empty_responses_stop_driver sample_env sample_harvest sample_interval)
    as [_ Hscenario].
  destruct (Hscenario (mkResponse "" "" [] "t1" (Ok "<p0/>"))
                      (mkResponse "" "" [] "t2" (Ok "<p1/>"))
                      (mkResponse "" "" [] "t3" (Ok "<p2/>"))
                      "<p0/>" "<p1/>" "<p2/>"
                      [page "" ["r"] "<p3/>"] empty_world)
    as (_ & _ & Hrun).
  - reflexivity.
  - discriminate.
  - discriminate.
  - discriminate.
  - repeat split; discriminate.
  - repeat split; discriminate.
  - repeat split; discriminate.
  - reflexivity.
  - reflexivity.
  - vm_compute. reflexivity.
  - vm_compute. reflexivity.
  - vm_compute. reflexivity.
  - unfold page in *. rewrite Hrun. vm_compute. reflexivity.
Defined.

(** ** run *)

(** C4, at a failing input: the planner fails with
    [ErrInvalidEarliestDate] and the deferred cleanup cannot remove the
    temporary file left in the cache.  [run] returns the cleanup error
    alone: the aggregate built from both is overwritten by the
    assignment that follows it, for any two errors. *)
Theorem run_returns_cleanup_error_only :
  option_map (fun r => r.1.1)
    (run (fun iv => [iv]) (fun iv => [iv]) remove_denied
         (set_Identify (mkIdentify "YYYY" "2020") sample_harvest)
         [] (mkWorld leftover_dir [] 0 0))
  = Some (Some (PathError "remove" "2020-01-31-00000000.xml-tmp-7" EACCES)) /\
  (forall err e, run_deferred (Some err) (Some e) = Some e) /\
  (forall e, run_deferred None (Some e) = Some e).
Proof. split; [vm_compute; reflexivity | split; reflexivity]. Qed.

(** * Further properties *)

(** ** PrependSchema *)

Lemma HasPrefix_append (p s : string) : HasPrefix (p ++ s) p = true.
Proof.
  induction p as [|c p IH]; [destruct s; reflexivity |].
  rewrite append_cons. cbn [HasPrefix]. rewrite Ascii.eqb_refl. exact IH.
Qed.

(** X1: [PrependSchema] always returns a string that starts with [http],
    applying it twice is applying it once, and it leaves a string as it
    is exactly when the string already starts with [http]. *)
Theorem PrependSchema_idempotent (s : string) :
  HasPrefix (PrependSchema s) "http" = true /\
  PrependSchema (PrependSchema s) = PrependSchema s /\
  (PrependSchema s = s <-> HasPrefix s "http" = true).
Proof.
  assert (H1 : HasPrefix (PrependSchema s) "http" = true).
  { unfold PrependSchema. destruct (HasPrefix s "http") eqn:Hp; [exact Hp |].
    apply (HasPrefix_append "http" ("://" ++ s)). }
  split; [exact H1 |]. split.
  - unfold PrependSchema at 1. rewrite H1. reflexivity.
  - split.
    + intros Heq. rewrite <- Heq. exact H1.
    + intros Hp. unfold PrependSchema. rewrite Hp. reflexivity.
Qed.

(** ** Sweeping temporary files *)

Lemma os_Remove_spec (ft : Faults) (name : string) (d : gmap string File) e d1 :
  os_Remove ft name d = (e, d1) ->
  (forall x, x <> name -> d1 !! x = d !! x) /\
  (d1 !! name = None \/ d1 !! name = d !! name) /\
  (remove_fault ft name = None -> d1 !! name = None) /\
  (forall err, e = Some err -> isENOENT err = false ->
               remove_fault ft name = Some err /\ d1 = d).
Proof.
  unfold os_Remove. intros H.
  destruct (remove_fault ft name) as [err|] eqn:Hf.
  - inversion H; subst. repeat split; auto; try discriminate; try congruence.
  - destruct (d !! name) as [f|] eqn:Hd; inversion H; subst.
    + repeat split; try discriminate.
      * intros x Hx. apply lookup_delete_ne. congruence.
      * left. apply lookup_delete_eq.
      * intros _. apply lookup_delete_eq.
    + split; [auto |]. split; [auto |]. split; [auto |].
      intros e1 [= <-]. discriminate.
Qed.

(** What the loop of [cleanupTemporaryFiles] does to a directory: it
    touches the listed names only, adds nothing, removes every listed name
    the system lets it remove, and stops at the first failure that is not
    a missing file. *)
Lemma cleanup_loop_spec (ft : Faults) (files : list string) :
  forall d e d1,
    cleanup_loop ft files d = (e, d1) ->
    (forall x, ~ In x files -> d1 !! x = d !! x) /\
    (forall x, d1 !! x = None \/ d1 !! x = d !! x) /\
    (e = None -> forall x, In x files -> remove_fault ft x = None -> d1 !! x = None) /\
    (forall err, e = Some err ->
       isENOENT err = false /\ exists x, In x files /\ remove_fault ft x = Some err).
Proof.
  induction files as [|name files IH]; intros d e d1 H; cbn [cleanup_loop] in H.
  - inversion H; subst.
    split; [intros x _; reflexivity |].
    split; [intros x; right; reflexivity |].
    split; [intros _ x [] | discriminate].
  - destruct (os_Remove ft name d) as [e0 d0] eqn:Hrm.
    destruct (os_Remove_spec _ _ _ _ _ Hrm) as (Hother & Hname & Hgone & Herr).
    assert (Hcont :
      cleanup_loop ft files d0 = (e, d1) ->
      (forall x, ~ In x (name :: files) -> d1 !! x = d !! x) /\
      (forall x, d1 !! x = None \/ d1 !! x = d !! x) /\
      (e = None -> forall x, In x (name :: files) -> remove_fault ft x = None ->
                   d1 !! x = None) /\
      (forall err, e = Some err ->
         isENOENT err = false /\
         exists x, In x (name :: files) /\ remove_fault ft x = Some err)).
    { intros Hrec.
      destruct (IH _ _ _ Hrec) as (Hframe & Hnoadd & Hswept & Hfail).
      assert (Hd0 : forall x, d0 !! x = None \/ d0 !! x = d !! x).
      { intros x. destruct (decide (x = name)) as [->|Hx];
          [exact Hname | right; apply Hother, Hx]. }
      split; [| split; [| split]].
      - intros x Hx. rewrite Hframe by (intros Hin; apply Hx; right; exact Hin).
        apply Hother. intros ->. apply Hx. left. reflexivity.
      - intros x. destruct (Hnoadd x) as [Hn | Hn]; [left; exact Hn |].
        rewrite Hn. apply Hd0.
      - intros He x [<- | Hin] Hft.
        + destruct (Hnoadd name) as [Hn | Hn]; [exact Hn |].
          rewrite Hn. apply Hgone, Hft.
        + apply (Hswept He x Hin Hft).
      - intros err He. destruct (Hfail err He) as (Hne & x & Hin & Hft).
        split; [exact Hne |]. exists x. split; [right; exact Hin | exact Hft]. }
    destruct e0 as [err0|]; [| apply Hcont, H].
    destruct (isENOENT err0) eqn:Hen; [apply Hcont, H |].
    inversion H; subst.
    destruct (Herr err0 eq_refl Hen) as [Hft ->].
    split; [intros x _; reflexivity |].
    split; [intros x; right; reflexivity |].
    split; [discriminate |].
    intros e1 [= <-]. split; [exact Hen |].
    exists name. split; [left; reflexivity | exact Hft].
Qed.

Lemma MustGlob_nil (pat : string) (d : gmap string File) :
  (forall x, glob_match pat x = true -> d !! x = None) -> MustGlob pat d = [].
Proof.
  intros H. destruct (MustGlob pat d) as [|x l] eqn:Hg; [reflexivity |].
  assert (Hin : In x (MustGlob pat d)) by (rewrite Hg; left; reflexivity).
  apply In_MustGlob in Hin as [[f Hf] Hm]. rewrite (H x Hm) in Hf. discriminate.
Qed.

(** With removals that work, the sweep succeeds and empties the
    directory of temporary files, whatever else it holds. *)
Lemma cleanup_sweeps (env : Env) (d : gmap string File) :
  (forall name, remove_fault (faults env) name = None) ->
  exists d1,
    cleanupTemporaryFiles env d = (None, d1) /\
    temporaryFiles d1 = [] /\
    (forall x, glob_match "*.xml-tmp*" x = true -> d1 !! x = None) /\
    (forall x, glob_match "*.xml-tmp*" x = false -> d1 !! x = d !! x).
Proof.
  intros Hft. unfold cleanupTemporaryFiles.
  destruct (cleanup_loop (faults env) (temporaryFiles d) d) as [e d1] eqn:Hc.
  destruct (cleanup_loop_spec _ _ _ _ _ Hc) as (Hframe & Hnoadd & Hswept & Hfail).
  assert (He : e = None).
  { destruct e as [err|]; [| reflexivity].
    destruct (Hfail err eq_refl) as (_ & x & _ & Hx). rewrite Hft in Hx. discriminate. }
  subst e. exists d1.
  assert (Hgone : forall x, glob_match "*.xml-tmp*" x = true -> d1 !! x = None).
  { intros x Hm. destruct (d !! x) as [f|] eqn:Hd.
    - apply (Hswept eq_refl); [| apply Hft].
      apply In_MustGlob. split; [rewrite Hd; eauto | exact Hm].
    - destruct (Hnoadd x) as [Hn | Hn]; congruence. }
  split; [reflexivity |]. split; [apply MustGlob_nil, Hgone |].
  split; [exact Hgone |].
  intros x Hm. apply Hframe. intros Hin.
  apply In_MustGlob in Hin as [_ Hm2]. congruence.
Qed.
(** X2: in a cache directory whose path holds no metacharacter of
    [filepath.Glob], and with removals that work,
    [cleanupTemporaryFiles] succeeds, no temporary file is left, and
    every other file is kept as it was. *)
Theorem cleanupTemporaryFiles_sweeps (env : Env) (h : Harvest)
    (d : gmap string File) :
  literal_dir env h ->
  (forall name, remove_fault (faults env) name = None) ->
  (cleanupTemporaryFiles env d).1 = None /\
  temporaryFiles (cleanupTemporaryFiles env d).2 = [] /\
  (forall x, glob_match "*.xml-tmp*" x = false ->
             (cleanupTemporaryFiles env d).2 !! x = d !! x).
Proof.
  intros _ Hft. destruct (cleanup_sweeps env d Hft) as (d1 & -> & Hnil & _ & Hkeep).
  cbn [fst snd]. auto.
Qed.

Lemma cleanupTemporaryFiles_sweeps_witness :
  (cleanupTemporaryFiles sample_env batch_dir).1 = None /\
  temporaryFiles (cleanupTemporaryFiles sample_env batch_dir).2 = [] /\
  (cleanupTemporaryFiles sample_env batch_dir).2 !! "2019-12-31-00000000.xml.gz"
  = Some (mkFile "<old/>" true).
Proof.
  destruct (cleanupTemporaryFiles_sweeps sample_env sample_harvest batch_dir)
    as (He & Hnil & Hkeep).
  - vm_compute. reflexivity.
  - reflexivity.
  - split; [exact He |]. split; [exact Hnil |].
    rewrite Hkeep by reflexivity. reflexivity.
Defined.

(** X3: [cleanupTemporaryFiles] never adds a file and never touches a
    file that is not temporary; it fails only with the error of a removal
    that the system refused for another reason than a missing file. *)
Theorem cleanupTemporaryFiles_removes_temporary_only (env : Env)
    (d : gmap string File) :
  (forall x, glob_match "*.xml-tmp*" x = false ->
             (cleanupTemporaryFiles env d).2 !! x = d !! x) /\
  (forall x, (cleanupTemporaryFiles env d).2 !! x = None \/
             (cleanupTemporaryFiles env d).2 !! x = d !! x) /\
  (forall err, (cleanupTemporaryFiles env d).1 = Some err ->
     isENOENT err = false /\
     exists x, In x (temporaryFiles d) /\ remove_fault (faults env) x = Some err).
Proof.
  unfold cleanupTemporaryFiles.
  destruct (cleanup_loop (faults env) (temporaryFiles d) d) as [e d1] eqn:Hc.
  destruct (cleanup_loop_spec _ _ _ _ _ Hc) as (Hframe & Hnoadd & _ & Hfail).
  cbn [fst snd]. split; [| split; [exact Hnoadd | exact Hfail]].
  intros x Hm. apply Hframe. intros Hin.
  apply In_MustGlob in Hin as [_ Hm2]. congruence.
Qed.

(** ** run and the sweep *)

(** X4: in a cache directory whose path holds no metacharacter of
    [filepath.Glob], and when removals work, [run] returns whatever its
    body returned and leaves the cache without temporary file; the files
    that are not temporary are those the body left. *)
Theorem run_leaves_no_temporary_file
    (DailyIntervals MonthlyIntervals : Interval -> list Interval)
    (env : Env) (h : Harvest) (script : list (result Response)) (w : World)
    (err : option error) (script1 : list (result Response)) (w1 : World) :
  literal_dir env h ->
  (forall name, remove_fault (faults env) name = None) ->
  run_body DailyIntervals MonthlyIntervals env h script w = Some (err, script1, w1) ->
  exists d2,
    run DailyIntervals MonthlyIntervals env h script w
    = Some (err, script1, set_dir d2 w1) /\
    temporaryFiles d2 = [] /\
    (forall x, glob_match "*.xml-tmp*" x = false -> d2 !! x = dir w1 !! x).
Proof.
  intros _ Hft Hbody. unfold run. rewrite Hbody.
  destruct (cleanup_sweeps env (dir w1) Hft) as (d2 & -> & Hnil & _ & Hkeep).
  exists d2. cbn [run_deferred]. auto.
Qed.

Lemma run_leaves_no_temporary_file_witness :
  exists d2,
    run (fun iv => [iv]) (fun iv => [iv]) sample_env
        (set_Identify (mkIdentify "YYYY" "2020") sample_harvest) []
        (mkWorld leftover_dir [] 0 0)
    = Some (Some ErrInvalidEarliestDate, [], set_dir d2 (mkWorld leftover_dir [] 0 0)) /\
    temporaryFiles d2 = [].
Proof.
  destruct (run_leaves_no_temporary_file (fun iv => [iv]) (fun iv => [iv]) sample_env
              (set_Identify (mkIdentify "YYYY" "2020") sample_harvest) []
              (mkWorld leftover_dir [] 0 0)
              (Some ErrInvalidEarliestDate) [] (mkWorld leftover_dir [] 0 0))
    as (d2 & Hrun & Hnil & _).
  - vm_compute. reflexivity.
  - reflexivity.
  - reflexivity.
  - exists d2. split; [exact Hrun | exact Hnil].
Defined.
(** ** More on the pagination driver *)

(** One turn of the loop: a request is logged, then the loop either stops
    or goes on with page [i + 1]; the directory is as before or holds one
    more uncompressed file under the name of page [i]. *)
Lemma pages_step (env : Env) (h : Harvest) (iv : Interval) (suffix : string)
    (reply : result Response) (script : list (result Response))
    (token : string) (i empty : Z) (w : World) :
  MaxRequests h <> i ->
  exists w1,
    sent w1 = (sent w ++ [(build_request h iv token).1])%list /\
    draws w1 = draws w /\
    (dir w1 = dir w \/
     exists b, dir w1 = <[page_name (filedate h iv) i suffix := mkFile b false]> (dir w)) /\
    (slept w1 = slept w \/ slept w1 = slept w + 30) /\
    ((exists ex, ex <> Exhausted /\
        pages env h iv suffix (reply :: script) token i empty w = (ex, script, w1)) \/
     (exists token1 empty1,
        (token1 = token \/
         exists resp, reply = Ok resp /\ token1 = ResumptionToken resp) /\
        pages env h iv suffix (reply :: script) token i empty w
        = pages env h iv suffix script token1 (i + 1) empty1 w1)).
Proof.
  intros Hi. apply Z.eqb_neq in Hi. simpl. rewrite Hi.
  unfold filedate. rewrite <- (filedate_token h iv token).
  destruct (build_request h iv token) as [req fd]. cbn [fst snd].
  destruct reply as [resp|err].
  - destruct (error_switch resp).
    + destruct (Marshal resp) as [b|err].
      * unfold WriteFile. cbn [dir].
        destruct (write_fault (faults env) _).
        -- eexists. split; [| split; [| split; [| split]]];
             [| | | | left; eexists; split; [| reflexivity]; discriminate];
             cbn; auto.
        -- destruct (GetResumptionToken resp =? "")%string.
           { eexists. split; [| split; [| split; [| split]]];
             [| | | | left; eexists; split; [| reflexivity]; discriminate];
             cbn; auto.
             right. exists b. reflexivity. }
           destruct (_ =? MaxEmptyResponses h).
           { eexists. split; [| split; [| split; [| split]]];
             [| | | | left; eexists; split; [| reflexivity]; discriminate];
             cbn; auto.
             right. exists b. reflexivity. }
           eexists. split; [| split; [| split; [| split]]];
             [| | | | right; eexists; eexists; split; [| reflexivity]];
             cbn; auto.
           ++ right. exists b. reflexivity.
           ++ right. exists resp. auto.
      * eexists. split; [| split; [| split; [| split]]];
          [| | | | left; eexists; split; [| reflexivity]; discriminate];
          cbn; auto.
    + eexists. split; [| split; [| split; [| split]]];
        [| | | | right; eexists; eexists; split; [| reflexivity]];
        cbn; auto.
    + eexists. split; [| split; [| split; [| split]]];
        [| | | | left; eexists; split; [| reflexivity]; discriminate];
        cbn; auto.
  - destruct (IgnoreHTTPErrors h);
      (eexists; split; [| split; [| split; [| split]]];
       [| | | | left; eexists; split; [| reflexivity]; discriminate];
       cbn; auto).
Qed.

Lemma pages_stop (env : Env) (h : Harvest) (iv : Interval) (suffix : string)
    (script : list (result Response)) (token : string) (i empty : Z) (w : World) :
  MaxRequests h = i \/ script = [] ->
  (pages env h iv suffix script token i empty w).2 = w.
Proof.
  intros [Hi | ->].
  - destruct script; simpl; rewrite Hi, Z.eqb_refl; reflexivity.
  - simpl. destruct (MaxRequests h =? i); [reflexivity |].
    destruct (build_request h iv token). reflexivity.
Qed.

(** X5: counted from page [i <= MaxRequests], the loop issues at most
    [MaxRequests - i] requests, whatever the server replies. *)
Theorem pages_request_bound (env : Env) (h : Harvest) (iv : Interval)
    (suffix : string) (script : list (result Response)) (token : string)
    (i empty : Z) (w : World) :
  i <= MaxRequests h ->
  Z.of_nat (List.length (sent (pages env h iv suffix script token i empty w).2))
  <= Z.of_nat (List.length (sent w)) + (MaxRequests h - i).
Proof.
  revert token i empty w.
  induction script as [|reply script IH]; intros token i empty w Hi.
  - rewrite pages_stop by auto. lia.
  - destruct (Z.eq_dec (MaxRequests h) i) as [He|Hne].
    { rewrite pages_stop by auto. lia. }
    destruct (pages_step env h iv suffix reply script token i empty w Hne)
      as (w1 & Hs & _ & _ & _ & [(ex & _ & ->) | (token1 & empty1 & _ & ->)]).
    + cbn [snd]. rewrite Hs, length_app. simpl. lia.
    + specialize (IH token1 (i + 1) empty1 w1 ltac:(lia)).
      rewrite Hs, length_app in IH. simpl in IH. lia.
Qed.

Lemma pages_request_bound_witness :
  Z.of_nat (List.length (sent (pages sample_env (set_MaxRequests 2 sample_harvest)
     sample_interval "-tmp-42"
     [page "a" ["r"] "<p0/>"; page "b" ["r"] "<p1/>"; page "c" ["r"] "<p2/>"]
     "" 0 0 empty_world).2))
  <= Z.of_nat (List.length (sent empty_world)) + (2 - 0).
Proof.
  apply (pages_request_bound sample_env (set_MaxRequests 2 sample_harvest)
           sample_interval "-tmp-42"
           [page "a" ["r"] "<p0/>"; page "b" ["r"] "<p1/>"; page "c" ["r"] "<p2/>"]
           "" 0 0 empty_world).
  simpl. lia.
Defined.

(** What the loop leaves of the world it was entered with. *)
Lemma pages_frame (env : Env) (h : Harvest) (iv : Interval)
    (suffix : string) (script : list (result Response)) (token : string)
    (i empty : Z) (w : World) :
  (forall x,
     dir (pages env h iv suffix script token i empty w).2 !! x = dir w !! x \/
     exists k b, i <= k /\ x = page_name (filedate h iv) k suffix /\
       dir (pages env h iv suffix script token i empty w).2 !! x
       = Some (mkFile b false)) /\
  draws (pages env h iv suffix script token i empty w).2 = draws w /\
  slept w <= slept (pages env h iv suffix script token i empty w).2.
Proof.
  revert token i empty w.
  induction script as [|reply script IH]; intros token i empty w.
  - rewrite pages_stop by auto. split; [auto | split; [reflexivity | lia]].
  - destruct (Z.eq_dec (MaxRequests h) i) as [He|Hne].
    { rewrite pages_stop by auto. split; [auto | split; [reflexivity | lia]]. }
    destruct (pages_step env h iv suffix reply script token i empty w Hne)
      as (w1 & _ & Hd & Hdir & Hsl & Hnext).
    assert (Hone : forall x,
               dir w1 !! x = dir w !! x \/
               exists k b, i <= k /\ x = page_name (filedate h iv) k suffix /\
                           dir w1 !! x = Some (mkFile b false)).
    { intros x. destruct Hdir as [-> | [b ->]]; [auto |].
      destruct (decide (x = page_name (filedate h iv) i suffix)) as [-> | Hx].
      - right. exists i, b. rewrite lookup_insert_eq. split; [lia | auto].
      - left. apply lookup_insert_ne. congruence. }
    destruct Hnext as [(ex & _ & ->) | (token1 & empty1 & _ & ->)].
    + cbn [snd]. split; [exact Hone | split; [exact Hd | lia]].
    + destruct (IH token1 (i + 1) empty1 w1) as (Hf & Hd1 & Hs1).
      split; [| split; [congruence | lia]].
      intros x. destruct (Hf x) as [Heq | (k & b & Hk & Hx & Hl)].
      * rewrite Heq. apply Hone.
      * right. exists k, b. split; [lia | auto].
Qed.

(** X6: the loop writes nothing but pages of its own batch.  A name of
    the directory either holds what it held before, or it is the name of
    a page [k >= i] of this batch and holds an uncompressed file.  The
    random source is not consulted and the time slept never decreases. *)
Theorem pages_writes_only_batch_pages (env : Env) (h : Harvest) (iv : Interval)
    (suffix : string) (script : list (result Response)) (token : string)
    (i empty : Z) (w : World) :
  (forall x,
     dir (pages env h iv suffix script token i empty w).2 !! x = dir w !! x \/
     exists k b, i <= k /\ x = page_name (filedate h iv) k suffix /\
       dir (pages env h iv suffix script token i empty w).2 !! x
       = Some (mkFile b false)) /\
  draws (pages env h iv suffix script token i empty w).2 = draws w /\
  slept w <= slept (pages env h iv suffix script token i empty w).2.
Proof. exact (pages_frame env h iv suffix script token i empty w). Qed.

(** The requests of the loop carry the token the loop was entered with or
    a token a reply of the server held. *)
Lemma pages_tokens (env : Env) (h : Harvest) (iv : Interval) (suffix : string)
    (script : list (result Response)) :
  forall token i empty w,
  exists new,
    sent (pages env h iv suffix script token i empty w).2 = (sent w ++ new)%list /\
    Forall (fun r => exists tok,
              r = (build_request h iv tok).1 /\
              (tok = token \/
               exists resp, In (Ok resp) script /\ tok = ResumptionToken resp)) new.
Proof.
  induction script as [|reply script IH]; intros token i empty w.
  - rewrite pages_stop by auto. exists []. rewrite app_nil_r. auto.
  - destruct (Z.eq_dec (MaxRequests h) i) as [He|Hne].
    { rewrite pages_stop by auto. exists []. rewrite app_nil_r. auto. }
    destruct (pages_step env h iv suffix reply script token i empty w Hne)
      as (w1 & Hs & _ & _ & _ & [(ex & _ & ->) | (token1 & empty1 & Htok & ->)]).
    + cbn [snd]. exists [(build_request h iv token).1]. split; [exact Hs |].
      constructor; [| constructor]. exists token. auto.
    + destruct (IH token1 (i + 1) empty1 w1) as (new & Hs1 & Hall).
      exists ((build_request h iv token).1 :: new). split.
      * rewrite Hs1, Hs, <- app_assoc. reflexivity.
      * constructor; [exists token; auto |].
        eapply Forall_impl; [exact Hall |].
        intros r (tok & -> & Hor). exists tok. split; [reflexivity |].
        destruct Hor as [-> | (resp & Hin & ->)].
        -- destruct Htok as [-> | (resp & -> & ->)]; [auto |].
           right. exists resp. split; [left; reflexivity | reflexivity].
        -- right. exists resp. split; [right; exact Hin | reflexivity].
Qed.

(** X7: every request of a sub-interval is a ListRecords request for the
    base URL, set and format of the harvest, and its resumption token is
    empty or a token that a reply of the server carried, unchanged. *)
Theorem runInterval_requests_echo_tokens (env : Env) (h : Harvest)
    (iv : Interval) (script : list (result Response)) (w : World) :
  exists new,
    sent (pages env h iv (batch_suffix env w) script "" 0 0
            (mkWorld (dir w) (sent w) (slept w) (S (draws w)))).2
    = (sent w ++ new)%list /\
    (forall err script' w',
       runInterval env h iv script w = Some (err, script', w') ->
       sent w' = (sent w ++ new)%list) /\
    Forall (fun r =>
              req_Verb r = "ListRecords" /\ req_BaseURL r = BaseURL h /\
              req_Set r = Set_ h /\ req_MetadataPrefix r = Format h /\
              (req_ResumptionToken r = "" \/
               exists resp, In (Ok resp) script /\
                            req_ResumptionToken r = ResumptionToken resp)) new.
Proof.
  destruct (pages_tokens env h iv (batch_suffix env w) script "" 0 0
              (mkWorld (dir w) (sent w) (slept w) (S (draws w))))
    as (new & Hs & Hall).
  exists new. split; [exact Hs |]. split.
  - intros err script' w' Hrun. unfold runInterval in Hrun.
    fold (batch_suffix env w) in Hrun.
    destruct (pages env h iv (batch_suffix env w) script "" 0 0 _)
      as [[ex s1] w1]. cbn [snd] in Hs.
    destruct ex; [| | discriminate].
    + destruct (finalize env h _ (dir w1)). inversion Hrun; subst. exact Hs.
    + inversion Hrun; subst. exact Hs.
  - eapply Forall_impl; [exact Hall |].
    intros r (tok & -> & Hor). unfold build_request.
    destruct (DisableSelectiveHarvesting h); cbn; auto 6.
Qed.
(** X8: replies with the error code InternalException are retried: each
    one costs a request with the same resumption token, thirty seconds of
    sleep and one unit of the page counter, and writes nothing.  When the
    request limit is not met on the way the loop goes on after them with
    the token and the empty-page counter it had; when the limit is met
    right after them the loop ends there. *)
Theorem InternalException_is_retried (env : Env) (h : Harvest) (iv : Interval)
    (suffix : string) (rs script : list (result Response)) (token : string)
    (i empty : Z) (w : World) :
  Forall (fun r => exists resp, r = Ok resp /\ ErrorCode resp = "InternalException") rs ->
  (forall k, 0 <= k < Z.of_nat (List.length rs) -> MaxRequests h <> i + k) ->
  pages env h iv suffix (rs ++ script)%list token i empty w
  = pages env h iv suffix script token (i + Z.of_nat (List.length rs)) empty
      (mkWorld (dir w)
         (sent w ++ repeat (build_request h iv token).1 (List.length rs))
         (slept w + 30 * Z.of_nat (List.length rs)) (draws w)) /\
  (MaxRequests h = i + Z.of_nat (List.length rs) ->
   pages env h iv suffix (rs ++ script)%list token i empty w
   = (Break, script,
      mkWorld (dir w)
        (sent w ++ repeat (build_request h iv token).1 (List.length rs))
        (slept w + 30 * Z.of_nat (List.length rs)) (draws w))).
Proof.
  intros Hall Hlim.
  assert (Hgo : pages env h iv suffix (rs ++ script)%list token i empty w
    = pages env h iv suffix script token (i + Z.of_nat (List.length rs)) empty
        (mkWorld (dir w)
           (sent w ++ repeat (build_request h iv token).1 (List.length rs))
           (slept w + 30 * Z.of_nat (List.length rs)) (draws w))).
  { revert i w Hlim.
    induction Hall as [|r rs (resp & -> & Hcode) _ IH]; intros i w Hlim.
    - simpl. rewrite Z.add_0_r, Z.add_0_r, app_nil_r. destruct w; reflexivity.
    - assert (Hi : (MaxRequests h =? i) = false).
      { apply Z.eqb_neq. specialize (Hlim 0). rewrite Z.add_0_r in Hlim.
        apply Hlim. simpl List.length. lia. }
      change ((Ok resp :: rs) ++ script)%list with (Ok resp :: (rs ++ script))%list.
      cbn [pages]. rewrite Hi.
      destruct (build_request h iv token) as [req fd] eqn:Hreq.
      unfold error_switch. rewrite Hcode. cbn [String.eqb Ascii.eqb Bool.eqb negb fst].
      cbn [dir sent slept draws].
      rewrite IH.
      + cbn [fst dir sent slept draws].
        simpl List.length. rewrite <- app_assoc. simpl app.
        f_equal; [lia |]. f_equal. lia.
      + intros k Hk. specialize (Hlim (1 + k)).
        replace (i + 1 + k) with (i + (1 + k)) by lia.
        apply Hlim. simpl List.length. lia. }
  split; [exact Hgo |].
  intros Hm. rewrite Hgo.
  destruct script; simpl; rewrite Hm, Z.eqb_refl; reflexivity.
Qed.

Lemma InternalException_is_retried_witness :
  pages sample_env sample_harvest sample_interval "-tmp-42"
    ([Ok (mkResponse "InternalException" "Could not send Message." [] "" (Ok ""));
      Ok (mkResponse "InternalException" "Could not send Message." [] "" (Ok ""))]
     ++ [page "" ["r"] "<page/>"])%list "" 0 0 empty_world
  = pages sample_env sample_harvest sample_interval "-tmp-42"
      [page "" ["r"] "<page/>"] "" (0 + 2) 0
      (mkWorld ∅
         ([] ++ repeat (build_request sample_harvest sample_interval "").1 2)
         (0 + 30 * 2) 0).
Proof.
  apply (InternalException_is_retried sample_env sample_harvest sample_interval
           "-tmp-42"
           [Ok (mkResponse "InternalException" "Could not send Message." [] "" (Ok ""));
            Ok (mkResponse "InternalException" "Could not send Message." [] "" (Ok ""))]
           [page "" ["r"] "<page/>"] "" 0 0 empty_world).
  - repeat constructor; eexists; split; reflexivity.
  - intros k Hk. simpl in *. lia.
Defined.

(** ** More on globbing *)

Lemma glob_match_plain_inv (p : string) :
  all_bytes plain p = true -> forall x, glob_match p x = true -> x = p.
Proof.
  induction p as [|c p IH]; intros Hp x Hm.
  - destruct x; [reflexivity | discriminate].
  - cbn [all_bytes] in Hp. apply andb_true_iff in Hp as [Hc Hp].
    unfold plain in Hc. apply andb_true_iff in Hc as [Hs Hq].
    apply negb_true_iff in Hs, Hq.
    rewrite glob_match_literal_cons in Hm by assumption.
    destruct x as [|a x]; [discriminate |].
    apply andb_true_iff in Hm as [Hca Hm].
    apply Ascii.eqb_eq in Hca. subst a. f_equal. apply IH; assumption.
Qed.

Lemma glob_match_star_inv (p : string) :
  forall x, glob_match (String "*" p) x = true ->
            exists a r, x = a ++ r /\ all_bytes not_slash a = true /\
                        glob_match p r = true.
Proof.
  induction x as [|c x IH]; intros Hm; rewrite glob_match_star_eq in Hm;
    apply orb_true_iff in Hm as [Hm | Hm].
  - exists "", "". auto.
  - discriminate.
  - exists "", (String c x). auto.
  - apply andb_true_iff in Hm as [Hc Hm].
    destruct (IH Hm) as (a & r & -> & Ha & Hr).
    exists (String c a), r. rewrite append_cons. cbn [all_bytes].
    unfold not_slash at 1. rewrite Hc, Ha. auto.
Qed.

Lemma glob_match_star_plain_inv (p x : string) :
  all_bytes plain p = true ->
  glob_match (String "*" p) x = true ->
  exists a, x = a ++ p /\ all_bytes not_slash a = true.
Proof.
  intros Hp Hm. destruct (glob_match_star_inv p x Hm) as (a & r & -> & Ha & Hr).
  apply (glob_match_plain_inv p Hp) in Hr. subst r. exists a. auto.
Qed.

Lemma append_empty_r (s : string) : s ++ "" = s.
Proof.
  induction s as [|c s IH]; [reflexivity |].
  rewrite append_cons, IH. reflexivity.
Qed.

Lemma glob_match_star_all (r : string) :
  all_bytes not_slash r = true -> glob_match "*" r = true.
Proof.
  intros Hr. rewrite <- (append_empty_r r).
  apply glob_match_star; [exact Hr | reflexivity].
Qed.

Lemma plain_batch_pattern (tail : string) :
  all_bytes numeric tail = true ->
  all_bytes plain (".xml" ++ "-tmp-" ++ tail) = true.
Proof.
  intros Ht. rewrite !all_bytes_app, (numeric_plain tail Ht). reflexivity.
Qed.

(** The names [temporaryFilesSuffix] can list for a batch. *)
Lemma batch_glob_inv (tail x : string) :
  all_bytes numeric tail = true ->
  glob_match ("*.xml" ++ "-tmp-" ++ tail) x = true ->
  exists a, x = a ++ ".xml-tmp-" ++ tail /\ all_bytes not_slash a = true.
Proof.
  intros Ht Hm.
  apply (glob_match_star_plain_inv (".xml" ++ "-tmp-" ++ tail) x
           (plain_batch_pattern tail Ht)) in Hm.
  exact Hm.
Qed.

Lemma last_byte_eq (c c' : ascii) :
  forall s a, s ++ String c "" = a ++ String c' "" -> c = c'.
Proof.
  induction s as [|x s IH]; intros [|y a] H;
    rewrite ?append_cons, ?append_nil in H; cbn in H.
  - congruence.
  - injection H as _ H. destruct a; discriminate.
  - injection H as _ H. destruct s; discriminate.
  - injection H as _ H. eapply IH. exact H.
Qed.

Lemma last_byte_split (P : ascii -> bool) (c : ascii) :
  forall s, all_bytes P (String c s) = true ->
            exists s' c', String c s = s' ++ String c' "" /\ P c' = true.
Proof.
  intros s. revert c.
  induction s as [|y s IH]; intros c H.
  - exists "", c. cbn [all_bytes] in H. apply andb_true_iff in H as [H _]. auto.
  - cbn [all_bytes] in H. apply andb_true_iff in H as [Hc H].
    destruct (IH y H) as (s' & c' & Heq & Hc').
    exists (String c s'), c'. rewrite append_cons, <- Heq. auto.
Qed.

(** A name that ends in [.gz] is no temporary file of a batch. *)
Lemma gz_not_in_batch (tail s : string) :
  all_bytes numeric tail = true ->
  glob_match ("*.xml" ++ "-tmp-" ++ tail) (s ++ ".gz") = false.
Proof.
  intros Ht. apply not_true_is_false. intros Hm.
  destruct (batch_glob_inv tail _ Ht Hm) as (a & Heq & _).
  assert (Hz : s ++ ".gz" = (s ++ ".g") ++ String "z" "")
    by (rewrite append_assoc; reflexivity).
  rewrite Hz in Heq. clear Hz.
  destruct tail as [|c t].
  - assert (Hr : a ++ ".xml-tmp-" ++ "" = (a ++ ".xml-tmp") ++ String "-" "")
      by (rewrite append_assoc; reflexivity).
    rewrite Hr in Heq. apply last_byte_eq in Heq. discriminate.
  - destruct (last_byte_split numeric c t Ht) as (s' & c' & Hs & Hc).
    rewrite Hs in Heq.
    assert (Hr : a ++ ".xml-tmp-" ++ s' ++ String c' ""
                 = (a ++ ".xml-tmp-" ++ s') ++ String c' "")
      by (rewrite !append_assoc; reflexivity).
    rewrite Hr in Heq. apply last_byte_eq in Heq. subst c'. discriminate.
Qed.

(** X9: the temporary files of a batch are among the files that the
    sweep at the end of [run] looks for. *)
Theorem batch_files_are_swept (env : Env) (w : World) (d : gmap string File)
    (x : string) :
  In x (temporaryFilesSuffix (batch_suffix env w) d) -> In x (temporaryFiles d).
Proof.
  unfold temporaryFilesSuffix, temporaryFiles, batch_suffix.
  rewrite !In_MustGlob. intros [Hx Hm]. split; [exact Hx |].
  destruct (batch_glob_inv _ _ (all_bytes_appendInt _ 0) Hm) as (a & -> & Ha).
  change "*.xml-tmp*" with (String "*" ".xml-tmp*").
  apply glob_match_star; [exact Ha |].
  change (".xml-tmp-" ++ itoa (rand_Intn env (draws w))) with
    (".xml-tmp" ++ String "-" (itoa (rand_Intn env (draws w)))).
  rewrite !append_cons, append_nil.
  cbn [glob_match Ascii.eqb Bool.eqb andb].
  change (glob_match "*" (String "-" (itoa (rand_Intn env (draws w)))) = true).
  apply glob_match_star_all. cbn [all_bytes]. unfold itoa.
  rewrite (numeric_not_slash _ (all_bytes_appendInt _ 0)). reflexivity.
Qed.

Lemma batch_files_are_swept_witness :
  In "2020-01-31-00000001.xml-tmp-42" (temporaryFiles batch_dir).
Proof.
  apply (batch_files_are_swept sample_env empty_world batch_dir).
  vm_compute. auto.
Defined.
(** ** More on finalize *)

Lemma MoveAndCompress_spec (ft : Faults) (src dst : string) (d : gmap string File)
    e d1 :
  MoveAndCompress ft src dst d = (e, d1) ->
  (e = None ->
   exists f, d !! src = Some f /\ move_fault ft src = None /\
             d1 = <[dst := mkFile (body f) true]> (delete src d)) /\
  (forall err, e = Some err ->
     d1 = d /\
     (move_fault ft src = Some err \/
      (d !! src = None /\ err = PathError "open" src ENOENT))).
Proof.
  unfold MoveAndCompress. intros H.
  destruct (move_fault ft src) as [err|].
  - inversion H; subst. split; [discriminate |].
    intros err0 [= <-]. auto.
  - destruct (d !! src) as [f|]; inversion H; subst.
    + split; [| discriminate]. intros _. exists f. auto.
    + split; [discriminate |]. intros err0 [= <-]. auto.
Qed.

(** The inner loop: it stops at the first name unless the promotion error
    is ENOENT, and touches nothing but the names it is given. *)
Lemma rollback_spec (env : Env) (h : Harvest) (err : error) (renamed : list string) :
  forall d e d1,
    rollback env h err renamed d = (e, d1) ->
    (forall x, ~ In x renamed -> d1 !! x = d !! x) /\
    (forall x, d1 !! x = None \/ d1 !! x = d !! x) /\
    ((e = Some err /\ (renamed = [] \/ isENOENT err = true) /\
      forall x, In x renamed -> remove_fault (faults env) x = None -> d1 !! x = None) \/
     (isENOENT err = false /\
      exists fn rest,
        renamed = fn :: rest /\
        e = Some (MultiError
                    [Some err; (os_Remove (faults env) fn d).1;
                     Some (Errorf ("inconsistent cache state; start over and purge "
                                   ++ Dir env h))]))).
Proof.
  induction renamed as [|fn rest IH]; intros d e d1 H; cbn [rollback] in H.
  - inversion H; subst. split; [auto |]. split; [auto |].
    left. split; [reflexivity |]. split; [auto |]. intros x [].
  - destruct (os_Remove (faults env) fn d) as [e0 d0] eqn:Hrm.
    destruct (os_Remove_spec _ _ _ _ _ Hrm) as (Hother & Hname & Hgone & _).
    destruct (isENOENT err) eqn:Hen.
    + destruct (IH _ _ _ H) as (Hf & Hn & Hcase).
      split; [| split].
      * intros x Hx. rewrite Hf by (intros Hin; apply Hx; right; exact Hin).
        apply Hother. intros ->. apply Hx. left; reflexivity.
      * intros x. destruct (Hn x) as [-> | ->]; [auto |].
        destruct (decide (x = fn)) as [-> | Hx]; [exact Hname |].
        right. apply Hother. exact Hx.
      * destruct Hcase as [(-> & _ & Hrem) | (Hcontra & _)]; [| discriminate].
        left. split; [reflexivity |]. split; [auto |].
        intros x [<- | Hin] Hft.
        -- destruct (Hn fn) as [Hnone | Heq]; [exact Hnone |].
           rewrite Heq. apply Hgone. exact Hft.
        -- apply Hrem; assumption.
    + inversion H; subst. split; [| split].
      * intros x Hx. apply Hother. intros ->. apply Hx. left; reflexivity.
      * intros x. destruct (decide (x = fn)) as [-> | Hx]; [exact Hname |].
        right. apply Hother. exact Hx.
      * right. split; [reflexivity |]. exists fn, rest. rewrite Hrm. split; reflexivity.
Qed.

(** The outer loop touches the names it is given, their destinations and
    the names promoted before. *)
Lemma promote_frame (env : Env) (h : Harvest) (suffix : string) (x : string)
    (files : list string) :
  forall renamed d,
    ~ In x files ->
    (forall y, In y files -> x <> strings_Replace y suffix ++ ".gz") ->
    ~ In x renamed ->
    (promote env h suffix files renamed d).2 !! x = d !! x.
Proof.
  induction files as [|y files IH]; intros renamed d Hx Hdst Hren;
    cbn [promote]; [reflexivity |].
  destruct (MoveAndCompress (faults env) y (strings_Replace y suffix ++ ".gz") d)
    as [e d0] eqn:Hmv.
  destruct (MoveAndCompress_spec _ _ _ _ _ _ Hmv) as (Hok & Hfail).
  destruct e as [err|].
  - destruct (Hfail err eq_refl) as (-> & _).
    destruct (rollback env h err renamed d) as [e1 d1] eqn:Hrb.
    destruct (rollback_spec _ _ _ _ _ _ _ Hrb) as (Hf & _). cbn [snd]. auto.
  - destruct (Hok eq_refl) as (f & _ & _ & ->).
    rewrite IH.
    + rewrite lookup_insert_ne
        by (intros Heq; apply (Hdst y); [left; reflexivity | congruence]).
      apply lookup_delete_ne. intros ->. apply Hx. left; reflexivity.
    + intros Hin. apply Hx. right; exact Hin.
    + intros z Hz. apply Hdst. right; exact Hz.
    + rewrite in_app_iff. intros [Hin | [Heq | []]]; [auto |].
      apply (Hdst y); [left; reflexivity | congruence].
Qed.

(** X10: [finalize] leaves alone every name that is neither a temporary
    file of its batch nor the permanent name of one, whether it succeeds
    or fails. *)
Theorem finalize_touches_only_its_batch (env : Env) (h : Harvest)
    (suffix : string) (d : gmap string File) (x : string) :
  glob_match ("*.xml" ++ suffix) x = false ->
  (forall y, In y (temporaryFilesSuffix suffix d) ->
             x <> strings_Replace y suffix ++ ".gz") ->
  (finalize env h suffix d).2 !! x = d !! x.
Proof.
  intros Hm Hdst. unfold finalize. apply promote_frame.
  - unfold temporaryFilesSuffix. rewrite In_MustGlob. intros [_ Hm2]. congruence.
  - exact Hdst.
  - intros [].
Qed.

Lemma finalize_touches_only_its_batch_witness :
  (finalize third_move_denied sample_harvest "-tmp-42" batch_dir).2
    !! "2019-12-31-00000000.xml.gz"
  = batch_dir !! "2019-12-31-00000000.xml.gz".
Proof.
  apply (finalize_touches_only_its_batch third_move_denied sample_harvest
           "-tmp-42" batch_dir "2019-12-31-00000000.xml.gz").
  - reflexivity.
  - intros y Hy. vm_compute in Hy.
    destruct Hy as [<- | [<- | [<- | []]]]; vm_compute; discriminate.
Defined.

(** The outer loop when every promotion succeeds. *)
Lemma promote_all (env : Env) (h : Harvest) (suffix : string) (files : list string) :
  forall renamed d,
    List.NoDup files ->
    (forall y, In y files -> is_Some (d !! y)) ->
    (forall y, In y files -> move_fault (faults env) y = None) ->
    (forall y z, In y files -> In z files ->
                 strings_Replace y suffix ++ ".gz" <> z) ->
    (promote env h suffix files renamed d).1 = None /\
    (forall x, ~ In x files ->
       (forall y, In y files -> x <> strings_Replace y suffix ++ ".gz") ->
       (promote env h suffix files renamed d).2 !! x = d !! x) /\
    (forall y, In y files -> (promote env h suffix files renamed d).2 !! y = None) /\
    (forall y, In y files ->
       exists y0 f, In y0 files /\
         strings_Replace y0 suffix ++ ".gz" = strings_Replace y suffix ++ ".gz" /\
         d !! y0 = Some f /\
         (promote env h suffix files renamed d).2 !! (strings_Replace y suffix ++ ".gz")
         = Some (mkFile (body f) true)).
Proof.
  induction files as [|y files IH]; intros renamed d Hnd Hin Hft Hne.
  - cbn [promote fst snd]. split; [reflexivity |].
    split; [reflexivity |]. split; intros y [].
  - cbn [promote]. unfold MoveAndCompress.
    rewrite (Hft y (or_introl eq_refl)).
    destruct (Hin y (or_introl eq_refl)) as [f Hf]. rewrite Hf.
    apply List.NoDup_cons_iff in Hnd as [Hy Hnd].
    assert (Hkeep : forall z, In z files ->
              <[strings_Replace y suffix ++ ".gz" := mkFile (body f) true]>
                (delete y d) !! z = d !! z).
    { intros z Hz.
      rewrite lookup_insert_ne
        by (apply Hne; [left; reflexivity | right; exact Hz]).
      apply lookup_delete_ne. intros ->. contradiction. }
    destruct (IH (renamed ++ [(strings_Replace y suffix ++ ".gz")%string])%list
                (<[strings_Replace y suffix ++ ".gz" := mkFile (body f) true]>
                   (delete y d)) Hnd)
      as (He & Hframe & Hgone & Hdst).
    { intros z Hz. rewrite (Hkeep z Hz). apply Hin. right; exact Hz. }
    { intros z Hz. apply Hft. right; exact Hz. }
    { intros a b Ha Hb. apply Hne; right; assumption. }
    assert (Hny : forall z, In z files -> y <> strings_Replace z suffix ++ ".gz").
    { intros z Hz Heq. apply (Hne z y); [right; exact Hz | left; reflexivity |].
      congruence. }
    split; [exact He |]. split; [| split].
    + intros x Hx Hxd. rewrite Hframe.
      * rewrite lookup_insert_ne
          by (intros Heq; apply (Hxd y); [left; reflexivity | congruence]).
        apply lookup_delete_ne. intros ->. apply Hx. left; reflexivity.
      * intros Hz. apply Hx. right; exact Hz.
      * intros z Hz. apply Hxd. right; exact Hz.
    + intros z [<- | Hz]; [| apply Hgone; exact Hz].
      rewrite Hframe by assumption.
      rewrite lookup_insert_ne by (apply Hne; left; reflexivity).
      apply lookup_delete_eq.
    + intros z [<- | Hz].
      * destruct (in_dec string_dec (strings_Replace y suffix ++ ".gz")
                    (map (fun z => strings_Replace z suffix ++ ".gz") files))
          as [Hcol | Hfresh].
        -- apply in_map_iff in Hcol as (z & Hzeq & Hz).
           destruct (Hdst z Hz) as (y0 & f0 & Hy0 & Heq0 & Hf0 & Hl).
           exists y0, f0. split; [right; exact Hy0 |].
           split; [congruence |].
           split; [rewrite <- (Hkeep y0 Hy0); exact Hf0 |].
           rewrite Hzeq in Hl. exact Hl.
        -- exists y, f. split; [left; reflexivity |]. split; [reflexivity |].
           split; [exact Hf |].
           rewrite Hframe.
           ++ apply lookup_insert_eq.
           ++ intros Hz. apply (Hne y _ (or_introl eq_refl) (or_intror Hz)).
              reflexivity.
           ++ intros z Hz Heq. apply Hfresh. apply in_map_iff.
              exists z. split; [symmetry; exact Heq | exact Hz].
      * destruct (Hdst z Hz) as (y0 & f0 & Hy0 & Heq0 & Hf0 & Hl).
        exists y0, f0. split; [right; exact Hy0 |].
        split; [exact Heq0 |].
        split; [rewrite <- (Hkeep y0 Hy0); exact Hf0 | exact Hl].
Qed.

Lemma NoDup_MustGlob (pat : string) (d : gmap string File) :
  List.NoDup (MustGlob pat d).
Proof.
  unfold MustGlob. apply List.NoDup_filter. unfold ReadDir.
  apply NoDup_ListNoDup.
  rewrite merge_sort_Permutation. apply NoDup_elements.
Qed.

(** [finalize] when no promotion is refused. *)
Lemma finalize_all_promoted (env : Env) (h : Harvest) (tail : string)
    (d : gmap string File) :
  all_bytes numeric tail = true ->
  (forall y, In y (temporaryFilesSuffix ("-tmp-" ++ tail) d) ->
             move_fault (faults env) y = None) ->
  (finalize env h ("-tmp-" ++ tail) d).1 = None /\
  temporaryFilesSuffix ("-tmp-" ++ tail) (finalize env h ("-tmp-" ++ tail) d).2 = [] /\
  (forall y, In y (temporaryFilesSuffix ("-tmp-" ++ tail) d) ->
     exists y0 f,
       In y0 (temporaryFilesSuffix ("-tmp-" ++ tail) d) /\
       strings_Replace y0 ("-tmp-" ++ tail) ++ ".gz"
       = strings_Replace y ("-tmp-" ++ tail) ++ ".gz" /\
       d !! y0 = Some f /\
       (finalize env h ("-tmp-" ++ tail) d).2
         !! (strings_Replace y ("-tmp-" ++ tail) ++ ".gz")
       = Some (mkFile (body f) true)).
Proof.
  intros Ht Hft. unfold finalize.
  assert (Hgz : forall y z, In y (temporaryFilesSuffix ("-tmp-" ++ tail) d) ->
                  In z (temporaryFilesSuffix ("-tmp-" ++ tail) d) ->
                  strings_Replace y ("-tmp-" ++ tail) ++ ".gz" <> z).
  { intros y z _ Hz Heq. unfold temporaryFilesSuffix in Hz.
    apply In_MustGlob in Hz as [_ Hz]. rewrite <- Heq in Hz.
    rewrite (gz_not_in_batch tail _ Ht) in Hz. discriminate. }
  destruct (promote_all env h ("-tmp-" ++ tail)
              (temporaryFilesSuffix ("-tmp-" ++ tail) d) [] d)
    as (He & Hframe & Hgone & Hdst).
  - apply NoDup_MustGlob.
  - intros y Hy. unfold temporaryFilesSuffix in Hy.
    apply In_MustGlob in Hy as [Hy _]. exact Hy.
  - exact Hft.
  - exact Hgz.
  - split; [exact He |]. split; [| exact Hdst].
    apply MustGlob_nil. intros x Hm.
    destruct (d !! x) as [f|] eqn:Hx.
    + apply Hgone. unfold temporaryFilesSuffix. apply In_MustGlob.
      split; [rewrite Hx; eauto | exact Hm].
    + rewrite Hframe; [exact Hx | |].
      * unfold temporaryFilesSuffix. rewrite In_MustGlob.
        intros [[f Hf] _]. congruence.
      * intros y _ ->. rewrite (gz_not_in_batch tail _ Ht) in Hm. discriminate.
Qed.

(** X11: in a cache directory whose path holds no metacharacter of
    [filepath.Glob] and not the suffix, and when the operating system
    refuses no promotion, [finalize] succeeds for the batch of a
    sub-interval: no temporary file of the batch is left, and each one
    has a compressed file at its permanent name, with the body of a
    temporary file of that permanent name. *)
Theorem finalize_promotes_the_batch (env : Env) (h : Harvest) (tail : string)
    (d : gmap string File) :
  literal_dir env h ->
  suffix_free_dir env h ("-tmp-" ++ tail) ->
  all_bytes numeric tail = true ->
  (forall y, In y (temporaryFilesSuffix ("-tmp-" ++ tail) d) ->
             move_fault (faults env) y = None) ->
  (finalize env h ("-tmp-" ++ tail) d).1 = None /\
  temporaryFilesSuffix ("-tmp-" ++ tail) (finalize env h ("-tmp-" ++ tail) d).2 = [] /\
  (forall y, In y (temporaryFilesSuffix ("-tmp-" ++ tail) d) ->
     exists y0 f,
       In y0 (temporaryFilesSuffix ("-tmp-" ++ tail) d) /\
       strings_Replace y0 ("-tmp-" ++ tail) ++ ".gz"
       = strings_Replace y ("-tmp-" ++ tail) ++ ".gz" /\
       d !! y0 = Some f /\
       (finalize env h ("-tmp-" ++ tail) d).2
         !! (strings_Replace y ("-tmp-" ++ tail) ++ ".gz")
       = Some (mkFile (body f) true)).
Proof. intros _ _. exact (finalize_all_promoted env h tail d). Qed.

Lemma finalize_promotes_the_batch_witness :
  (finalize sample_env sample_harvest ("-tmp-" ++ "42") batch_dir).1 = None /\
  temporaryFilesSuffix ("-tmp-" ++ "42")
    (finalize sample_env sample_harvest ("-tmp-" ++ "42") batch_dir).2 = [].
Proof.
  destruct (finalize_promotes_the_batch sample_env sample_harvest "42" batch_dir)
    as (He & Hnil & _).
  - vm_compute. reflexivity.
  - vm_compute. reflexivity.
  - reflexivity.
  - intros y _. reflexivity.
  - split; [exact He | exact Hnil].
Defined.
(** The outer loop when it fails: the names before the failing one were
    promoted, and the result depends on whether any was and on the kind
    of the promotion error. *)
Lemma promote_failure (env : Env) (h : Harvest) (suffix : string) (e : error)
    (files : list string) :
  forall renamed d,
    List.NoDup files ->
    (forall y, In y files -> is_Some (d !! y)) ->
    (promote env h suffix files renamed d).1 = Some e ->
    exists pre y post err,
      files = (pre ++ y :: post)%list /\
      (forall z, In z pre -> move_fault (faults env) z = None) /\
      move_fault (faults env) y = Some err /\
      (((renamed ++ map (fun z => (strings_Replace z suffix ++ ".gz")%string) pre)%list = []
        \/ isENOENT err = true) /\
       e = err /\
       (forall x,
          In x (renamed ++ map (fun z => (strings_Replace z suffix ++ ".gz")%string) pre)%list ->
          remove_fault (faults env) x = None ->
          (promote env h suffix files renamed d).2 !! x = None)
       \/
       ((renamed ++ map (fun z => (strings_Replace z suffix ++ ".gz")%string) pre)%list <> []
        /\ isENOENT err = false /\
        exists e1,
          e = MultiError
                [Some err; e1;
                 Some (Errorf ("inconsistent cache state; start over and purge "
                               ++ Dir env h))])).
Proof.
  induction files as [|y files IH]; intros renamed d Hnd Hin He;
    cbn [promote] in *; [discriminate |].
  apply List.NoDup_cons_iff in Hnd as [Hy Hnd].
  destruct (Hin y (or_introl eq_refl)) as [f Hf].
  unfold MoveAndCompress in *. rewrite Hf in *.
  destruct (move_fault (faults env) y) as [err|] eqn:Hmv.
  - exists [], y, files, err. cbn [map]. rewrite app_nil_r.
    split; [reflexivity |]. split; [intros z [] |]. split; [exact Hmv |].
    destruct (rollback env h err renamed d) as [e1 d1] eqn:Hrb.
    cbn [fst snd] in *.
    destruct (rollback_spec _ _ _ _ _ _ _ Hrb)
      as (_ & _ & [(Heq & Hor & Hrem) | (Hen & fn & rest & -> & Heq)]).
    + left. split; [exact Hor |]. split; [congruence | exact Hrem].
    + right. split; [discriminate |]. split; [exact Hen |].
      eexists. rewrite Heq in He. injection He as <-. reflexivity.
  - destruct (IH (renamed ++ [(strings_Replace y suffix ++ ".gz")%string])%list
                (<[strings_Replace y suffix ++ ".gz" := mkFile (body f) true]>
                   (delete y d)) Hnd)
      as (pre & y1 & post & err & -> & Hpre & Herr & Hcase).
    { intros z Hz.
      destruct (decide (z = strings_Replace y suffix ++ ".gz")) as [-> | Hne].
      - rewrite lookup_insert_eq. eauto.
      - rewrite lookup_insert_ne by congruence.
        rewrite lookup_delete_ne by (intros ->; contradiction).
        apply Hin. right; exact Hz. }
    { exact He. }
    exists (y :: pre), y1, post, err.
    split; [reflexivity |].
    split; [intros z [<- | Hz]; [exact Hmv | apply Hpre; exact Hz] |].
    split; [exact Herr |].
    cbn [map]. rewrite <- app_assoc in Hcase. exact Hcase.
Qed.

(** X12: when [finalize] fails, a promotion was refused after the files
    before it had been promoted.  The promotion error is returned as it
    is when no file had been promoted or when it is ENOENT, and then
    every permanent file made so far that the system lets remove is
    gone; otherwise the result is a MultiError that starts with the
    promotion error and ends with the directive to purge [h.Dir()]. *)
Theorem finalize_failure (env : Env) (h : Harvest) (suffix : string)
    (d : gmap string File) (e : error) :
  (finalize env h suffix d).1 = Some e ->
  exists pre y post err,
    temporaryFilesSuffix suffix d = (pre ++ y :: post)%list /\
    (forall z, In z pre -> move_fault (faults env) z = None) /\
    move_fault (faults env) y = Some err /\
    (((pre = [] \/ isENOENT err = true) /\
      e = err /\
      (forall z, In z pre ->
         remove_fault (faults env) (strings_Replace z suffix ++ ".gz") = None ->
         (finalize env h suffix d).2 !! (strings_Replace z suffix ++ ".gz") = None))
     \/
     (pre <> [] /\ isENOENT err = false /\
      exists e1,
        e = MultiError
              [Some err; e1;
               Some (Errorf ("inconsistent cache state; start over and purge "
                             ++ Dir env h))])).
Proof.
  unfold finalize. intros He.
  destruct (promote_failure env h suffix e (temporaryFilesSuffix suffix d) [] d)
    as (pre & y & post & err & Heq & Hpre & Herr & Hcase).
  - apply NoDup_MustGlob.
  - intros y Hy. unfold temporaryFilesSuffix in Hy.
    apply In_MustGlob in Hy as [Hy _]. exact Hy.
  - exact He.
  - exists pre, y, post, err. split; [exact Heq |]. split; [exact Hpre |].
    split; [exact Herr |]. cbn [app] in Hcase.
    destruct Hcase as [(Hor & -> & Hrem) | (Hne & Hen & e1 & ->)].
    + left. split; [| split; [reflexivity |]].
      * destruct Hor as [Hnil | Hen]; [| auto].
        left. destruct pre; [reflexivity | discriminate].
      * intros z Hz Hft. apply Hrem; [| exact Hft].
        apply in_map_iff. exists z. auto.
    + right. split; [| split; [exact Hen | exists e1; reflexivity]].
      intros ->. apply Hne. reflexivity.
Qed.

Lemma finalize_failure_witness :
  exists pre y post err,
    temporaryFilesSuffix "-tmp-42" batch_dir = (pre ++ y :: post)%list /\
    move_fault (faults third_move_denied) y = Some err /\
    pre <> [] /\ isENOENT err = false.
Proof.
  destruct (finalize_failure third_move_denied sample_harvest "-tmp-42" batch_dir
              (MultiError
                 [Some (PathError "rename" "2020-01-31-00000002.xml-tmp-42" EACCES);
                  None;
                  Some (Errorf ("inconsistent cache state; start over and purge "
                                ++ Dir third_move_denied sample_harvest))]))
    as (pre & y & post & err & Heq & _ & Herr & Hcase).
  - vm_compute. reflexivity.
  - exists pre, y, post, err. split; [exact Heq |]. split; [exact Herr |].
    destruct Hcase as [(_ & Habs & _) | (Hne & Hen & _)].
    + exfalso. rewrite <- Habs in Herr.
      assert (Hy : In y (temporaryFilesSuffix "-tmp-42" batch_dir))
        by (rewrite Heq; apply in_elt).
      vm_compute in Hy. destruct Hy as [<- | [<- | [<- | []]]];
        vm_compute in Herr; discriminate Herr.
    + auto.
Defined.

(** ** Page numbers *)

Lemma atoi_digits_app (a b : string) :
  forall z, time.atoi_digits (a ++ b) z = time.atoi_digits b (time.atoi_digits a z).
Proof.
  induction a as [|c a IH]; intros z; [reflexivity |].
  rewrite append_cons. cbn [time.atoi_digits]. apply IH.
Qed.

(** The digits of [n] read back as [n]. *)
Lemma digitsOf_value (fuel : nat) :
  forall n acc,
    0 <= n < 10 ^ Z.of_nat fuel ->
    exists ds, digitsOf fuel n acc = ds ++ acc /\
               forall z, time.atoi_digits ds z
                         = z * 10 ^ Z.of_nat (String.length ds) + n.
Proof.
  induction fuel as [|fuel IH]; intros n acc Hn.
  - exists "". split; [reflexivity |]. intros z. cbn in *. lia.
  - rewrite digitsOf_S. destruct (Z.ltb_spec n 10) as [Hlt | Hge].
    + exists (String (digitChar n) ""). split; [reflexivity |].
      intros z. cbn [time.atoi_digits String.length].
      rewrite digitVal_digitChar, Z.mod_small by lia.
      change (Z.of_nat 1) with 1. lia.
    + assert (Hq : 0 <= n / 10 < 10 ^ Z.of_nat fuel).
      { rewrite Nat2Z.inj_succ, Z.pow_succ_r in Hn by lia.
        split; [apply Z.div_pos; lia | apply Z.div_lt_upper_bound; lia]. }
      destruct (IH (n / 10) (String (digitChar n) acc) Hq) as (ds & -> & Hv).
      exists (ds ++ String (digitChar n) ""). split.
      * rewrite append_assoc. reflexivity.
      * intros z. rewrite atoi_digits_app, Hv. cbn [time.atoi_digits].
        rewrite digitVal_digitChar, length_append. cbn [String.length].
        rewrite Nat2Z.inj_add, Z.pow_add_r by lia.
        change (Z.of_nat 1) with 1. rewrite Z.pow_1_r.
        pose proof (Z.div_mod n 10 ltac:(lia)). lia.
Qed.

Lemma atoi_digits_zeros (k : nat) (s : string) :
  time.atoi_digits (zeros k ++ s) 0 = time.atoi_digits s 0.
Proof. induction k as [|k IH]; [reflexivity | exact IH]. Qed.

(** A page number below [10 ^ 20], which every Go [int] is, is read back
    from its rendering. *)
Lemma atoi_digits_appendInt (k : Z) (width : nat) :
  0 <= k < 10 ^ 20 -> time.atoi_digits (appendInt k width) 0 = k.
Proof.
  intros Hk. unfold appendInt.
  destruct (Z.ltb_spec k 0) as [Hneg | _]; [lia |].
  rewrite Z.abs_eq by lia. rewrite atoi_digits_zeros.
  destruct (digitsOf_value 20 k "" Hk) as (ds & -> & Hv).
  rewrite append_empty_r, Hv. lia.
Qed.

Lemma appendInt_inj (a b : Z) (width : nat) :
  0 <= a < 10 ^ 20 -> 0 <= b < 10 ^ 20 ->
  appendInt a width = appendInt b width -> a = b.
Proof.
  intros Ha Hb Heq.
  rewrite <- (atoi_digits_appendInt a width Ha), <- (atoi_digits_appendInt b width Hb).
  rewrite Heq. reflexivity.
Qed.

Lemma digits_before_dot (x : string) :
  forall y r r',
    all_bytes isDigit x = true -> all_bytes isDigit y = true ->
    x ++ String "." r = y ++ String "." r' -> x = y.
Proof.
  induction x as [|c x IH]; intros [|c' y] r r' Hx Hy Heq;
    rewrite ?append_cons, ?append_nil in Heq.
  - reflexivity.
  - injection Heq as <- _. cbn in Hy. discriminate.
  - injection Heq as -> _. cbn in Hx. discriminate.
  - injection Heq as -> Heq. f_equal.
    cbn [all_bytes] in Hx, Hy.
    apply andb_true_iff in Hx as [_ Hx]. apply andb_true_iff in Hy as [_ Hy].
    eapply IH; eassumption.
Qed.

Lemma page_number_inj (fd : string) (a b : Z) (r r' : string) :
  0 <= a < 10 ^ 20 -> 0 <= b < 10 ^ 20 ->
  fd ++ "-" ++ appendInt a 8 ++ String "." r
  = fd ++ "-" ++ appendInt b 8 ++ String "." r' -> a = b.
Proof.
  intros Ha Hb Heq.
  apply append_inv_head in Heq. apply (append_inv_head "-") in Heq.
  apply digits_before_dot in Heq;
    [| apply appendInt_8_digits; lia | apply appendInt_8_digits; lia].
  eapply appendInt_inj; eassumption.
Qed.

Lemma page_name_inj (fd suffix : string) (a b : Z) :
  0 <= a < 10 ^ 20 -> 0 <= b < 10 ^ 20 ->
  page_name fd a suffix = page_name fd b suffix -> a = b.
Proof. unfold page_name. apply page_number_inj. Qed.

Lemma promoted_name_inj (fd : string) (a b : Z) :
  0 <= a < 10 ^ 20 -> 0 <= b < 10 ^ 20 ->
  promoted_name fd a = promoted_name fd b -> a = b.
Proof. unfold promoted_name. apply page_number_inj. Qed.

(** ** A conversation without incident *)

(** The loop over a conversation of pages with records that ends with a
    page without token: every page is written under its number. *)
Lemma pages_clean (env : Env) (h : Harvest) (iv : Interval) (suffix : string)
    (lastp : Response) (rest : list (result Response)) (ps : list Response) :
  forall token i empty w,
    Forall page_with_records ps -> last_page lastp ->
    (forall name, write_fault (faults env) name = None) ->
    MaxEmptyResponses h <> 0 ->
    MaxRequests h < i \/ i + Z.of_nat (List.length ps) < MaxRequests h ->
    0 <= i -> i + Z.of_nat (List.length ps) < 10 ^ 20 ->
    exists w',
      pages env h iv suffix (map Ok ps ++ Ok lastp :: rest)%list token i empty w
      = (Break, rest, w') /\
      List.length (sent w') = (List.length (sent w) + List.length ps + 1)%nat /\
      slept w' = slept w /\ draws w' = draws w /\
      (forall k r b,
         (ps ++ [lastp])%list !! k = Some r -> Marshal r = Ok b ->
         dir w' !! page_name (filedate h iv) (i + Z.of_nat k) suffix
         = Some (mkFile b false)) /\
      (forall x,
         (forall k, (k <= List.length ps)%nat ->
                    x <> page_name (filedate h iv) (i + Z.of_nat k) suffix) ->
         dir w' !! x = dir w !! x) /\
      (forall x,
         dir w' !! x = dir w !! x \/
         exists k, (k <= List.length ps)%nat /\
                   x = page_name (filedate h iv) (i + Z.of_nat k) suffix).
Proof.
  induction ps as [|r ps IH];
    intros token i empty w Hps (Hsw & Htok & bl & Hbl) Hwf Hme Hmr Hi Hbound.
  - cbn [map app List.length] in *.
    rewrite (pages_written_page env h iv suffix lastp rest token i empty w bl)
      by (auto; lia).
    rewrite Htok. cbn [String.eqb].
    eexists. split; [reflexivity |]. unfold page_written. cbn [dir sent slept draws].
    rewrite (filedate_token h iv token). fold (filedate h iv).
    split; [rewrite length_app; cbn; lia |]. split; [reflexivity |].
    split; [reflexivity |]. split; [| split].
    + intros [|k] r b Hk Hb; [| destruct k; discriminate].
      injection Hk as <-. rewrite Z.add_0_r.
      rewrite lookup_insert_eq. congruence.
    + intros x Hx. apply lookup_insert_ne.
      specialize (Hx O ltac:(lia)). rewrite Z.add_0_r in Hx. congruence.
    + intros x.
      destruct (decide (x = page_name (filedate h iv) i suffix)) as [-> | Hx].
      * right. exists O. rewrite Z.add_0_r. auto.
      * left. apply lookup_insert_ne. congruence.
  - apply Forall_cons in Hps as [(Hsw1 & Hrec & Htok1 & b1 & Hb1) Hps].
    cbn [map app]. cbn [List.length] in Hmr, Hbound.
    rewrite (pages_written_page env h iv suffix r _ token i empty w b1)
      by (auto; lia).
    apply String.eqb_neq in Htok1. rewrite Htok1.
    assert (Hstreak : empty_streak r empty = 0).
    { unfold empty_streak. destruct (Records r); [congruence | reflexivity]. }
    rewrite Hstreak.
    destruct (Z.eqb_spec 0 (MaxEmptyResponses h)) as [Habs | _]; [congruence |].
    destruct (IH (ResumptionToken r) (i + 1) 0 (page_written h iv suffix token i b1 w)
                 Hps (conj Hsw (conj Htok (ex_intro _ bl Hbl))) Hwf Hme
                 ltac:(lia) ltac:(lia) ltac:(lia))
      as (w' & -> & Hlen & Hsl & Hdr & Hpages & Hframe & Hor).
    exists w'. split; [reflexivity |].
    unfold page_written in Hlen, Hsl, Hdr, Hframe, Hor.
    cbn [dir sent slept draws] in *.
    rewrite (filedate_token h iv token) in Hframe, Hor.
    fold (filedate h iv) in Hframe, Hor.
    rewrite length_app in Hlen. cbn [List.length] in *.
    split; [lia |]. split; [exact Hsl |]. split; [exact Hdr |]. split; [| split].
    + intros [|k] r' b Hk Hb.
      * injection Hk as <-. rewrite Z.add_0_r. rewrite Hframe.
        -- rewrite lookup_insert_eq. congruence.
        -- intros k Hk Heq. apply page_name_inj in Heq; lia.
      * replace (i + Z.of_nat (S k)) with (i + 1 + Z.of_nat k) by lia.
        eapply Hpages; [exact Hk | exact Hb].
    + intros x Hx. rewrite Hframe.
      * apply lookup_insert_ne.
        specialize (Hx O ltac:(lia)). rewrite Z.add_0_r in Hx. congruence.
      * intros k Hk.
        replace (i + 1 + Z.of_nat k) with (i + Z.of_nat (S k)) by lia.
        apply Hx. lia.
    + intros x. destruct (Hor x) as [Heq | (k & Hk & ->)].
      * rewrite Heq.
        destruct (decide (x = page_name (filedate h iv) i suffix)) as [-> | Hx].
        -- right. exists O. rewrite Z.add_0_r. split; [lia | reflexivity].
        -- left. apply lookup_insert_ne. congruence.
      * right. exists (S k). split; [lia |]. f_equal. lia.
Qed.

(** X13: a sub-interval whose conversation has no incident.  The server
    sends pages with records and a resumption token and then a page
    without token; no write and no promotion is refused; no limit is met
    on the way; the cache holds no temporary file under the suffix
    drawn; and the path of the cache directory holds no metacharacter of
    [filepath.Glob] and not that suffix.  Then [runInterval] succeeds
    after one request per page, page
    [k] is the compressed permanent file number [k] of the interval, no
    temporary file of the batch is left, and every name that is neither
    of the batch nor one of these permanent names holds what it held. *)
Theorem runInterval_harvests_pages (env : Env) (h : Harvest) (iv : Interval)
    (ps : list Response) (lastp : Response) (rest : list (result Response))
    (w : World) :
  Forall page_with_records ps -> last_page lastp ->
  (forall name, write_fault (faults env) name = None) ->
  (forall name, move_fault (faults env) name = None) ->
  MaxEmptyResponses h <> 0 ->
  MaxRequests h < 0 \/ Z.of_nat (List.length ps) < MaxRequests h ->
  Z.of_nat (List.length ps) < 2 ^ 63 ->
  temporaryFilesSuffix (batch_suffix env w) (dir w) = [] ->
  literal_dir env h ->
  suffix_free_dir env h (batch_suffix env w) ->
  exists w',
    runInterval env h iv (map Ok ps ++ Ok lastp :: rest)%list w
    = Some (None, rest, w') /\
    (forall k r b,
       (ps ++ [lastp])%list !! k = Some r -> Marshal r = Ok b ->
       dir w' !! promoted_name (filedate h iv) (Z.of_nat k) = Some (mkFile b true)) /\
    temporaryFilesSuffix (batch_suffix env w) (dir w') = [] /\
    (forall x,
       glob_match ("*.xml" ++ batch_suffix env w) x = false ->
       (forall k, (k <= List.length ps)%nat ->
                  x <> promoted_name (filedate h iv) (Z.of_nat k)) ->
       dir w' !! x = dir w !! x) /\
    List.length (sent w') = (List.length (sent w) + List.length ps + 1)%nat /\
    slept w' = slept w.
Proof.
  intros Hps Hlast Hwf Hmf Hme Hmr Hbound Hnone _ _.
  destruct (pages_clean env h iv (batch_suffix env w) lastp rest ps "" 0 0
              (mkWorld (dir w) (sent w) (slept w) (S (draws w)))
              Hps Hlast Hwf Hme ltac:(lia) ltac:(lia) ltac:(lia))
    as (w1 & Hpages & Hlen & Hsl & _ & Hwritten & Hframe & Hor).
  cbn [dir sent slept] in Hlen, Hsl, Hframe, Hor.
  assert (Hz : forall k, 0 + Z.of_nat k = Z.of_nat k) by (intros; lia).
  setoid_rewrite Hz in Hwritten. setoid_rewrite Hz in Hframe.
  setoid_rewrite Hz in Hor. clear Hz.
  unfold runInterval. fold (batch_suffix env w). rewrite Hpages.
  pose proof (all_bytes_appendInt (rand_Intn env (draws w)) 0) as Htail.
  fold (itoa (rand_Intn env (draws w))) in Htail.
  pose proof (filedate_numeric h iv) as Hfd.
  assert (Hsome : forall k, (k <= List.length ps)%nat ->
             exists r b, (ps ++ [lastp])%list !! k = Some r /\ Marshal r = Ok b).
  { intros k Hk.
    destruct (lookup_lt_is_Some_2 (ps ++ [lastp])%list k) as [r Hr];
      [rewrite length_app; cbn; lia |].
    exists r. assert (Hin : r ∈ (ps ++ [lastp])%list) by (eapply list_elem_of_lookup_2; eauto).
    apply elem_of_app in Hin as [Hin | Hin].
    - rewrite Forall_forall in Hps. destruct (Hps r Hin) as (_ & _ & _ & b & Hb). eauto.
    - apply list_elem_of_singleton in Hin. subst r.
      destruct Hlast as (_ & _ & b & Hb). eauto. }
  assert (Hfiles : forall y,
             In y (temporaryFilesSuffix (batch_suffix env w) (dir w1)) <->
             exists k, (k <= List.length ps)%nat /\
                       y = page_name (filedate h iv) (Z.of_nat k) (batch_suffix env w)).
  { intros y. unfold temporaryFilesSuffix. rewrite In_MustGlob. split.
    - intros [Hy Hm].
      destruct (Hor y) as [Heq | Hk]; [exfalso | exact Hk].
      rewrite Heq, (not_in_batch _ _ _ Hnone Hm) in Hy. destruct Hy; discriminate.
    - intros (k & Hk & ->). destruct (Hsome k Hk) as (r & b & Hr & Hb). split.
      + rewrite (Hwritten k r b Hr Hb). eauto.
      + apply glob_page_name; assumption. }
  destruct (finalize_all_promoted env h (itoa (rand_Intn env (draws w))) (dir w1)
              Htail (fun y _ => Hmf y))
    as (He & Hgone & Hdst).
  fold (batch_suffix env w) in He, Hgone, Hdst.
  destruct (finalize env h (batch_suffix env w) (dir w1)) as [e d2] eqn:Hfin.
  cbn [fst snd] in He, Hgone, Hdst. subst e.
  eexists. split; [reflexivity |]. cbn [set_dir dir sent slept].
  split; [| split; [exact Hgone | split; [| split; [exact Hlen | exact Hsl]]]].
  - intros k r b Hr Hb.
    assert (Hk : (k <= List.length ps)%nat).
    { apply lookup_lt_Some in Hr. rewrite length_app in Hr. cbn in Hr. lia. }
    destruct (Hdst (page_name (filedate h iv) (Z.of_nat k) (batch_suffix env w)))
      as (y0 & f & Hy0 & Heq & Hf & Hl).
    { apply Hfiles. exists k. auto. }
    apply Hfiles in Hy0 as (k0 & Hk0 & ->).
    unfold batch_suffix in Heq, Hl.
    rewrite !(promoted_page_name _ _ _ Hfd) in Heq.
    rewrite (promoted_page_name _ _ _ Hfd) in Hl.
    apply promoted_name_inj in Heq; [| lia | lia].
    apply Nat2Z.inj in Heq. subst k0.
    rewrite (Hwritten k r b Hr Hb) in Hf. injection Hf as <-.
    exact Hl.
  - intros x Hm Hx.
    assert (Hd2 : d2 = (finalize env h (batch_suffix env w) (dir w1)).2)
      by (rewrite Hfin; reflexivity).
    rewrite Hd2. unfold finalize. rewrite promote_frame.
    + apply Hframe. intros k Hk ->.
      unfold batch_suffix in Hm. rewrite glob_page_name in Hm by assumption.
      discriminate.
    + unfold temporaryFilesSuffix. rewrite In_MustGlob. intros [_ Hm2]. congruence.
    + intros y Hy. apply Hfiles in Hy as (k & Hk & ->).
      unfold batch_suffix. rewrite (promoted_page_name _ _ _ Hfd). apply Hx. exact Hk.
    + intros [].
Qed.

Lemma runInterval_harvests_pages_witness :
  exists w',
    runInterval sample_env sample_harvest sample_interval
      (map Ok [mkResponse "" "" ["r"] "t1" (Ok "<p0/>")]
       ++ Ok (mkResponse "" "" ["r"] "" (Ok "<p1/>")) :: [])%list empty_world
    = Some (None, [], w') /\
    dir w' !! promoted_name (filedate sample_harvest sample_interval) (Z.of_nat 1)
    = Some (mkFile "<p1/>" true).
Proof.
  destruct (runInterval_harvests_pages sample_env sample_harvest sample_interval
              [mkResponse "" "" ["r"] "t1" (Ok "<p0/>")]
              (mkResponse "" "" ["r"] "" (Ok "<p1/>")) [] empty_world)
    as (w' & Hrun & Hfile & _).
  - constructor; [| constructor].
    split; [reflexivity |]. split; [discriminate |]. split; [discriminate |].
    eexists; reflexivity.
  - split; [reflexivity |]. split; [reflexivity |]. eexists; reflexivity.
  - reflexivity.
  - reflexivity.
  - discriminate.
  - right. vm_compute. reflexivity.
  - vm_compute. reflexivity.
  - reflexivity.
  - vm_compute. reflexivity.
  - vm_compute. reflexivity.
  - exists w'. split; [exact Hrun |].
    apply (Hfile 1%nat (mkResponse "" "" ["r"] "" (Ok "<p1/>")) "<p1/>"); reflexivity.
Defined.

(** X14: [MaxEmptyResponses = 0] does not switch the empty-page check
    off.  After a written page that holds records the counter is 0, which
    is the limit, so the loop ends with success after this page even when
    the page carries a resumption token; the replies that follow are not
    asked for. *)
Theorem zero_MaxEmptyResponses_stops_after_one_page (env : Env) (h : Harvest)
    (iv : Interval) (suffix : string) (resp : Response)
    (script : list (result Response)) (token : string) (i empty : Z) (w : World)
    (b : string) :
  MaxEmptyResponses h = 0 ->
  MaxRequests h <> i ->
  error_switch resp = LeaveSwitch ->
  Records resp <> [] ->
  Marshal resp = Ok b ->
  write_fault (faults env) (page_name (filedate h iv) i suffix) = None ->
  pages env h iv suffix (Ok resp :: script) token i empty w
  = (Break, script,
     mkWorld (<[page_name (filedate h iv) i suffix := mkFile b false]> (dir w))
             (sent w ++ [(build_request h iv token).1]) (slept w) (draws w)).
Proof.
  intros Hme Hmr Hsw Hrec Hb Hwf.
  unfold filedate in *. rewrite <- (filedate_token h iv token) in *.
  rewrite (pages_written_page env h iv suffix resp script token i empty w b)
    by assumption.
  unfold page_written.
  destruct (ResumptionToken resp =? "")%string; [reflexivity |].
  unfold empty_streak. destruct (Records resp); [congruence |].
  cbn [List.length]. rewrite Hme. reflexivity.
Qed.

Lemma zero_MaxEmptyResponses_stops_after_one_page_witness :
  pages sample_env
    (mkHarvest "http://example.org/oai" "oai_dc" "" "" "" 1048576
       false false false 0 false false
       (mkIdentify "YYYY-MM-DD" "2020-01-15") (time.mkTime 2020 3 10 12 0 0 0))
    sample_interval "-tmp-42"
    (Ok (mkResponse "" "" ["r"] "t1" (Ok "<p0/>")) :: [page "" ["r"] "<p1/>"])
    "" 0 0 empty_world
  = (Break, [page "" ["r"] "<p1/>"],
     mkWorld (<[page_name (filedate
                  (mkHarvest "http://example.org/oai" "oai_dc" "" "" "" 1048576
                     false false false 0 false false
                     (mkIdentify "YYYY-MM-DD" "2020-01-15")
                     (time.mkTime 2020 3 10 12 0 0 0)) sample_interval) 0 "-tmp-42"
                := mkFile "<p0/>" false]> (dir empty_world))
             (sent empty_world ++
              [(build_request
                  (mkHarvest "http://example.org/oai" "oai_dc" "" "" "" 1048576
                     false false false 0 false false
                     (mkIdentify "YYYY-MM-DD" "2020-01-15")
                     (time.mkTime 2020 3 10 12 0 0 0)) sample_interval "").1])
             (slept empty_world) (draws empty_world)).
Proof.
  apply (zero_MaxEmptyResponses_stops_after_one_page sample_env
           (mkHarvest "http://example.org/oai" "oai_dc" "" "" "" 1048576
              false false false 0 false false
              (mkIdentify "YYYY-MM-DD" "2020-01-15") (time.mkTime 2020 3 10 12 0 0 0))
           sample_interval "-tmp-42" (mkResponse "" "" ["r"] "t1" (Ok "<p0/>"))
           [page "" ["r"] "<p1/>"] "" 0 0 empty_world "<p0/>").
  - reflexivity.
  - discriminate.
  - reflexivity.
  - discriminate.
  - reflexivity.
  - reflexivity.
Defined.

(** ** The matcher is sound *)

Lemma nullable_sound (r : regex) : nullable r = true -> matches r "".
Proof.
  induction r as [| | p | r1 IH1 r2 IH2 | r1 IH1 r2 IH2 | r IH]; cbn [nullable];
    intros H; try discriminate.
  - constructor.
  - apply andb_true_iff in H as [H1 H2].
    change "" with ("" ++ ""). constructor; auto.
  - apply orb_true_iff in H as [H | H]; [apply MAltL | apply MAltR]; auto.
  - constructor.
Qed.

Lemma deriv_sound (r : regex) :
  forall c s, matches (deriv c r) s -> matches r (String c s).
Proof.
  induction r as [| | p | r1 IH1 r2 IH2 | r1 IH1 r2 IH2 | r IH]; intros c s H;
    cbn [deriv] in H.
  - inversion H.
  - inversion H.
  - destruct (p c) eqn:Hp; inversion H; subst. constructor. exact Hp.
  - assert (Hcat : forall x, matches (Cat (deriv c r1) r2) x ->
                             matches (Cat r1 r2) (String c x)).
    { intros x Hx. inversion Hx; subst.
      rewrite <- append_cons. constructor; auto. }
    destruct (nullable r1) eqn:Hn; [| apply Hcat; exact H].
    inversion H; subst; [apply Hcat; assumption |].
    rewrite <- (append_nil (String c s)). constructor; [| auto].
    apply nullable_sound. exact Hn.
  - inversion H; subst; [apply MAltL | apply MAltR]; auto.
  - inversion H; subst. rewrite <- append_cons. constructor; auto.
Qed.

Lemma re_match_sound (s : string) :
  forall r, re_match r s = true -> matches r s.
Proof.
  induction s as [|c s IH]; intros r H; cbn [re_match] in H.
  - apply nullable_sound. exact H.
  - apply deriv_sound, IH, H.
Qed.

Lemma matches_Cat_inv (r1 r2 : regex) (s : string) :
  matches (Cat r1 r2) s ->
  exists s1 s2, s = s1 ++ s2 /\ matches r1 s1 /\ matches r2 s2.
Proof. intros H. inversion H; subst. eauto. Qed.

Lemma matches_lit_inv (c : ascii) (s : string) :
  matches (lit c) s -> s = String c "".
Proof.
  intros H. inversion H as [| p c0 Hc | | | | |]; subst.
  apply Ascii.eqb_eq in Hc. subst. reflexivity.
Qed.

Lemma matches_rep_digit_inv (n : nat) :
  forall s, matches (rep n digit) s ->
            String.length s = n /\ all_bytes isDigit s = true.
Proof.
  induction n as [|n IH]; intros s H; cbn [rep] in H.
  - inversion H; subst. auto.
  - inversion H as [| | r1 r2 s1 s2 H1 H2 | | | |]; subst.
    inversion H1; subst. destruct (IH _ H2) as [Hl Hd].
    rewrite append_cons, append_nil. cbn [String.length all_bytes].
    rewrite Hl, Hd, andb_true_r. auto.
Qed.

(** The strings of the date group: four digits, two digits and two digits
    between dashes. *)
Lemma matches_fnDate_inv (d : string) :
  matches fnDate d ->
  exists y m dd,
    d = y ++ "-" ++ m ++ "-" ++ dd /\
    String.length y = 4%nat /\ String.length m = 2%nat /\ String.length dd = 2%nat /\
    all_bytes isDigit y = true /\ all_bytes isDigit m = true /\
    all_bytes isDigit dd = true.
Proof.
  unfold fnDate. intros H.
  inversion H as [| | ? ? y s1 Hy H1 | | | |]; subst.
  inversion H1 as [| | ? ? l1 s2 Hl1 H2 | | | |]; subst.
  inversion H2 as [| | ? ? m s3 Hm H3 | | | |]; subst.
  inversion H3 as [| | ? ? l2 dd Hl2 Hdd | | | |]; subst.
  apply matches_lit_inv in Hl1, Hl2. subst.
  destruct (matches_rep_digit_inv 4 _ Hy) as [? ?].
  destruct (matches_rep_digit_inv 2 _ Hm) as [? ?].
  destruct (matches_rep_digit_inv 2 _ Hdd) as [? ?].
  exists y, m, dd. auto 10.
Qed.

Lemma length_fnDate (d : string) : matches fnDate d -> String.length d = 10%nat.
Proof.
  intros H. destruct (matches_fnDate_inv d H) as (y & m & dd & -> & Hy & Hm & Hd & _).
  rewrite !length_append, Hy, Hm, Hd. reflexivity.
Qed.

(** What follows the date ends in [xml], or in [gz] after one more byte. *)
Lemma matches_fnRest_inv (r : string) :
  matches fnRest r ->
  exists n c, all_bytes isDigit n = true /\ (8 <= String.length n)%nat /\
    (r = "-" ++ n ++ String c "xml" \/
     exists c', r = "-" ++ n ++ String c ("xml" ++ String c' "gz")).
Proof.
  unfold fnRest. intros H.
  inversion H as [| | ? ? l1 s1 Hl1 K1 | | | |]; subst.
  inversion K1 as [| | ? ? n8 s2 Hn8 K2 | | | |]; subst.
  inversion K2 as [| | ? ? ns s3 Hns K3 | | | |]; subst.
  inversion K3 as [| | ? ? a s4 Ha K4 | | | |]; subst.
  inversion K4 as [| | ? ? lx s5 Hlx K5 | | | |]; subst.
  inversion K5 as [| | ? ? lm s6 Hlm K6 | | | |]; subst.
  inversion K6 as [| | ? ? ll s7 Hll K7 | | | |]; subst.
  apply matches_lit_inv in Hl1, Hlx, Hlm, Hll. subst.
  inversion Ha; subst.
  destruct (matches_rep_digit_inv 8 _ Hn8) as [Hlen Hd8].
  assert (Hds : all_bytes isDigit ns = true).
  { clear -Hns. remember (Star digit) as r eqn:Hr.
    induction Hns; try discriminate; [reflexivity |].
    injection Hr as ->. inversion Hns1; subst.
    rewrite append_cons, append_nil. cbn [all_bytes].
    rewrite IHHns2 by reflexivity. rewrite andb_true_r. assumption. }
  exists (n8 ++ ns), c.
  split; [rewrite all_bytes_app, Hd8, Hds; reflexivity |].
  split; [rewrite length_append; lia |].
  inversion K7 as [| | | ? ? ? He | ? ? ? Hg | |]; subst.
  - inversion He; subst. left. rewrite !append_assoc. reflexivity.
  - right.
    inversion Hg as [| | ? ? a' s8 Ha' K8 | | | |]; subst.
    inversion K8 as [| | ? ? lg lz Hlg Hlz | | | |]; subst.
    apply matches_lit_inv in Hlg, Hlz. subst. inversion Ha'; subst.
    eexists. rewrite !append_assoc. reflexivity.
Qed.

(** What the search of [fnPattern] returns. *)
Lemma fnPattern_Date_cons (c : ascii) (name : string) :
  fnPattern_Date (String c name) =
  if re_match (Cat fnDate fnRest) (String c name)
  then Some (substring 0 10 (String c name))
  else fnPattern_Date name.
Proof. reflexivity. Qed.

Lemma fnPattern_Date_Some (name d : string) :
  fnPattern_Date name = Some d ->
  exists pre rest, name = pre ++ d ++ rest /\ matches fnDate d /\ matches fnRest rest.
Proof.
  induction name as [|c name IH]; [discriminate |].
  rewrite fnPattern_Date_cons.
  destruct (re_match (Cat fnDate fnRest) (String c name)) eqn:Hm.
  - apply re_match_sound, matches_Cat_inv in Hm as (s1 & s2 & Heq & H1 & H2).
    assert (Hs : substring 0 10 (String c name) = s1).
    { rewrite Heq, <- (length_fnDate _ H1). apply substring_prefix. }
    rewrite Hs. intros [= <-]. exists "", s2. auto.
  - intros H. destruct (IH H) as (pre & rest & -> & H1 & H2).
    exists (String c pre), rest. auto.
Qed.

Lemma fnPattern_Date_None (name : string) :
  fnPattern_Date name = None ->
  forall pre s, name = pre ++ s -> re_match (Cat fnDate fnRest) s = false.
Proof.
  induction name as [|c name IH].
  - intros _ pre s Heq. symmetry in Heq. apply append_eq_nil in Heq as [_ ->].
    reflexivity.
  - rewrite fnPattern_Date_cons.
    destruct (re_match (Cat fnDate fnRest) (String c name)) eqn:Hm; [discriminate |].
    intros H pre s Heq. destruct pre as [|x pre].
    + rewrite append_nil in Heq. subst s. exact Hm.
    + rewrite append_cons in Heq. injection Heq as _ Heq. eapply IH; eauto.
Qed.

(** ** The date extractor *)

(** X15: what the extractor of [defaultInterval] returns for a name of
    ASCII bytes is empty or a date group: ten bytes, digits around two
    dashes, found in the name right before a dash, at least eight
    digits, one byte and [xml], which ends the name or is followed by one
    byte and [gz]. *)
Theorem extractDate_shape (name : string) :
  all_bytes ascii_byte name = true ->
  extractDate name = "" \/
  exists pre y m dd n c,
    extractDate name = y ++ "-" ++ m ++ "-" ++ dd /\
    String.length y = 4%nat /\ String.length m = 2%nat /\ String.length dd = 2%nat /\
    all_bytes isDigit y = true /\ all_bytes isDigit m = true /\
    all_bytes isDigit dd = true /\
    all_bytes isDigit n = true /\ (8 <= String.length n)%nat /\
    (name = pre ++ extractDate name ++ "-" ++ n ++ String c "xml" \/
     exists c', name = pre ++ extractDate name ++ "-" ++ n
                         ++ String c ("xml" ++ String c' "gz")).
Proof.
  intros _.
  unfold extractDate. destruct (fnPattern_Date name) as [d|] eqn:Hd; [| auto].
  right. destruct (fnPattern_Date_Some name d Hd) as (pre & rest & -> & H1 & H2).
  destruct (matches_fnDate_inv d H1) as (y & m & dd & Heq & Hy & Hm & Hdd & Dy & Dm & Dd).
  destruct (matches_fnRest_inv rest H2) as (n & c & Dn & Hn & Hrest).
  exists pre, y, m, dd, n, c.
  split; [exact Heq |]. repeat (split; [assumption |]).
  destruct Hrest as [-> | [c' ->]]; [left; reflexivity | right; exists c'; reflexivity].
Qed.

Lemma extractDate_shape_witness :
  extractDate "2020-01-31-00000007.xml.gz" = "" \/
  exists pre y m dd n c,
    extractDate "2020-01-31-00000007.xml.gz" = y ++ "-" ++ m ++ "-" ++ dd /\
    String.length y = 4%nat /\ String.length m = 2%nat /\ String.length dd = 2%nat /\
    all_bytes isDigit y = true /\ all_bytes isDigit m = true /\
    all_bytes isDigit dd = true /\
    all_bytes isDigit n = true /\ (8 <= String.length n)%nat /\
    ("2020-01-31-00000007.xml.gz"
     = pre ++ extractDate "2020-01-31-00000007.xml.gz" ++ "-" ++ n ++ String c "xml" \/
     exists c', "2020-01-31-00000007.xml.gz"
                = pre ++ extractDate "2020-01-31-00000007.xml.gz" ++ "-" ++ n
                      ++ String c ("xml" ++ String c' "gz")).
Proof.
  apply (extractDate_shape "2020-01-31-00000007.xml.gz").
  vm_compute. reflexivity.
Defined.

(** X16: the extractor reads the date back from the name of a promoted
    page, whatever the page number. *)
Theorem extractDate_of_promoted_page (t : time.Time) (i : Z) :
  valid_date t -> 0 <= i ->
  extractDate (time.Format "2006-01-02" t ++ "-" ++ appendInt i 8 ++ ".xml.gz")
  = time.Format "2006-01-02" t.
Proof. exact (extractDate_promoted_name t i). Qed.

Lemma extractDate_of_promoted_page_witness :
  extractDate (time.Format "2006-01-02" (time.mkTime 2020 2 29 23 59 59 999999999)
               ++ "-" ++ appendInt 123456789 8 ++ ".xml.gz")
  = time.Format "2006-01-02" (time.mkTime 2020 2 29 23 59 59 999999999).
Proof.
  apply (extractDate_of_promoted_page (time.mkTime 2020 2 29 23 59 59 999999999)
           123456789).
  - vm_compute. intuition discriminate.
  - lia.
Defined.

(** A name whose last byte is neither [l] nor [z] yields no date. *)
Lemma extractDate_last_byte (s : string) (c : ascii) :
  c <> "l"%char -> c <> "z"%char -> extractDate (s ++ String c "") = "".
Proof.
  intros Hl Hz. unfold extractDate.
  destruct (fnPattern_Date (s ++ String c "")) as [d|] eqn:Hd; [| reflexivity].
  exfalso.
  destruct (fnPattern_Date_Some _ d Hd) as (pre & rest & Heq & _ & H2).
  destruct (matches_fnRest_inv rest H2) as (n & c0 & _ & _ & [-> | [c' ->]]).
  - assert (Hr : pre ++ d ++ "-" ++ n ++ String c0 "xml"
                 = (pre ++ d ++ "-" ++ n ++ String c0 "xm") ++ String "l" "")
      by (rewrite !append_assoc; reflexivity).
    rewrite Hr in Heq. apply last_byte_eq in Heq. contradiction.
  - assert (Hr : pre ++ d ++ "-" ++ n ++ String c0 ("xml" ++ String c' "gz")
                 = (pre ++ d ++ "-" ++ n ++ String c0 ("xml" ++ String c' "g"))
                   ++ String "z" "")
      by (rewrite !append_assoc; reflexivity).
    rewrite Hr in Heq. apply last_byte_eq in Heq. contradiction.
Qed.

Lemma extractDate_batch_page (fd tail : string) (i : Z) :
  all_bytes numeric tail = true ->
  extractDate (page_name fd i ("-tmp-" ++ tail)) = "".
Proof.
  intros Ht. unfold page_name.
  assert (Hl : exists s' c', "-tmp-" ++ tail = s' ++ String c' "" /\
                             numeric c' = true).
  { destruct tail as [|c t].
    - exists "-tmp", "-"%char. auto.
    - destruct (last_byte_split numeric c t Ht) as (s' & c' & -> & Hc).
      exists ("-tmp-" ++ s'), c'. rewrite append_assoc. auto. }
  destruct Hl as (s' & c' & -> & Hc).
  assert (Hr : fd ++ "-" ++ appendInt i 8 ++ ".xml" ++ s' ++ String c' ""
               = (fd ++ "-" ++ appendInt i 8 ++ ".xml" ++ s') ++ String c' "")
    by (rewrite !append_assoc; reflexivity).
  rewrite Hr. apply extractDate_last_byte; intros ->; discriminate.
Qed.

(** The last date depends on the dates found only. *)
Lemma Last_ext (dflt : string) (d d' : gmap string File) :
  (forall x, In x (cached_dates d) <-> In x (cached_dates d')) ->
  Last (mkDirLaster dflt extractDate) d = Last (mkDirLaster dflt extractDate) d'.
Proof.
  intros Hiff.
  destruct (Last_extractDate dflt d) as [[Hnil ->] | (l & -> & Hin & Hmax)];
    destruct (Last_extractDate dflt d') as [[Hnil' ->] | (l' & -> & Hin' & Hmax')].
  - reflexivity.
  - apply Hiff in Hin'. rewrite Hnil in Hin'. destruct Hin'.
  - apply Hiff in Hin. rewrite Hnil' in Hin. destruct Hin.
  - f_equal. apply (anti_symm string_le).
    + apply Hmax'. apply Hiff. exact Hin.
    + apply Hmax. apply Hiff. exact Hin'.
Qed.

Lemma defaultInterval_ext (h : Harvest) (d d' : gmap string File) :
  (forall x, In x (cached_dates d) <-> In x (cached_dates d')) ->
  defaultInterval h d = defaultInterval h d'.
Proof.
  intros Hiff. unfold defaultInterval.
  destruct (if (From h =? "")%string then earliestDate h
            else time.Parse "2006-01-02" (From h)) as [earliest|e]; [| reflexivity].
  cbn zeta. rewrite (Last_ext _ d d' Hiff). reflexivity.
Qed.

(** Names without date do not count. *)
Lemma cached_dates_insert (d : gmap string File) (name : string) (f : File) :
  extractDate name = "" ->
  forall x, In x (cached_dates (<[name := f]> d)) <-> In x (cached_dates d).
Proof.
  intros He x. rewrite !In_cached_dates.
  split; intros (Hx & n & Hn & Hd); (split; [exact Hx |]); exists n;
    (split; [| exact Hd]);
    assert (Hne : n <> name) by (intros ->; congruence).
  - rewrite lookup_insert_ne in Hn by congruence. exact Hn.
  - rewrite lookup_insert_ne by congruence. exact Hn.
Qed.

Lemma cached_dates_delete (d : gmap string File) (name : string) :
  extractDate name = "" ->
  forall x, In x (cached_dates (delete name d)) <-> In x (cached_dates d).
Proof.
  intros He x. rewrite !In_cached_dates.
  split; intros (Hx & n & Hn & Hd); (split; [exact Hx |]); exists n;
    (split; [| exact Hd]);
    assert (Hne : n <> name) by (intros ->; congruence).
  - rewrite lookup_delete_ne in Hn by congruence. exact Hn.
  - rewrite lookup_delete_ne by congruence. exact Hn.
Qed.

(** X17: the pages a sub-interval has written but not promoted do not
    count for the planner: writing or removing one leaves the result of
    [defaultInterval] as it was. *)
Theorem temporary_pages_do_not_move_the_plan (env : Env) (w : World) (h : Harvest)
    (d : gmap string File) (fd : string) (i : Z) (f : File) :
  defaultInterval h (<[page_name fd i (batch_suffix env w) := f]> d)
  = defaultInterval h d /\
  defaultInterval h (delete (page_name fd i (batch_suffix env w)) d)
  = defaultInterval h d.
Proof.
  pose proof (extractDate_batch_page fd (itoa (rand_Intn env (draws w))) i
                (all_bytes_appendInt _ 0)) as He.
  fold (batch_suffix env w) in He.
  split; apply defaultInterval_ext.
  - apply cached_dates_insert, He.
  - apply cached_dates_delete, He.
Qed.

(** ** More on MkdirAll *)

Lemma os_Stat_cons (t : gmap (list string) Node) (c : string) (parent : list string) :
  os_Stat t (c :: parent) =
  match t !! (c :: parent) with
  | Some n => Ok n
  | None =>
      match os_Stat t parent with
      | Ok n =>
          if isDir n then Err (PathError "stat" (path_string (c :: parent)) ENOENT)
          else Err (PathError "stat" (path_string (c :: parent)) ENOTDIR)
      | Err (PathError _ _ errno) =>
          Err (PathError "stat" (path_string (c :: parent)) errno)
      | Err e => Err e
      end
  end.
Proof. reflexivity. Qed.

(** In a tree of directories a path is there or it does not exist. *)
Lemma os_Stat_dirs (t : gmap (list string) Node) :
  (forall p n, t !! p = Some n -> isDir n = true) ->
  is_Some (t !! []) ->
  forall path,
    (exists n, os_Stat t path = Ok n) \/
    (exists op p, os_Stat t path = Err (PathError op p ENOENT)).
Proof.
  intros Hdirs [root Hroot]. induction path as [|c parent IH].
  - left. exists root. cbn [os_Stat]. rewrite Hroot. reflexivity.
  - rewrite os_Stat_cons. destruct (t !! (c :: parent)) as [n|]; [eauto |].
    right. destruct IH as [[n Hn] | (op & p & Hp)].
    + rewrite Hn. apply os_Stat_Ok in Hn. rewrite (Hdirs _ _ Hn). eauto.
    + rewrite Hp. eauto.
Qed.

(** [os.MkdirAll] keeps a tree of directories one. *)
Lemma os_MkdirAll_keeps_dirs (path : list string) (pm : Z) (fs : FSys) e fs1 :
  os_MkdirAll fs path pm = (e, fs1) ->
  (forall p n, tree fs !! p = Some n -> isDir n = true) ->
  forall p n, tree fs1 !! p = Some n -> isDir n = true.
Proof.
  intros H Hdirs p n Hp.
  destruct (os_MkdirAll_spec _ _ _ _ _ H) as (_ & _ & Hk & Hn & _).
  destruct (tree fs !! p) as [m|] eqn:Hm.
  - rewrite (Hk _ _ Hm) in Hp. injection Hp as <-. eapply Hdirs; eauto.
  - rewrite (Hn _ _ Hm Hp). reflexivity.
Qed.

(** In a tree of directories with a root, [os.MkdirAll] succeeds when no
    [mkdir] is refused. *)
Lemma os_MkdirAll_dirs (pm : Z) (path : list string) :
  forall fs,
    (forall p, mkdir_fault fs p = None) ->
    (forall p n, tree fs !! p = Some n -> isDir n = true) ->
    is_Some (tree fs !! []) ->
    (os_MkdirAll fs path pm).1 = None.
Proof.
  induction path as [|c parent IH]; intros fs Hft Hdirs Hroot.
  - destruct Hroot as [root Hroot]. cbn [os_MkdirAll os_Stat]. rewrite Hroot.
    rewrite (Hdirs _ _ Hroot). reflexivity.
  - rewrite os_MkdirAll_cons.
    destruct (os_Stat (tree fs) (c :: parent)) as [n|err] eqn:Hst.
    { apply os_Stat_Ok in Hst. rewrite (Hdirs _ _ Hst). reflexivity. }
    specialize (IH fs Hft Hdirs Hroot).
    destruct (os_MkdirAll fs parent pm) as [e1 fs1] eqn:Hrec.
    cbn [fst] in IH. subst e1.
    destruct (os_MkdirAll_spec _ _ _ _ _ Hrec) as (_ & Hf & _ & _ & Hex).
    destruct (Hex eq_refl) as (n & Hn & Hd).
    pose proof (os_MkdirAll_keeps_dirs _ _ _ _ _ Hrec Hdirs) as Hdirs1.
    unfold os_Mkdir. rewrite Hf, Hft.
    destruct (tree fs1 !! (c :: parent)) as [m|] eqn:Hm.
    + rewrite Hm, (Hdirs1 _ _ Hm). reflexivity.
    + rewrite Hn, Hd. reflexivity.
Qed.

(** X18: in a tree that holds directories only, among them the root, and
    when no [mkdir] is refused, [MkdirAll] succeeds, [h.Dir()] is a
    directory afterwards, and the entries there were are kept. *)
Theorem MkdirAll_makes_the_directory (env : Env) (h : Harvest) (fs : FSys) :
  (forall p, mkdir_fault fs p = None) ->
  (forall p n, tree fs !! p = Some n -> isDir n = true) ->
  is_Some (tree fs !! []) ->
  (MkdirAll env h fs).1 = None /\
  (exists n, tree (MkdirAll env h fs).2 !! DirPath env h = Some n /\ isDir n = true) /\
  (forall p n, tree fs !! p = Some n -> tree (MkdirAll env h fs).2 !! p = Some n).
Proof.
  intros Hft Hdirs Hroot. unfold MkdirAll.
  destruct (os_Stat_dirs (tree fs) Hdirs Hroot (DirPath env h))
    as [[n Hn] | (op & p & Hp)].
  - rewrite Hn. apply os_Stat_Ok in Hn. cbn [fst snd].
    split; [reflexivity |]. split; [| auto].
    exists n. split; [exact Hn | eapply Hdirs; eauto].
  - rewrite Hp. cbn [os_IsNotExist isENOENT].
    pose proof (os_MkdirAll_dirs mode_0755 (DirPath env h) fs Hft Hdirs Hroot) as He.
    destruct (os_MkdirAll fs (DirPath env h) mode_0755) as [e fs1] eqn:Hmk.
    cbn [fst] in He. subst e. cbn [fst snd].
    destruct (os_MkdirAll_spec _ _ _ _ _ Hmk) as (_ & _ & Hk & _ & Hex).
    split; [reflexivity |]. split; [apply Hex; reflexivity | exact Hk].
Qed.

Lemma MkdirAll_makes_the_directory_witness :
  (MkdirAll sample_env sample_harvest sample_fs).1 = None /\
  exists n, tree (MkdirAll sample_env sample_harvest sample_fs).2
              !! DirPath sample_env sample_harvest = Some n /\ isDir n = true.
Proof.
  destruct (MkdirAll_makes_the_directory sample_env sample_harvest sample_fs)
    as (He & Hdir & _).
  - intros p. reflexivity.
  - intros p n Hp. unfold sample_fs in Hp. cbn [tree] in Hp.
    repeat (apply lookup_insert_Some in Hp as [[_ <-] | [_ Hp]]; [reflexivity |]).
    apply lookup_singleton_Some in Hp as [_ <-]. reflexivity.
  - vm_compute. eauto.
  - split; [exact He | exact Hdir].
Defined.

(** X19: when the parent of [h.Dir()] is something else than a
    directory, [os.Stat] fails with an error that is not "does not
    exist", so [MkdirAll] creates nothing and still reports success. *)
Theorem MkdirAll_reports_success_below_a_file (env : Env) (h : Harvest)
    (fs : FSys) (c : string) (parent : list string) (n : Node) :
  DirPath env h = c :: parent ->
  tree fs !! (c :: parent) = None ->
  tree fs !! parent = Some n ->
  isDir n = false ->
  MkdirAll env h fs = (None, fs).
Proof.
  intros Hp Hnone Hparent Hfile. unfold MkdirAll.
  rewrite Hp, os_Stat_cons, Hnone.
  apply os_Stat_Ok in Hparent. rewrite Hparent, Hfile. reflexivity.
Qed.

Lemma MkdirAll_reports_success_below_a_file_witness :
  MkdirAll sample_env sample_harvest
    (mkFSys (<[[".metha"; "u"; "home"] := mkNode false 420]> (tree sample_fs))
            18 (fun _ => None))
  = (None,
     mkFSys (<[[".metha"; "u"; "home"] := mkNode false 420]> (tree sample_fs))
            18 (fun _ => None)).
Proof.
  apply (MkdirAll_reports_success_below_a_file sample_env sample_harvest
           (mkFSys (<[[".metha"; "u"; "home"] := mkNode false 420]> (tree sample_fs))
                   18 (fun _ => None))
           "I29haV9kYyNodHRwOi8vZXhhbXBsZS5vcmcvb2Fp" [".metha"; "u"; "home"]
           (mkNode false 420)).
  - vm_compute. reflexivity.
  - vm_compute. reflexivity.
  - vm_compute. reflexivity.
  - reflexivity.
Defined.

(** ** The name of the cache directory *)

Lemma b64_index (v : N) : (N.to_nat (N.land v 63) < 64)%nat.
Proof.
  change 63%N with (N.ones 6). rewrite N.land_ones.
  pose proof (N.mod_upper_bound v (2 ^ 6) ltac:(discriminate)) as H.
  change (2 ^ 6)%N with 64%N in *. lia.
Qed.

Lemma b64alphabet_urlsafe :
  forallb (fun i => match String.get i b64alphabet with
                    | Some c => urlsafe c
                    | None => false
                    end) (seq 0 64) = true.
Proof. vm_compute. reflexivity. Qed.

Lemma b64alphabet_distinct :
  forallb (fun i =>
     forallb (fun j =>
        match String.get i b64alphabet, String.get j b64alphabet with
        | Some c, Some c' => implb (c =? c')%char (i =? j)%nat
        | _, _ => false
        end) (seq 0 64)) (seq 0 64) = true.
Proof. vm_compute. reflexivity. Qed.

Lemma b64char_urlsafe (v : N) : urlsafe (b64char v) = true.
Proof.
  unfold b64char. pose proof (b64_index v) as Hi.
  pose proof b64alphabet_urlsafe as H. rewrite forallb_forall in H.
  specialize (H (N.to_nat (N.land v 63))). rewrite in_seq in H.
  specialize (H ltac:(lia)).
  destruct (String.get _ b64alphabet); [exact H | discriminate].
Qed.

Lemma b64char_inj (x y : N) : b64char x = b64char y -> N.land x 63 = N.land y 63.
Proof.
  unfold b64char. pose proof (b64_index x) as Hx. pose proof (b64_index y) as Hy.
  pose proof b64alphabet_distinct as H. rewrite forallb_forall in H.
  specialize (H (N.to_nat (N.land x 63))). rewrite in_seq in H.
  specialize (H ltac:(lia)). rewrite forallb_forall in H.
  specialize (H (N.to_nat (N.land y 63))). rewrite in_seq in H.
  specialize (H ltac:(lia)).
  destruct (String.get (N.to_nat (N.land x 63)) b64alphabet) as [c|]; [| discriminate].
  destruct (String.get (N.to_nat (N.land y 63)) b64alphabet) as [c'|]; [| discriminate].
  intros ->. rewrite Ascii.eqb_refl in H. cbn [implb] in H.
  apply Nat.eqb_eq in H. lia.
Qed.

Lemma sextet (v k : N) : N.land (N.shiftr v k) 63 = ((v / 2 ^ k) mod 64)%N.
Proof.
  change 63%N with (N.ones 6). rewrite N.land_ones, N.shiftr_div_pow2. reflexivity.
Qed.

Lemma lor_shiftl_add (a b k : N) :
  (b < 2 ^ k)%N -> N.lor (N.shiftl a k) b = (a * 2 ^ k + b)%N.
Proof.
  intros Hb.
  assert (Hand : N.land (N.shiftl a k) b = 0%N).
  { apply N.bits_inj. intros i. rewrite N.land_spec, N.bits_0.
    destruct (N.lt_ge_cases i k) as [Hlt | Hge].
    - rewrite N.shiftl_spec_low by exact Hlt. reflexivity.
    - rewrite <- (N.mod_small b (2 ^ k) Hb).
      rewrite N.mod_pow2_bits_high by exact Hge. apply andb_false_r. }
  rewrite <- N.lxor_lor, <- N.add_nocarry_lxor by exact Hand.
  rewrite N.shiftl_mul_pow2. reflexivity.
Qed.

Lemma byte_bound (a : ascii) : (N_of_ascii a < 256)%N.
Proof. apply N_ascii_bounded. Qed.

Lemma group3_value (a b c : ascii) :
  N.lor (N.shiftl (N_of_ascii a) 16)
        (N.lor (N.shiftl (N_of_ascii b) 8) (N_of_ascii c))
  = (N_of_ascii a * 65536 + N_of_ascii b * 256 + N_of_ascii c)%N.
Proof.
  pose proof (byte_bound b). pose proof (byte_bound c).
  rewrite (lor_shiftl_add (N_of_ascii b) (N_of_ascii c) 8)
    by (change (2 ^ 8)%N with 256%N; lia).
  rewrite lor_shiftl_add by (change (2 ^ 16)%N with 65536%N; change (2 ^ 8)%N with 256%N; lia).
  change (2 ^ 16)%N with 65536%N. change (2 ^ 8)%N with 256%N. lia.
Qed.

Lemma group2_value (a b : ascii) :
  N.lor (N.shiftl (N_of_ascii a) 16) (N.shiftl (N_of_ascii b) 8)
  = (N_of_ascii a * 65536 + N_of_ascii b * 256)%N.
Proof.
  pose proof (byte_bound b).
  rewrite (N.shiftl_mul_pow2 (N_of_ascii b) 8).
  rewrite lor_shiftl_add by (change (2 ^ 16)%N with 65536%N; change (2 ^ 8)%N with 256%N; lia).
  change (2 ^ 16)%N with 65536%N. change (2 ^ 8)%N with 256%N. lia.
Qed.

Lemma group1_value (a : ascii) :
  N.shiftl (N_of_ascii a) 16 = (N_of_ascii a * 65536)%N.
Proof. rewrite N.shiftl_mul_pow2. reflexivity. Qed.

Lemma N_of_ascii_inj (a b : ascii) : N_of_ascii a = N_of_ascii b -> a = b.
Proof.
  intros H. rewrite <- (ascii_N_embedding a), <- (ascii_N_embedding b), H.
  reflexivity.
Qed.

Lemma div_mod_64 (x y : N) :
  (x mod 64 = y mod 64)%N -> (x / 64 = y / 64)%N -> x = y.
Proof.
  intros Hm Hd. rewrite (N.Div0.div_mod x 64), (N.Div0.div_mod y 64), Hm, Hd.
  reflexivity.
Qed.

(** Four sextets determine a number of 24 bits. *)
Lemma sextets_value (v v' : N) :
  (v < 16777216)%N -> (v' < 16777216)%N ->
  ((v / 2 ^ 18) mod 64 = (v' / 2 ^ 18) mod 64)%N ->
  ((v / 2 ^ 12) mod 64 = (v' / 2 ^ 12) mod 64)%N ->
  ((v / 2 ^ 6) mod 64 = (v' / 2 ^ 6) mod 64)%N ->
  (v mod 64 = v' mod 64)%N ->
  v = v'.
Proof.
  change (2 ^ 18)%N with (64 * (64 * 64))%N. change (2 ^ 12)%N with (64 * 64)%N.
  change (2 ^ 6)%N with 64%N.
  rewrite <- !N.Div0.div_div.
  intros Hv Hv' H18 H12 H6 H0.
  rewrite !(N.mod_small (_ / 64 / 64 / 64)) in H18
    by (rewrite !N.Div0.div_div; apply N.Div0.div_lt_upper_bound; assumption).
  apply div_mod_64; [exact H0 |].
  apply div_mod_64; [exact H6 |].
  apply div_mod_64; [exact H12 | exact H18].
Qed.

Lemma EncodeToString_3 (a b c : ascii) (rest : string) :
  EncodeToString (String a (String b (String c rest))) =
  String (b64char (N.shiftr (N.lor (N.shiftl (N_of_ascii a) 16)
            (N.lor (N.shiftl (N_of_ascii b) 8) (N_of_ascii c))) 18))
    (String (b64char (N.shiftr (N.lor (N.shiftl (N_of_ascii a) 16)
               (N.lor (N.shiftl (N_of_ascii b) 8) (N_of_ascii c))) 12))
       (String (b64char (N.shiftr (N.lor (N.shiftl (N_of_ascii a) 16)
                  (N.lor (N.shiftl (N_of_ascii b) 8) (N_of_ascii c))) 6))
          (String (b64char (N.lor (N.shiftl (N_of_ascii a) 16)
                     (N.lor (N.shiftl (N_of_ascii b) 8) (N_of_ascii c))))
             (EncodeToString rest)))).
Proof. reflexivity. Qed.

Lemma EncodeToString_2 (a b : ascii) :
  EncodeToString (String a (String b "")) =
  String (b64char (N.shiftr (N.lor (N.shiftl (N_of_ascii a) 16)
                               (N.shiftl (N_of_ascii b) 8)) 18))
    (String (b64char (N.shiftr (N.lor (N.shiftl (N_of_ascii a) 16)
                                  (N.shiftl (N_of_ascii b) 8)) 12))
       (String (b64char (N.shiftr (N.lor (N.shiftl (N_of_ascii a) 16)
                                     (N.shiftl (N_of_ascii b) 8)) 6)) "")).
Proof. reflexivity. Qed.

Lemma EncodeToString_1 (a : ascii) :
  EncodeToString (String a "") =
  String (b64char (N.shiftr (N.shiftl (N_of_ascii a) 16) 18))
    (String (b64char (N.shiftr (N.shiftl (N_of_ascii a) 16) 12)) "").
Proof. reflexivity. Qed.

(** Induction in steps of three bytes. *)
Lemma string_ind3 (P : string -> Prop) :
  P "" -> (forall a, P (String a "")) -> (forall a b, P (String a (String b ""))) ->
  (forall a b c rest, P rest -> P (String a (String b (String c rest)))) ->
  forall s, P s.
Proof.
  intros H0 H1 H2 H3 s.
  assert (H : P s /\ (forall a, P (String a s)) /\ (forall a b, P (String a (String b s)))).
  { induction s as [|c s (IH0 & IH1 & IH2)]; [auto |].
    split; [apply IH1 |]. split; [intros a; apply IH2 |].
    intros a b. apply H3, IH0. }
  apply H.
Qed.

(** The encoding uses the URL-safe alphabet only. *)
Lemma EncodeToString_urlsafe (s : string) :
  all_bytes urlsafe (EncodeToString s) = true.
Proof.
  induction s as [| a | a b | a b c rest IH] using string_ind3.
  - reflexivity.
  - rewrite EncodeToString_1. cbn [all_bytes]. rewrite !b64char_urlsafe. reflexivity.
  - rewrite EncodeToString_2. cbn [all_bytes]. rewrite !b64char_urlsafe. reflexivity.
  - rewrite EncodeToString_3. cbn [all_bytes]. rewrite !b64char_urlsafe, IH.
    reflexivity.
Qed.

Lemma group_bound (a b c : N) :
  (a < 256)%N -> (b < 256)%N -> (c < 256)%N ->
  (a * 65536 + b * 256 + c < 16777216)%N.
Proof. lia. Qed.

Lemma group_bytes (a b c a' b' c' : N) :
  (a < 256)%N -> (b < 256)%N -> (c < 256)%N ->
  (a' < 256)%N -> (b' < 256)%N -> (c' < 256)%N ->
  (a * 65536 + b * 256 + c = a' * 65536 + b' * 256 + c')%N ->
  a = a' /\ b = b' /\ c = c'.
Proof. lia. Qed.

(** The sextets of a group of three bytes determine the bytes. *)
Lemma sextets_bytes (a b c a' b' c' : N) :
  (a < 256)%N -> (b < 256)%N -> (c < 256)%N ->
  (a' < 256)%N -> (b' < 256)%N -> (c' < 256)%N ->
  N.land (N.shiftr (a * 65536 + b * 256 + c) 18) 63
  = N.land (N.shiftr (a' * 65536 + b' * 256 + c') 18) 63 ->
  N.land (N.shiftr (a * 65536 + b * 256 + c) 12) 63
  = N.land (N.shiftr (a' * 65536 + b' * 256 + c') 12) 63 ->
  N.land (N.shiftr (a * 65536 + b * 256 + c) 6) 63
  = N.land (N.shiftr (a' * 65536 + b' * 256 + c') 6) 63 ->
  N.land (a * 65536 + b * 256 + c) 63 = N.land (a' * 65536 + b' * 256 + c') 63 ->
  a = a' /\ b = b' /\ c = c'.
Proof.
  intros Ha Hb Hc Ha' Hb' Hc' H18 H12 H6 H0.
  rewrite !sextet in *.
  change 63%N with (N.ones 6) in H0. rewrite !N.land_ones in H0.
  change (2 ^ 6)%N with 64%N in H0.
  apply group_bytes; try assumption.
  apply sextets_value; try assumption; apply group_bound; assumption.
Qed.

Lemma low_sextet_zero (a b : N) : N.land (a * 65536 + b * 256 + 0) 63 = 0%N.
Proof.
  change 63%N with (N.ones 6). rewrite N.land_ones. change (2 ^ 6)%N with 64%N.
  replace (a * 65536 + b * 256 + 0)%N with ((a * 1024 + b * 4) * 64)%N by lia.
  apply N.Div0.mod_mul.
Qed.

Lemma mid_sextet_zero (a : N) :
  N.land (N.shiftr (a * 65536 + 0 * 256 + 0) 6) 63 = 0%N.
Proof.
  rewrite sextet. change (2 ^ 6)%N with 64%N.
  replace (a * 65536 + 0 * 256 + 0)%N with (a * 1024 * 64)%N by lia.
  rewrite N.div_mul by discriminate.
  replace (a * 1024)%N with (a * 16 * 64)%N by lia.
  apply N.Div0.mod_mul.
Qed.

(** [EncodeToString] loses nothing. *)
Lemma EncodeToString_inj (s : string) :
  forall t, EncodeToString s = EncodeToString t -> s = t.
Proof.
  induction s as [| a | a b | a b c rest IH] using string_ind3;
    intros [|a' [|b' [|c' rest']]] H;
    rewrite ?EncodeToString_1, ?EncodeToString_2, ?EncodeToString_3 in H;
    try reflexivity; try discriminate H.
  - injection H as H18 H12. apply b64char_inj in H18, H12.
    rewrite !group1_value in H18, H12.
    replace (N_of_ascii a * 65536)%N
      with (N_of_ascii a * 65536 + 0 * 256 + 0)%N in H18, H12 by lia.
    replace (N_of_ascii a' * 65536)%N
      with (N_of_ascii a' * 65536 + 0 * 256 + 0)%N in H18, H12 by lia.
    destruct (sextets_bytes (N_of_ascii a) 0 0 (N_of_ascii a') 0 0) as (Ha & _);
      try apply byte_bound; try reflexivity; try assumption.
    + rewrite !mid_sextet_zero. reflexivity.
    + rewrite !low_sextet_zero. reflexivity.
    + apply N_of_ascii_inj in Ha. subst. reflexivity.
  - injection H as H18 H12 H6. apply b64char_inj in H18, H12, H6.
    rewrite !group2_value in H18, H12, H6.
    replace (N_of_ascii a * 65536 + N_of_ascii b * 256)%N
      with (N_of_ascii a * 65536 + N_of_ascii b * 256 + 0)%N in H18, H12, H6 by lia.
    replace (N_of_ascii a' * 65536 + N_of_ascii b' * 256)%N
      with (N_of_ascii a' * 65536 + N_of_ascii b' * 256 + 0)%N in H18, H12, H6 by lia.
    destruct (sextets_bytes (N_of_ascii a) (N_of_ascii b) 0
                (N_of_ascii a') (N_of_ascii b') 0) as (Ha & Hb & _);
      try apply byte_bound; try reflexivity; try assumption.
    + rewrite !low_sextet_zero. reflexivity.
    + apply N_of_ascii_inj in Ha, Hb. subst. reflexivity.
  - injection H as H18 H12 H6 H0 Hrest. apply b64char_inj in H18, H12, H6, H0.
    rewrite !group3_value in H18, H12, H6, H0.
    destruct (sextets_bytes (N_of_ascii a) (N_of_ascii b) (N_of_ascii c)
                (N_of_ascii a') (N_of_ascii b') (N_of_ascii c')) as (Ha & Hb & Hc);
      try apply byte_bound; try assumption.
    apply N_of_ascii_inj in Ha, Hb, Hc. subst.
    rewrite (IH rest' Hrest). reflexivity.
Qed.

Lemma components_app (a : string) :
  forall cur acc s,
    components (a ++ String "/" s) cur acc = components s "" (components a cur acc).
Proof.
  induction a as [|c a IH]; intros cur acc s.
  - reflexivity.
  - rewrite append_cons. cbn [components].
    destruct (c =? "/")%char; apply IH.
Qed.

Lemma components_plain (e : string) :
  all_bytes not_slash e = true ->
  forall cur acc,
    components e cur acc
    = if (cur ++ e =? "")%string then acc else (cur ++ e) :: acc.
Proof.
  induction e as [|c e IH]; intros He cur acc.
  - cbn [components]. rewrite append_empty_r. reflexivity.
  - cbn [all_bytes] in He. apply andb_true_iff in He as [Hc He].
    unfold not_slash in Hc. apply negb_true_iff in Hc.
    cbn [components]. rewrite Hc, (IH He), append_assoc. reflexivity.
Qed.

Lemma urlsafe_not_slash (c : ascii) : urlsafe c = true -> not_slash c = true.
Proof.
  intros H. unfold not_slash. destruct (Ascii.eqb_spec c "/") as [-> | _];
    [discriminate H | reflexivity].
Qed.

(** X20: for a [BaseDir] without component [.] or [..], the cache
    directory of a harvest is one component below [BaseDir], and its
    name is made of letters, digits, [-] and [_], whatever bytes the
    set, the format and the URL hold. *)
Theorem Dir_is_one_safe_component (env : Env) (h : Harvest) :
  clean_BaseDir env ->
  all_bytes urlsafe
    (EncodeToString (Set_ h ++ "#" ++ Format h ++ "#" ++ BaseURL h)) = true /\
  DirPath env h
  = EncodeToString (Set_ h ++ "#" ++ Format h ++ "#" ++ BaseURL h)
    :: components (BaseDir env) "" [].
Proof.
  intros _. split; [apply EncodeToString_urlsafe |].
  unfold DirPath, Dir.
  change (BaseDir env ++ "/" ++ ?e) with (BaseDir env ++ String "/" e).
  rewrite components_app, components_plain
    by (eapply all_bytes_impl; [apply urlsafe_not_slash | apply EncodeToString_urlsafe]).
  rewrite append_nil.
  destruct (String.eqb_spec
              (EncodeToString (Set_ h ++ "#" ++ Format h ++ "#" ++ BaseURL h)) "")
    as [Hnil | _]; [| reflexivity].
  apply (EncodeToString_inj _ "") in Hnil.
  apply append_eq_nil in Hnil as [_ Hnil]. discriminate.
Qed.

Lemma Dir_is_one_safe_component_witness :
  all_bytes urlsafe
    (EncodeToString (Set_ sample_harvest ++ "#" ++ Format sample_harvest ++ "#"
                     ++ BaseURL sample_harvest)) = true /\
  DirPath sample_env sample_harvest
  = EncodeToString (Set_ sample_harvest ++ "#" ++ Format sample_harvest ++ "#"
                    ++ BaseURL sample_harvest)
    :: components (BaseDir sample_env) "" [].
Proof.
  apply (Dir_is_one_safe_component sample_env sample_harvest).
  unfold clean_BaseDir.
  change (components (BaseDir sample_env) "" []) with [".metha"; "u"; "home"].
  repeat (constructor; [split; discriminate |]). constructor.
Defined.

Lemma before_hash (x : string) :
  forall y r r',
    all_bytes no_hash x = true -> all_bytes no_hash y = true ->
    x ++ String "#" r = y ++ String "#" r' -> x = y /\ r = r'.
Proof.
  induction x as [|c x IH]; intros [|c' y] r r' Hx Hy Heq;
    rewrite ?append_cons, ?append_nil in Heq.
  - injection Heq as ->. auto.
  - injection Heq as <- _. cbn in Hy. discriminate.
  - injection Heq as -> _. cbn in Hx. discriminate.
  - injection Heq as -> Heq.
    cbn [all_bytes] in Hx, Hy.
    apply andb_true_iff in Hx as [_ Hx]. apply andb_true_iff in Hy as [_ Hy].
    destruct (IH _ _ _ Hx Hy Heq) as [-> ->]. auto.
Qed.

(** X21: two harvests with the same cache directory have the same set,
    format and base URL, provided the sets and the formats hold no [#]. *)
Theorem Dir_injective (env : Env) (h1 h2 : Harvest) :
  all_bytes no_hash (Set_ h1) = true -> all_bytes no_hash (Format h1) = true ->
  all_bytes no_hash (Set_ h2) = true -> all_bytes no_hash (Format h2) = true ->
  Dir env h1 = Dir env h2 ->
  Set_ h1 = Set_ h2 /\ Format h1 = Format h2 /\ BaseURL h1 = BaseURL h2.
Proof.
  intros Hs1 Hf1 Hs2 Hf2 Heq. unfold Dir in Heq.
  apply append_inv_head, (append_inv_head "/"), EncodeToString_inj in Heq.
  change (Set_ h1 ++ String "#" (Format h1 ++ String "#" (BaseURL h1))
          = Set_ h2 ++ String "#" (Format h2 ++ String "#" (BaseURL h2))) in Heq.
  apply before_hash in Heq as [Hs Heq]; [| assumption | assumption].
  apply before_hash in Heq as [Hf Hu]; [| assumption | assumption].
  auto.
Qed.

Lemma Dir_injective_witness :
  Set_ sample_harvest = Set_ (set_From "2020-01-15" sample_harvest) /\
  Format sample_harvest = Format (set_From "2020-01-15" sample_harvest) /\
  BaseURL sample_harvest = BaseURL (set_From "2020-01-15" sample_harvest).
Proof.
  apply (Dir_injective sample_env sample_harvest (set_From "2020-01-15" sample_harvest));
    reflexivity.
Defined.

(** ** More on the planner *)

(** The chunks of a day layout leave the time of day alone. *)
Lemma parse_chunks_day_time (v : string) (f g : time.fields) :
  time.parse_chunks (time.chunks "2006-01-02") v f = Some g ->
  time.f_hour g = time.f_hour f /\ time.f_min g = time.f_min f /\
  time.f_sec g = time.f_sec f /\ time.f_nsec g = time.f_nsec f.
Proof.
  change (time.chunks "2006-01-02") with
    [time.stdLongYear; time.literal "-"; time.stdZeroMonth; time.literal "-";
     time.stdZeroDay].
  cbn [time.parse_chunks]. intros H.
  destruct (time.getyear v) as [[y v1]|]; [| discriminate].
  destruct v1 as [|c1 v1]; [discriminate |].
  destruct ("-" =? c1)%char; [| discriminate].
  destruct (time.getnum v1 true) as [[m v2]|]; [| discriminate].
  destruct (time.inRange 1 12 m); [| discriminate].
  destruct v2 as [|c2 v2]; [discriminate |].
  destruct ("-" =? c2)%char; [| discriminate].
  destruct (time.getnum v2 true) as [[d v3]|]; [| discriminate].
  destruct v3; [| discriminate].
  injection H as <-. cbn. auto.
Qed.

Lemma Parse_day_midnight (v : string) (t : time.Time) :
  time.Parse "2006-01-02" v = Ok t ->
  time.hour t = 0 /\ time.minute t = 0 /\ time.second t = 0 /\ time.nsec t = 0.
Proof.
  unfold time.Parse.
  destruct (time.parse_chunks _ v _) as [g|] eqn:Hp; [| discriminate].
  destruct (time.inRange _ _ _); [| discriminate].
  intros [= <-]. apply parse_chunks_day_time in Hp. exact Hp.
Qed.

Lemma AddDate_time_of_day (years months days : Z) (t : time.Time) :
  time.hour (time.AddDate years months days t) = time.hour t /\
  time.minute (time.AddDate years months days t) = time.minute t /\
  time.second (time.AddDate years months days t) = time.second t /\
  time.nsec (time.AddDate years months days t) = time.nsec t.
Proof.
  unfold time.AddDate. destruct (time.shift_days _ _) as [[y m] d]. cbn. auto.
Qed.

Lemma next_day_valid (y m d : Z) :
  1 <= m <= 12 -> 1 <= d <= time.daysIn m y ->
  let '(y1, m1, d1) := time.next_day (y, m, d) in
  1 <= m1 <= 12 /\ 1 <= d1 <= time.daysIn m1 y1.
Proof.
  intros Hm Hd. unfold time.next_day.
  destruct (Z.ltb_spec d (time.daysIn m y)); [lia |].
  destruct (Z.ltb_spec m 12).
  - pose proof (daysIn_bounds (m + 1) y). lia.
  - pose proof (daysIn_bounds 1 (y + 1)). lia.
Qed.

(** X22: an interval that [defaultInterval] plans begins at midnight of
    a day of the calendar, the last date of the cache or the day after
    it, and its end is what the code computes from the start of the
    harvest: the end of the day of [Started.AddDate(0, 0, -1)]. *)
Theorem defaultInterval_begins_at_midnight (h : Harvest) (d : gmap string File)
    (iv : Interval) :
  defaultInterval h d = Ok iv ->
  (time.hour (Begin iv) = 0 /\ time.minute (Begin iv) = 0 /\
   time.second (Begin iv) = 0 /\ time.nsec (Begin iv) = 0) /\
  1 <= time.month (Begin iv) <= 12 /\
  1 <= time.day (Begin iv)
    <= time.daysIn (time.month (Begin iv)) (time.year (Begin iv)) /\
  End iv = now.EndOfDay (time.AddDate 0 0 (-1) (Started h)).
Proof.
  intros Hok.
  destruct (defaultInterval_Ok_inv h d iv Hok)
    as (earliest & last & t & _ & _ & Hparse & Hbegin & Hend & _).
  pose proof (Parse_day_midnight last t Hparse) as Hmid.
  destruct (Parse_valid _ _ _ Hparse) as (_ & Hm & Hd).
  split; [| split; [| split; [| exact Hend]]]; rewrite Hbegin;
    destruct (negb _); try assumption.
  - destruct (AddDate_time_of_day 0 0 1 t) as (-> & -> & -> & ->). exact Hmid.
  - rewrite (AddDate_next_day t Hm Hd).
    pose proof (next_day_valid _ _ _ Hm Hd) as Hn.
    destruct (time.next_day _) as [[y1 m1] d1]. cbn. apply Hn.
  - rewrite (AddDate_next_day t Hm Hd).
    pose proof (next_day_valid _ _ _ Hm Hd) as Hn.
    destruct (time.next_day _) as [[y1 m1] d1]. cbn. apply Hn.
Qed.

Lemma defaultInterval_begins_at_midnight_witness :
  defaultInterval sample_harvest
    {["2020-01-31-00000000.xml.gz" := mkFile "<page/>" true]}
  = Ok (mkInterval (time.mkTime 2020 2 1 0 0 0 0)
                   (time.mkTime 2020 3 9 23 59 59 999999999)) /\
  time.hour (Begin (mkInterval (time.mkTime 2020 2 1 0 0 0 0)
                               (time.mkTime 2020 3 9 23 59 59 999999999))) = 0.
Proof.
  assert (Hplan : defaultInterval sample_harvest
                    {["2020-01-31-00000000.xml.gz" := mkFile "<page/>" true]}
                  = Ok (mkInterval (time.mkTime 2020 2 1 0 0 0 0)
                                   (time.mkTime 2020 3 9 23 59 59 999999999)))
    by (vm_compute; reflexivity).
  split; [exact Hplan |].
  destruct (defaultInterval_begins_at_midnight sample_harvest
              {["2020-01-31-00000000.xml.gz" := mkFile "<page/>" true]}
              (mkInterval (time.mkTime 2020 2 1 0 0 0 0)
                          (time.mkTime 2020 3 9 23 59 59 999999999)))
    as ((Hh & _) & _).
  - exact Hplan.
  - exact Hh.
Defined.

(** ** A failure in the loop *)

Lemma Sorted_MustGlob (pat : string) (d : gmap string File) :
  Sorted string_le (MustGlob pat d).
Proof.
  apply StronglySorted_Sorted. unfold MustGlob.
  apply StronglySorted_filter, Sorted_StronglySorted; [apply _ |].
  apply Sorted_ReadDir.
Qed.

(** A glob sees the names that match only. *)
Lemma MustGlob_ext (pat : string) (d d' : gmap string File) :
  (forall x, glob_match pat x = true -> d' !! x = d !! x) ->
  MustGlob pat d' = MustGlob pat d.
Proof.
  intros H. apply MustGlob_unique.
  - apply Sorted_MustGlob.
  - apply NoDup_ListNoDup, NoDup_MustGlob.
  - intros x. rewrite In_MustGlob. split.
    + intros [Hx Hm]. rewrite (H x Hm). auto.
    + intros [Hx Hm]. rewrite <- (H x Hm). auto.
Qed.

Lemma glob_gz_inv (x : string) :
  glob_match "*.xml.gz" x = true -> exists a, x = a ++ ".xml.gz".
Proof.
  intros Hm. apply (glob_match_star_plain_inv ".xml.gz" x eq_refl) in Hm
    as (a & -> & _). eauto.
Qed.

(** X23: when the loop of a sub-interval ends with an error (a failed
    request, a protocol error, a page that cannot be marshalled or
    written), [runInterval] returns this error without promoting
    anything: the permanent files are those there were, and only names
    of temporary files of this batch can have changed. *)
Theorem runInterval_loop_error_promotes_nothing (env : Env) (h : Harvest)
    (iv : Interval) (script script' : list (result Response)) (w w1 : World)
    (err : error) :
  pages env h iv (batch_suffix env w) script "" 0 0
        (mkWorld (dir w) (sent w) (slept w) (S (draws w)))
  = (Return err, script', w1) ->
  runInterval env h iv script w = Some (Some err, script', w1) /\
  Files (dir w1) = Files (dir w) /\
  (forall x, glob_match ("*.xml" ++ batch_suffix env w) x = false ->
             dir w1 !! x = dir w !! x).
Proof.
  intros Hp.
  assert (Hframe : forall x, glob_match ("*.xml" ++ batch_suffix env w) x = false ->
                             dir w1 !! x = dir w !! x).
  { intros x Hm.
    destruct (pages_frame env h iv (batch_suffix env w) script "" 0 0
                (mkWorld (dir w) (sent w) (slept w) (S (draws w)))) as (Hf & _).
    rewrite Hp in Hf. cbn [snd dir] in Hf.
    destruct (Hf x) as [Heq | (k & b & _ & -> & _)]; [exact Heq | exfalso].
    unfold batch_suffix in Hm.
    rewrite glob_page_name in Hm;
      [discriminate | apply filedate_numeric | apply all_bytes_appendInt]. }
  split; [| split; [| exact Hframe]].
  - unfold runInterval. fold (batch_suffix env w). rewrite Hp. reflexivity.
  - unfold Files. apply MustGlob_ext. intros x Hm. apply Hframe.
    apply glob_gz_inv in Hm as [a ->]. unfold batch_suffix.
    replace (a ++ ".xml.gz") with ((a ++ ".xml") ++ ".gz")
      by (rewrite append_assoc; reflexivity).
    apply gz_not_in_batch, all_bytes_appendInt.
Qed.

Lemma runInterval_loop_error_promotes_nothing_witness :
  runInterval sample_env sample_harvest sample_interval
    [page "t1" ["r"] "<p0/>"; Err (TransportError "timeout")]
    (mkWorld {["2019-12-31-00000000.xml.gz" := mkFile "<old/>" true]} [] 0 0)
  = Some (Some (TransportError "timeout"), [],
          (pages sample_env sample_harvest sample_interval
             (batch_suffix sample_env
                (mkWorld {["2019-12-31-00000000.xml.gz" := mkFile "<old/>" true]} [] 0 0))
             [page "t1" ["r"] "<p0/>"; Err (TransportError "timeout")] "" 0 0
             (mkWorld {["2019-12-31-00000000.xml.gz" := mkFile "<old/>" true]} [] 0 1)).2).
Proof.
  apply (runInterval_loop_error_promotes_nothing sample_env sample_harvest
           sample_interval [page "t1" ["r"] "<p0/>"; Err (TransportError "timeout")] []
           (mkWorld {["2019-12-31-00000000.xml.gz" := mkFile "<old/>" true]} [] 0 0)
           _ (TransportError "timeout")).
  vm_compute. reflexivity.
Defined.

(** ** The sweep and the permanent pages *)

Lemma glob_tmp_numeric (n : string) :
  all_bytes numeric n = true -> glob_match "*.xml-tmp*" (n ++ ".xml.gz") = false.
Proof.
  induction n as [|c n IH]; intros Hn; [reflexivity |].
  cbn [all_bytes] in Hn. apply andb_true_iff in Hn as [Hc Hn].
  rewrite append_cons.
  change "*.xml-tmp*" with (String "*" ".xml-tmp*").
  rewrite glob_match_star_eq.
  change (String "*" ".xml-tmp*") with "*.xml-tmp*". rewrite (IH Hn), andb_false_r.
  rewrite orb_false_r.
  change ".xml-tmp*" with (String "." "xml-tmp*").
  rewrite glob_match_literal_cons by reflexivity.
  destruct (Ascii.eqb_spec "." c) as [<- | _]; [discriminate Hc | reflexivity].
Qed.

Lemma promoted_name_numeric (fd : string) (i : Z) :
  all_bytes numeric fd = true ->
  exists n, promoted_name fd i = n ++ ".xml.gz" /\ all_bytes numeric n = true.
Proof.
  intros Hfd. exists (fd ++ "-" ++ appendInt i 8). split.
  - unfold promoted_name. rewrite !append_assoc. reflexivity.
  - rewrite !all_bytes_app, Hfd, all_bytes_appendInt. reflexivity.
Qed.

(** X25: the permanent pages of an interval are no temporary files: the
    sweep does not list them and leaves them as they are; and in a cache
    directory whose path holds no metacharacter of [filepath.Glob],
    [Files] lists them when they are there. *)
Theorem promoted_pages_survive_the_sweep (env : Env) (h : Harvest) (iv : Interval)
    (i : Z) (d : gmap string File) :
  ~ In (promoted_name (filedate h iv) i) (temporaryFiles d) /\
  (cleanupTemporaryFiles env d).2 !! promoted_name (filedate h iv) i
  = d !! promoted_name (filedate h iv) i /\
  (literal_dir env h ->
   (In (promoted_name (filedate h iv) i) (Files d)
    <-> is_Some (d !! promoted_name (filedate h iv) i))).
Proof.
  destruct (promoted_name_numeric (filedate h iv) i (filedate_numeric h iv))
    as (n & Hname & Hn).
  assert (Hm : glob_match "*.xml-tmp*" (promoted_name (filedate h iv) i) = false)
    by (rewrite Hname; apply glob_tmp_numeric, Hn).
  split; [| split].
  - unfold temporaryFiles. rewrite In_MustGlob. intros [_ Hm2]. congruence.
  - unfold cleanupTemporaryFiles.
    destruct (cleanup_loop (faults env) (temporaryFiles d) d) as [e d1] eqn:Hc.
    destruct (cleanup_loop_spec _ _ _ _ _ Hc) as (Hframe & _).
    cbn [snd]. apply Hframe.
    unfold temporaryFiles. rewrite In_MustGlob. intros [_ Hm2]. congruence.
  - intros _. unfold Files. rewrite In_MustGlob.
    assert (Hgz : glob_match "*.xml.gz" (promoted_name (filedate h iv) i) = true).
    { rewrite Hname. change "*.xml.gz" with (String "*" ".xml.gz").
      apply glob_match_star; [apply numeric_not_slash, Hn | reflexivity]. }
    rewrite Hgz. split; [intros [Hx _]; exact Hx | auto].
Qed.

(** ** NewHarvest *)

(** X24: a harvest as [NewHarvest] returns it has the base URL it was
    given, unchanged, the Identify record of the endpoint, and zero
    limits.  With [MaxRequests = 0] the loop of a sub-interval stops
    before its first request, so such a harvest asks for no records
    until the caller sets the limit. *)
Theorem NewHarvest_has_zero_limits (c_Do : Request -> result Identify)
    (baseURL : string) (h : Harvest) :
  NewHarvest c_Do baseURL = Ok h ->
  BaseURL h = baseURL /\
  c_Do (mkRequest baseURL "" "Identify" "" "" false false "" "") = Ok (HIdentify h) /\
  MaxRequests h = 0 /\ MaxEmptyResponses h = 0 /\
  forall env iv suffix script w,
    pages env h iv suffix script "" 0 0 w = (Break, script, w).
Proof.
  unfold NewHarvest, identify. cbn [BaseURL].
  destruct (c_Do _) as [id|err] eqn:Hdo; [| discriminate].
  intros [= <-]. cbn.
  split; [reflexivity |]. split; [reflexivity |].
  split; [reflexivity |]. split; [reflexivity |].
  intros env iv suffix script w. destruct script; reflexivity.
Qed.

Lemma NewHarvest_has_zero_limits_witness :
  MaxRequests
    (mkHarvest "example.org/oai" "" "" "" "" 0 false false false 0 false false
       (mkIdentify "YYYY-MM-DD" "2020-01-15") zeroTime) = 0 /\
  BaseURL
    (mkHarvest "example.org/oai" "" "" "" "" 0 false false false 0 false false
       (mkIdentify "YYYY-MM-DD" "2020-01-15") zeroTime) = "example.org/oai".
Proof.
  destruct (NewHarvest_has_zero_limits
              (fun _ => Ok (mkIdentify "YYYY-MM-DD" "2020-01-15")) "example.org/oai"
              (mkHarvest "example.org/oai" "" "" "" "" 0 false false false 0 false false
                 (mkIdentify "YYYY-MM-DD" "2020-01-15") zeroTime))
    as (Hu & _ & Hm & _).
  - reflexivity.
  - split; [exact Hm | exact Hu].
Defined.

(** ** The loop over the sub-intervals *)


(** ** The field Until *)

Lemma rollback_Until (env : Env) (h : Harvest) (u : string) (err : error)
    (renamed : list string) :
  forall d, rollback env (set_Until u h) err renamed d = rollback env h err renamed d.
Proof.
  induction renamed as [|fn rest IH]; intros d; cbn [rollback]; [reflexivity |].
  destruct (os_Remove (faults env) fn d) as [e d']. rewrite IH. reflexivity.
Qed.

Lemma promote_Until (env : Env) (h : Harvest) (u suffix : string)
    (files : list string) :
  forall renamed d,
    promote env (set_Until u h) suffix files renamed d
    = promote env h suffix files renamed d.
Proof.
  induction files as [|y files IH]; intros renamed d; cbn [promote]; [reflexivity |].
  destruct (MoveAndCompress _ _ _ _) as [[err|] d'];
    [apply rollback_Until | apply IH].
Qed.

Lemma pages_Until (env : Env) (h : Harvest) (u : string) (iv : Interval)
    (suffix : string) (script : list (result Response)) :
  forall token i empty w,
    pages env (set_Until u h) iv suffix script token i empty w
    = pages env h iv suffix script token i empty w.
Proof.
  induction script as [|reply script IH]; intros token i empty w.
  - reflexivity.
  - cbn [pages]. change (MaxRequests (set_Until u h)) with (MaxRequests h).
    change (build_request (set_Until u h) iv token) with (build_request h iv token).
    change (IgnoreHTTPErrors (set_Until u h)) with (IgnoreHTTPErrors h).
    change (MaxEmptyResponses (set_Until u h)) with (MaxEmptyResponses h).
    destruct (MaxRequests h =? i); [reflexivity |].
    destruct (build_request h iv token) as [req fd].
    destruct reply as [resp|err]; [| reflexivity].
    destruct (error_switch resp); [| apply IH | reflexivity].
    destruct (Marshal resp) as [b|err]; [| reflexivity].
    destruct (WriteFile _ _ _ _) as [[e|] d1]; [reflexivity |].
    destruct (_ =? "")%string; [reflexivity |].
    destruct (_ =? MaxEmptyResponses h); [reflexivity | apply IH].
Qed.

Lemma runInterval_Until (env : Env) (h : Harvest) (u : string) (iv : Interval)
    (script : list (result Response)) (w : World) :
  runInterval env (set_Until u h) iv script w = runInterval env h iv script w.
Proof.
  unfold runInterval, finalize. rewrite pages_Until.
  destruct (pages env h iv _ script "" 0 0 _) as [[[| err |] script'] w'];
    [| reflexivity | reflexivity].
  rewrite promote_Until. reflexivity.
Qed.

Lemma run_intervals_Until (env : Env) (h : Harvest) (u : string)
    (ivs : list Interval) :
  forall script w,
    run_intervals env (set_Until u h) ivs script w = run_intervals env h ivs script w.
Proof.
  induction ivs as [|iv ivs IH]; intros script w; cbn [run_intervals];
    [reflexivity |].
  rewrite runInterval_Until.
  destruct (runInterval env h iv script w) as [[[[err|] script'] w']|];
    [reflexivity | apply IH | reflexivity].
Qed.


(** ** Full paths and base names

    What [literal_dir] and [suffix_free_dir] are for: under them the
    computations of the code on full paths are those of the model on
    base names. *)

Lemma length_remove_all (old s : string) :
  forall k, (String.length (remove_all old k s) <= String.length s)%nat.
Proof.
  induction s as [|c s IH]; intros k; cbn [remove_all String.length]; [lia |].
  destruct k as [|k]; [| specialize (IH k); lia].
  destruct (HasPrefix (String c s) old).
  - specialize (IH (String.length old - 1)%nat). lia.
  - cbn [String.length]. specialize (IH O). lia.
Qed.

Lemma HasPrefix_before_slash (old : string) :
  all_bytes not_slash old = true ->
  forall x r, HasPrefix (x ++ String "/" r) old = HasPrefix x old.
Proof.
  induction old as [|c old IH]; intros Hold x r; [destruct x; reflexivity |].
  cbn [all_bytes] in Hold. apply andb_true_iff in Hold as [Hc Hold].
  destruct x as [|d x].
  - rewrite append_nil. cbn [HasPrefix].
    unfold not_slash in Hc. apply negb_true_iff in Hc. rewrite Hc. reflexivity.
  - rewrite append_cons. cbn [HasPrefix]. rewrite (IH Hold). reflexivity.
Qed.

Lemma remove_all_below_dir (suffix name : string) :
  suffix <> "" -> all_bytes not_slash suffix = true ->
  forall dirp,
    remove_all suffix 0 dirp = dirp ->
    remove_all suffix 0 (dirp ++ String "/" name)
    = dirp ++ String "/" (remove_all suffix 0 name).
Proof.
  intros Hne Hns. induction dirp as [|c dirp IH]; intros Hfree.
  - rewrite !append_nil. cbn [remove_all].
    replace (HasPrefix (String "/" name) suffix) with false; [reflexivity |].
    destruct suffix as [|a suffix]; [congruence |].
    cbn [all_bytes] in Hns. apply andb_true_iff in Hns as [Ha _].
    unfold not_slash in Ha. apply negb_true_iff in Ha.
    cbn [HasPrefix]. rewrite Ha. reflexivity.
  - cbn [remove_all] in Hfree.
    rewrite !append_cons. cbn [remove_all].
    rewrite <- (append_cons c dirp (String "/" name)).
    rewrite (HasPrefix_before_slash suffix Hns).
    destruct (HasPrefix (String c dirp) suffix).
    + exfalso.
      pose proof (length_remove_all suffix dirp (String.length suffix - 1)) as Hl.
      rewrite Hfree in Hl. cbn [String.length] in Hl. lia.
    + injection Hfree as Hfree. rewrite (IH Hfree). reflexivity.
Qed.

(** Line 182 on a full path: the suffix is removed from the base name. *)
Lemma strings_Replace_below_dir (dirp suffix name : string) :
  suffix <> "" -> all_bytes not_slash suffix = true ->
  strings_Replace dirp suffix = dirp ->
  strings_Replace (dirp ++ "/" ++ name) suffix
  = dirp ++ "/" ++ strings_Replace name suffix.
Proof.
  unfold strings_Replace. intros Hne Hns Hfree.
  exact (remove_all_below_dir suffix name Hne Hns dirp Hfree).
Qed.

(** A pattern below a literal path matches below this path, and there it
    matches as on the base name. *)
Lemma glob_match_below_dir_cons (dirp pat name : string) :
  all_bytes glob_literal dirp = true ->
  glob_match (dirp ++ String "/" pat) (dirp ++ String "/" name)
  = glob_match pat name.
Proof.
  induction dirp as [|c dirp IH]; intros Hlit.
  - rewrite !append_nil.
    rewrite glob_match_literal_cons by reflexivity. reflexivity.
  - cbn [all_bytes] in Hlit. apply andb_true_iff in Hlit as [Hc Hlit].
    unfold glob_literal in Hc. rewrite !andb_true_iff, !negb_true_iff in Hc.
    destruct Hc as [[[Hs Hq] _] _].
    rewrite !append_cons, glob_match_literal_cons by assumption.
    rewrite Ascii.eqb_refl. apply IH, Hlit.
Qed.

Lemma glob_match_below_dir (dirp pat name : string) :
  all_bytes glob_literal dirp = true ->
  glob_match (dirp ++ "/" ++ pat) (dirp ++ "/" ++ name) = glob_match pat name.
Proof. exact (glob_match_below_dir_cons dirp pat name). Qed.

(** The destination [finalize] computes for a file of the batch is the
    permanent name of the model, in the cache directory. *)
Lemma finalize_destination (env : Env) (h : Harvest) (tail y : string) :
  all_bytes numeric tail = true ->
  suffix_free_dir env h ("-tmp-" ++ tail) ->
  strings_Replace (Dir env h ++ "/" ++ y) ("-tmp-" ++ tail) ++ ".gz"
  = Dir env h ++ "/" ++ (strings_Replace y ("-tmp-" ++ tail) ++ ".gz").
Proof.
  intros Ht Hfree. rewrite strings_Replace_below_dir.
  - rewrite !append_assoc. reflexivity.
  - discriminate.
  - change ("-tmp-" ++ tail) with (String "-" (String "t" (String "m" (String "p"
      (String "-" tail))))). cbn [all_bytes]. rewrite (numeric_not_slash _ Ht).
    reflexivity.
  - exact Hfree.
Qed.

(** The globs of the code list the entries of the cache directory whose
    base name matches. *)
Lemma glob_below_cache (env : Env) (h : Harvest) (pat name : string) :
  literal_dir env h ->
  glob_match (Dir env h ++ "/" ++ pat) (Dir env h ++ "/" ++ name)
  = glob_match pat name.
Proof. apply glob_match_below_dir. Qed.
